(** * The raster editing core of the isometric asset editor

    A shallow embedding of the layer stack, the undo/redo history, the
    compositor, the lasso engine, the flood fill and the Porter-Duff blend
    of the editor component, with the properties checked against it.

    Conventions of the embedding.
    - A JavaScript [number] that only ever holds an integer (a coordinate,
      an index, a channel, a byte of a [Uint8ClampedArray]) is a [Z];
      integer-valued doubles below 2^53 are exact, so sums and products of
      such values are computed in [Z].
    - Where the source divides or scales ([blendPixel], [pointInPolygon],
      [hexToRgba]) the computation is done on binary64 values, Rocq's
      primitive [float], operation by operation as the source writes it.
    - The module-level [let] variables of the component are the fields of
      [EditorState]; a function of the component is a function from state
      to state. A [Layer] object is only ever reached through the [layers]
      array, so a write through its context is an update of the list.
    - A canvas and its 2D context are one bitmap: width, height and the
      RGBA8 bytes in row-major order, the layout [getImageData] exposes;
      [getImageData] and [putImageData] copy these bytes as they are.
      The overlay canvases (grid, preview) are not part of the model. *)

From Stdlib Require Import ZArith Floats Uint63 Ascii Lia.
From stdpp Require Import base list strings pretty gmap.

#[local] Open Scope Z_scope.

(** ** JavaScript numbers *)

(** An integer as a double (exact below 2^53). *)
Definition Z2F (z : Z) : float :=
  match z with
  | Z0 => 0%float
  | Zpos _ => PrimFloat.of_uint63 (Uint63.of_Z z)
  | Zneg p => PrimFloat.opp (PrimFloat.of_uint63 (Uint63.of_Z (Zpos p)))
  end.

(** [Math.round]: the nearest integer, a tie going toward +infinity. The
    call sites only round finite values; a NaN or an infinity is mapped to
    0 here. *)
Definition Math_round (f : float) : Z :=
  match Prim2SF f with
  | S754_finite s m e =>
      let n := if s then Zneg m else Zpos m in
      if 0 <=? e then n * 2 ^ e else (2 * n + 2 ^ (- e)) `div` 2 ^ (1 - e)
  | _ => 0
  end.

(** A store into a [Uint8ClampedArray] of an integer value. *)
Definition toUint8Clamp (z : Z) : Z := Z.max 0 (Z.min z 255).

(** ** Data model *)

Module Color.
Record t := mk { r : Z; g : Z; b : Z; a : Z }.
End Color.

Module ImageData.
Record t := mk { width : Z; height : Z; data : list Z }.
End ImageData.

(** [canvas] stands for both the [canvas] and the [ctx] field of a layer. *)
Module Layer.
Record t := mk { id : string; name : string; canvas : ImageData.t; visible : bool }.
End Layer.

Module LayerState.
Record t := mk { id : string; imageData : ImageData.t }.
End LayerState.

Module HistoryState.
Record t := mk { layerStates : list LayerState.t; activeLayerIndex : Z }.
End HistoryState.

Module Point.
Record t := mk { x : Z; y : Z }.
End Point.

Module Bounds.
Record t := mk { minX : Z; minY : Z; maxX : Z; maxY : Z }.
End Bounds.

Module Floating.
Record t := mk { imageData : ImageData.t; x : Z; y : Z }.
End Floating.

Definition MAX_UNDO_STEPS : Z := 50.

Record EditorState := mkState {
  canvasWidth : Z;
  canvasHeight : Z;
  layers : list Layer.t;
  activeLayerIndex : Z;
  ctx : option ImageData.t;
  paintColor : string;
  paintOpacity : Z;
  floatingSelection : option Floating.t;
  lassoPoints : list Point.t;
  lassoMask : option (list (list bool));
  lassoImageData : option ImageData.t;
  lassoBounds : option Bounds.t;
  undoStack : list HistoryState.t;
  redoStack : list HistoryState.t
}.

(** Field updates. *)
Definition set_layers (s : EditorState) (v : list Layer.t) : EditorState :=
  mkState (canvasWidth s) (canvasHeight s) v (activeLayerIndex s) (ctx s)
    (paintColor s) (paintOpacity s) (floatingSelection s) (lassoPoints s)
    (lassoMask s) (lassoImageData s) (lassoBounds s) (undoStack s) (redoStack s).

Definition set_activeLayerIndex (s : EditorState) (v : Z) : EditorState :=
  mkState (canvasWidth s) (canvasHeight s) (layers s) v (ctx s)
    (paintColor s) (paintOpacity s) (floatingSelection s) (lassoPoints s)
    (lassoMask s) (lassoImageData s) (lassoBounds s) (undoStack s) (redoStack s).

Definition set_ctx (s : EditorState) (v : option ImageData.t) : EditorState :=
  mkState (canvasWidth s) (canvasHeight s) (layers s) (activeLayerIndex s) v
    (paintColor s) (paintOpacity s) (floatingSelection s) (lassoPoints s)
    (lassoMask s) (lassoImageData s) (lassoBounds s) (undoStack s) (redoStack s).

Definition set_floatingSelection (s : EditorState) (v : option Floating.t) : EditorState :=
  mkState (canvasWidth s) (canvasHeight s) (layers s) (activeLayerIndex s) (ctx s)
    (paintColor s) (paintOpacity s) v (lassoPoints s)
    (lassoMask s) (lassoImageData s) (lassoBounds s) (undoStack s) (redoStack s).

Definition set_lassoMask (s : EditorState) (v : option (list (list bool))) : EditorState :=
  mkState (canvasWidth s) (canvasHeight s) (layers s) (activeLayerIndex s) (ctx s)
    (paintColor s) (paintOpacity s) (floatingSelection s) (lassoPoints s)
    v (lassoImageData s) (lassoBounds s) (undoStack s) (redoStack s).

Definition set_lassoImageData (s : EditorState) (v : option ImageData.t) : EditorState :=
  mkState (canvasWidth s) (canvasHeight s) (layers s) (activeLayerIndex s) (ctx s)
    (paintColor s) (paintOpacity s) (floatingSelection s) (lassoPoints s)
    (lassoMask s) v (lassoBounds s) (undoStack s) (redoStack s).

Definition set_lassoBounds (s : EditorState) (v : option Bounds.t) : EditorState :=
  mkState (canvasWidth s) (canvasHeight s) (layers s) (activeLayerIndex s) (ctx s)
    (paintColor s) (paintOpacity s) (floatingSelection s) (lassoPoints s)
    (lassoMask s) (lassoImageData s) v (undoStack s) (redoStack s).

Definition set_undoStack (s : EditorState) (v : list HistoryState.t) : EditorState :=
  mkState (canvasWidth s) (canvasHeight s) (layers s) (activeLayerIndex s) (ctx s)
    (paintColor s) (paintOpacity s) (floatingSelection s) (lassoPoints s)
    (lassoMask s) (lassoImageData s) (lassoBounds s) v (redoStack s).

Definition set_redoStack (s : EditorState) (v : list HistoryState.t) : EditorState :=
  mkState (canvasWidth s) (canvasHeight s) (layers s) (activeLayerIndex s) (ctx s)
    (paintColor s) (paintOpacity s) (floatingSelection s) (lassoPoints s)
    (lassoMask s) (lassoImageData s) (lassoBounds s) (undoStack s) v.

(** ** Arrays *)

(** [arr[i]] for a numeric index: [None] is JavaScript's [undefined]. *)
Definition at_index {A} (l : list A) (i : Z) : option A :=
  if 0 <=? i then l !! Z.to_nat i else None.

(** [n] elements computed from their index. *)
Definition tabulate {A} (n : nat) (f : Z -> A) : list A :=
  (λ i : nat, f (Z.of_nat i)) <$> seq 0 n.

(** The start position [Array.prototype.splice] and [slice] derive from
    their first argument: counted from the end when negative, clamped to
    the array. *)
Definition relativeStart (start len : Z) : nat :=
  Z.to_nat (if start <? 0 then Z.max (len + start) 0 else Z.min start len).

(** [arr.splice(start, 0, x)] on a copy: the array with [x] inserted. *)
Definition splice_insert {A} (l : list A) (start : Z) (x : A) : list A :=
  let k := relativeStart start (Z.of_nat (length l)) in
  take k l ++ x :: drop k l.

(** [arr.splice(start, 1)] on a copy: the removed elements and what is
    left. *)
Definition splice_remove1 {A} (l : list A) (start : Z) : list A * list A :=
  let k := relativeStart start (Z.of_nat (length l)) in
  (take 1 (drop k l), take k l ++ drop (S k) l).

(** [arr.slice(start)]. *)
Definition slice_from {A} (l : list A) (start : Z) : list A :=
  drop (relativeStart start (Z.of_nat (length l))) l.

(** [arr.slice(0, -1)]. *)
Definition slice_init {A} (l : list A) : list A := take (length l - 1)%nat l.

(** [arr.filter((_, i) => keep(i))], the index starting from [i]. *)
Fixpoint filter_index {A} (keep : Z -> bool) (i : Z) (l : list A) : list A :=
  match l with
  | [] => []
  | x :: t => if keep i then x :: filter_index keep (i + 1) t
              else filter_index keep (i + 1) t
  end.

(** [arr.find(p)]'s position: the first element satisfying [p]. *)
Fixpoint find_index {A} (p : A -> bool) (l : list A) : option nat :=
  match l with
  | [] => None
  | x :: t => if p x then Some 0%nat else S <$> find_index p t
  end.

(** ** Bitmaps *)

(** A read of the typed array where the source has an in-range index. *)
Definition byteAt (d : list Z) (i : Z) : Z := default 0 (at_index d i).

(** A store [data[i] = v]; out of range it is ignored. *)
Definition storeByte (d : list Z) (i : Z) (v : Z) : list Z :=
  if 0 <=? i then <[Z.to_nat i := toUint8Clamp v]> d else d.

(** [ctx.getImageData(sx, sy, sw, sh)]: a fresh copy of the rectangle;
    what lies outside the canvas is transparent black. *)
Definition getImageData (cv : ImageData.t) (sx sy sw sh : Z) : ImageData.t :=
  ImageData.mk sw sh
    (tabulate (Z.to_nat (4 * sw * sh)) (λ i,
       let p := i `div` 4 in
       let x := sx + p `mod` sw in
       let y := sy + p `div` sw in
       if (0 <=? x) && (x <? ImageData.width cv) &&
          (0 <=? y) && (y <? ImageData.height cv)
       then byteAt (ImageData.data cv) ((y * ImageData.width cv + x) * 4 + i `mod` 4)
       else 0)).

(** [ctx.putImageData(img, dx, dy)]: the rectangle is written over the
    canvas as it is, alpha included; the part that falls outside is
    dropped. *)
Definition putImageData (cv img : ImageData.t) (dx dy : Z) : ImageData.t :=
  ImageData.mk (ImageData.width cv) (ImageData.height cv)
    (tabulate (length (ImageData.data cv)) (λ i,
       let p := i `div` 4 in
       let x := p `mod` ImageData.width cv in
       let y := p `div` ImageData.width cv in
       if (dx <=? x) && (x <? dx + ImageData.width img) &&
          (dy <=? y) && (y <? dy + ImageData.height img)
       then byteAt (ImageData.data img)
              (((y - dy) * ImageData.width img + (x - dx)) * 4 + i `mod` 4)
       else byteAt (ImageData.data cv) i)).

(** [ctx.clearRect(0, 0, w, h)]. *)
Definition clearRect (cv : ImageData.t) (w h : Z) : ImageData.t :=
  ImageData.mk (ImageData.width cv) (ImageData.height cv)
    (tabulate (length (ImageData.data cv)) (λ i,
       let p := i `div` 4 in
       let x := p `mod` ImageData.width cv in
       let y := p `div` ImageData.width cv in
       if (x <? w) && (y <? h) then 0 else byteAt (ImageData.data cv) i)).

Definition getPixelColor (imageData : ImageData.t) (x y : Z) : Color.t :=
  let index := (y * ImageData.width imageData + x) * 4 in
  Color.mk (byteAt (ImageData.data imageData) index)
           (byteAt (ImageData.data imageData) (index + 1))
           (byteAt (ImageData.data imageData) (index + 2))
           (byteAt (ImageData.data imageData) (index + 3)).

Definition setPixelColor (imageData : ImageData.t) (x y : Z) (color : Color.t)
  : ImageData.t :=
  let index := (y * ImageData.width imageData + x) * 4 in
  let d0 := storeByte (ImageData.data imageData) index (Color.r color) in
  let d1 := storeByte d0 (index + 1) (Color.g color) in
  let d2 := storeByte d1 (index + 2) (Color.b color) in
  let d3 := storeByte d2 (index + 3) (Color.a color) in
  ImageData.mk (ImageData.width imageData) (ImageData.height imageData) d3.

Definition colorsMatch (c1 c2 : Color.t) (tolerance : Z) : bool :=
  (Z.abs (Color.r c1 - Color.r c2) <=? tolerance) &&
  (Z.abs (Color.g c1 - Color.g c2) <=? tolerance) &&
  (Z.abs (Color.b c1 - Color.b c2) <=? tolerance) &&
  (Z.abs (Color.a c1 - Color.a c2) <=? tolerance).

Definition hexDigit (c : Ascii.ascii) : option Z :=
  let n := Z.of_N (Ascii.N_of_ascii c) in
  if (48 <=? n) && (n <=? 57) then Some (n - 48)
  else if (97 <=? n) && (n <=? 102) then Some (n - 87)
  else if (65 <=? n) && (n <=? 70) then Some (n - 55)
  else None.

(** The three groups of [/^#?([a-f\d]{2})([a-f\d]{2})([a-f\d]{2})$/i], each
    through [parseInt(_, 16)]. *)
Definition parseHex6 (hex : string) : option (Z * Z * Z) :=
  let body := match hex with
              | String "#"%char rest => rest
              | _ => hex
              end in
  match hexDigit <$> String.list_ascii_of_string body with
  | [Some r1; Some r0; Some g1; Some g0; Some b1; Some b0] =>
      Some (r1 * 16 + r0, g1 * 16 + g0, b1 * 16 + b0)
  | _ => None
  end.

Definition hexToRgba (hex : string) (opacity : Z) : Color.t :=
  let alpha := Math_round ((Z2F opacity / 100) * 255)%float in
  match parseHex6 hex with
  | Some (r, g, b) => Color.mk r g b alpha
  | None => Color.mk 0 0 0 alpha
  end.

(** The channel of a color that byte [k] of its pixel holds. *)
Definition channel (c : Color.t) (k : Z) : Z :=
  if k =? 0 then Color.r c else if k =? 1 then Color.g c
  else if k =? 2 then Color.b c else Color.a c.

(** ** The canvas compositing the component relies on

    [drawImage] composites with the context's [globalCompositeOperation],
    which the component never sets on the display context and is therefore
    the default, source-over, at [globalAlpha] 1. Source-over leaves the
    destination where the source is fully transparent and yields the source
    where it is fully opaque; how a translucent source is mixed into the
    destination depends on the platform's arithmetic and is the one
    operation taken as an interface. *)
Class Compositing := { sourceOverTranslucent : Color.t -> Color.t -> Color.t }.

Section Editor.
Context `{Compositing}.

Definition drawImagePixel (dst src : Color.t) : Color.t :=
  if Color.a src =? 0 then dst
  else if Color.a src =? 255 then src
  else sourceOverTranslucent dst src.

(** [ctx.drawImage(src, 0, 0)], the source drawn at its own size. *)
Definition drawImage (cv src : ImageData.t) : ImageData.t :=
  ImageData.mk (ImageData.width cv) (ImageData.height cv)
    (tabulate (length (ImageData.data cv)) (λ i,
       let p := i `div` 4 in
       let x := p `mod` ImageData.width cv in
       let y := p `div` ImageData.width cv in
       if (x <? ImageData.width src) && (y <? ImageData.height src)
       then channel (drawImagePixel (getPixelColor cv x y) (getPixelColor src x y))
                    (i `mod` 4)
       else byteAt (ImageData.data cv) i)).

(** ** Compositor *)

Definition compositeAndRender (s : EditorState) : EditorState :=
  match ctx s with
  | None => s
  | Some display =>
      let cleared := clearRect display (canvasWidth s) (canvasHeight s) in
      set_ctx s (Some (fold_left
        (λ acc layer, if Layer.visible layer then drawImage acc (Layer.canvas layer)
                      else acc)
        (layers s) cleared))
  end.

(** ** History *)

(** The [{ layerStates, activeLayerIndex }] record both [saveState] and
    [undo]/[redo] build from the live layers. *)
Definition currentState (s : EditorState) : HistoryState.t :=
  HistoryState.mk
    ((λ layer, LayerState.mk (Layer.id layer)
        (getImageData (Layer.canvas layer) 0 0 (canvasWidth s) (canvasHeight s)))
     <$> layers s)
    (activeLayerIndex s).

Definition saveState (s : EditorState) : EditorState :=
  if bool_decide (length (layers s) = 0%nat) then s
  else
    let state := currentState s in
    set_redoStack
      (set_undoStack s (slice_from (undoStack s) (- (MAX_UNDO_STEPS - 1)) ++ [state]))
      [].

(** [layer.ctx.putImageData(layerState.imageData, 0, 0)]: the layer with
    the snapshot written into its bitmap. *)
Definition restored (layerState : LayerState.t) (layer : Layer.t) : Layer.t :=
  Layer.mk (Layer.id layer) (Layer.name layer)
    (putImageData (Layer.canvas layer) (LayerState.imageData layerState) 0 0)
    (Layer.visible layer).

(** One turn of the restoring loop: [layers.find] picks the first layer
    with the entry's id, and the snapshot is written into that layer. *)
Definition restoreLayer (ls : list Layer.t) (layerState : LayerState.t) : list Layer.t :=
  match find_index (λ l, String.eqb (Layer.id l) (LayerState.id layerState)) ls with
  | Some k => alter (restored layerState) k ls
  | None => ls
  end.

Definition restoreState (s : EditorState) (h : HistoryState.t) : EditorState :=
  set_activeLayerIndex
    (set_layers s (fold_left restoreLayer (HistoryState.layerStates h) (layers s)))
    (HistoryState.activeLayerIndex h).

Definition undo (s : EditorState) : EditorState :=
  match last (undoStack s) with
  | None => s
  | Some previousState =>
      if bool_decide (length (layers s) = 0%nat) then s
      else
        let s1 := set_redoStack s (redoStack s ++ [currentState s]) in
        let s2 := set_undoStack s1 (slice_init (undoStack s1)) in
        compositeAndRender (restoreState s2 previousState)
  end.

Definition redo (s : EditorState) : EditorState :=
  match last (redoStack s) with
  | None => s
  | Some nextState =>
      if bool_decide (length (layers s) = 0%nat) then s
      else
        let s1 := set_undoStack s (undoStack s ++ [currentState s]) in
        let s2 := set_redoStack s1 (slice_init (redoStack s1)) in
        compositeAndRender (restoreState s2 nextState)
  end.

(** ** Layer stack *)

(** [createLayer()]: a cleared canvas of the current size. The id comes
    from the clock and the random generator, so it is an argument. *)
Definition createLayer (s : EditorState) (newId : string) : Layer.t :=
  Layer.mk newId
    ("Layer " +:+ pretty (Z.of_nat (length (layers s)) + 1))
    (ImageData.mk (canvasWidth s) (canvasHeight s)
       (replicate (Z.to_nat (4 * canvasWidth s * canvasHeight s)) 0))
    true.

Definition addLayer (s : EditorState) (newId : string) : EditorState :=
  let newLayer := createLayer s newId in
  let newLayers := splice_insert (layers s) (activeLayerIndex s + 1) newLayer in
  compositeAndRender
    (set_activeLayerIndex (set_layers s newLayers) (activeLayerIndex s + 1)).

Definition removeLayer (s : EditorState) (index : Z) : EditorState :=
  if Z.of_nat (length (layers s)) <=? 1 then s
  else
    let newLayers := filter_index (λ i, negb (i =? index)) 0 (layers s) in
    let s1 := set_layers s newLayers in
    let s2 :=
      if Z.of_nat (length (layers s1)) <=? activeLayerIndex s1
      then set_activeLayerIndex s1 (Z.of_nat (length (layers s1)) - 1)
      else if index <? activeLayerIndex s1
           then set_activeLayerIndex s1 (activeLayerIndex s1 - 1)
           else s1 in
    compositeAndRender s2.

Definition moveLayer (s : EditorState) (fromIndex toIndex : Z) : EditorState :=
  if fromIndex =? toIndex then s
  else if (fromIndex <? 0) || (Z.of_nat (length (layers s)) <=? fromIndex) then s
  else if (toIndex <? 0) || (Z.of_nat (length (layers s)) <=? toIndex) then s
  else
    let '(removed, rest) := splice_remove1 (layers s) fromIndex in
    (* [fromIndex] is in range here, so [removed] has its one element *)
    let newLayers := match removed with
                     | movedLayer :: _ => splice_insert rest toIndex movedLayer
                     | [] => rest
                     end in
    let s1 := set_layers s newLayers in
    let a := activeLayerIndex s1 in
    let s2 :=
      if a =? fromIndex then set_activeLayerIndex s1 toIndex
      else if (fromIndex <? a) && (a <=? toIndex) then set_activeLayerIndex s1 (a - 1)
      else if (a <? fromIndex) && (toIndex <=? a) then set_activeLayerIndex s1 (a + 1)
      else s1 in
    compositeAndRender s2.

(** [activeCtx], the derived [layers[activeLayerIndex]?.ctx ?? null]. *)
Definition activeCtx (s : EditorState) : option ImageData.t :=
  Layer.canvas <$> at_index (layers s) (activeLayerIndex s).

(** A write through [activeCtx]: the active layer's bitmap replaced. *)
Definition set_activeCanvas (s : EditorState) (cv : ImageData.t) : EditorState :=
  set_layers s
    (alter (λ l, Layer.mk (Layer.id l) (Layer.name l) cv (Layer.visible l))
       (Z.to_nat (activeLayerIndex s)) (layers s)).

(** ** Fill engine *)

(** [stack.pop()]: the last element and the array without it. *)
Definition pop {A} (l : list A) : option (A * list A) :=
  match last l with
  | Some x => Some (x, take (length l - 1)%nat l)
  | None => None
  end.

(** The [while (stack.length > 0)] loop of [floodFill]. Each unit of fuel
    pays for one turn; [None] means the fuel ran out before the stack was
    empty. The [Set] of keys [`${x},${y}`] is a set of coordinate pairs. *)
Fixpoint floodLoop (fuel : nat) (W Ht : Z) (targetColor fillColor : Color.t)
    (imageData : ImageData.t) (stack : list (Z * Z)) (visited : gset (Z * Z))
  : option ImageData.t :=
  match pop stack with
  | None => Some imageData
  | Some ((x, y), stack') =>
      match fuel with
      | O => None
      | S fuel' =>
          if bool_decide ((x, y) ∈ visited)
          then floodLoop fuel' W Ht targetColor fillColor imageData stack' visited
          else if (x <? 0) || (W <=? x) || (y <? 0) || (Ht <=? y)
          then floodLoop fuel' W Ht targetColor fillColor imageData stack' visited
          else if negb (colorsMatch (getPixelColor imageData x y) targetColor 0)
          then floodLoop fuel' W Ht targetColor fillColor imageData stack' visited
          else floodLoop fuel' W Ht targetColor fillColor
                 (setPixelColor imageData x y fillColor)
                 (stack' ++ [(x + 1, y); (x - 1, y); (x, y + 1); (x, y - 1)])
                 ({[(x, y)]} ∪ visited)
      end
  end.

Definition floodFill (fuel : nat) (s : EditorState) (startX startY : Z)
  : option EditorState :=
  match activeCtx s with
  | None => Some s
  | Some cv =>
      if (startX <? 0) || (canvasWidth s <=? startX) ||
         (startY <? 0) || (canvasHeight s <=? startY)
      then Some s
      else
        let s1 := saveState s in
        let imageData := getImageData cv 0 0 (canvasWidth s) (canvasHeight s) in
        let targetColor := getPixelColor imageData startX startY in
        let fillColor := hexToRgba (paintColor s) (paintOpacity s) in
        if colorsMatch targetColor fillColor 0 then Some s1
        else
          match floodLoop fuel (canvasWidth s) (canvasHeight s) targetColor fillColor
                  imageData [(startX, startY)] ∅ with
          | None => None
          | Some filled =>
              Some (compositeAndRender
                      (set_activeCanvas s1 (putImageData cv filled 0 0)))
          end
  end.

(** Turns of the loop that always suffice on a [W] by [Ht] buffer. *)
Definition floodFuel (W Ht : Z) : nat := Z.to_nat (4 * W * Ht + 1).

(** ** Lasso engine *)

(** The test [pointInPolygon] makes for the edge from [pj] to [pi]:
    [yi > y !== yj > y && x < ((xj - xi) * (y - yi)) / (yj - yi) + xi]. *)
Definition rayCrosses (x y : Z) (pi pj : Point.t) : bool :=
  let xi := Point.x pi in let yi := Point.y pi in
  let xj := Point.x pj in let yj := Point.y pj in
  negb (Bool.eqb (y <? yi) (y <? yj)) &&
  (Z2F x <? Z2F ((xj - xi) * (y - yi)) / Z2F (yj - yi) + Z2F xi)%float.

(** The loop [for (let i = 0, j = polygon.length - 1; i < polygon.length;
    j = i++)], its state being [inside] and [j]. *)
Definition pointInPolygon (x y : Z) (polygon : list Point.t) : bool :=
  let n := length polygon in
  fst (fold_left
    (λ '(inside, j) i,
       match polygon !! i, polygon !! j with
       | Some pi, Some pj =>
           if rayCrosses x y pi pj then (negb inside, i) else (inside, i)
       | _, _ => (inside, i)
       end)
    (seq 0 n) (false, (n - 1)%nat)).

(** The bounding box of the points, started from the canvas size and 0 as
    the source does, then clamped to the canvas. *)
Definition lassoBox (W Ht : Z) (points : list Point.t) : Bounds.t :=
  let acc := fold_left
    (λ bb point,
       Bounds.mk (Z.min (Bounds.minX bb) (Point.x point))
                 (Z.min (Bounds.minY bb) (Point.y point))
                 (Z.max (Bounds.maxX bb) (Point.x point))
                 (Z.max (Bounds.maxY bb) (Point.y point)))
    points (Bounds.mk W Ht 0 0) in
  Bounds.mk (Z.max 0 (Bounds.minX acc)) (Z.max 0 (Bounds.minY acc))
            (Z.min (W - 1) (Bounds.maxX acc)) (Z.min (Ht - 1) (Bounds.maxY acc)).

Definition createLassoMask (s : EditorState) : EditorState :=
  if Z.of_nat (length (lassoPoints s)) <? 3 then s
  else
    let bb := lassoBox (canvasWidth s) (canvasHeight s) (lassoPoints s) in
    let mask :=
      tabulate (Z.to_nat (canvasHeight s)) (λ y,
        tabulate (Z.to_nat (canvasWidth s)) (λ x,
          if (Bounds.minX bb <=? x) && (x <=? Bounds.maxX bb) &&
             (Bounds.minY bb <=? y) && (y <=? Bounds.maxY bb)
          then pointInPolygon x y (lassoPoints s)
          else false)) in
    set_lassoMask (set_lassoBounds s (Some bb)) (Some mask).

(** [lassoMask[y] && lassoMask[y][x]] as a condition. *)
Definition maskAt (mask : list (list bool)) (x y : Z) : bool :=
  match at_index mask y with
  | Some row => default false (at_index row x)
  | None => false
  end.

(** The loop of [moveLassoToFloating] (and of the lasso cut and delete)
    that zeroes every masked pixel of the bounding box. *)
Definition clearMasked (W : Z) (mask : list (list bool)) (bb : Bounds.t)
    (imageData : ImageData.t) : ImageData.t :=
  fold_left
    (λ img y,
       fold_left
         (λ img x,
            if maskAt mask x y then
              let idx := (y * W + x) * 4 in
              ImageData.mk (ImageData.width img) (ImageData.height img)
                (storeByte (storeByte (storeByte (storeByte
                   (ImageData.data img) idx 0) (idx + 1) 0) (idx + 2) 0) (idx + 3) 0)
            else img)
         (seqZ (Bounds.minX bb) (Bounds.maxX bb - Bounds.minX bb + 1)) img)
    (seqZ (Bounds.minY bb) (Bounds.maxY bb - Bounds.minY bb + 1)) imageData.

(** [extractLassoSelection]: the masked pixels of the bounding box, copied
    into a fresh (all zero) [ImageData] of the size of the box. *)
Definition extractLassoSelection (s : EditorState) : EditorState :=
  match activeCtx s, lassoMask s, lassoBounds s with
  | Some cv, Some mask, Some bb =>
      let width := Bounds.maxX bb - Bounds.minX bb + 1 in
      let height := Bounds.maxY bb - Bounds.minY bb + 1 in
      let sourceData := getImageData cv (Bounds.minX bb) (Bounds.minY bb) width height in
      let newData := ImageData.mk width height
                       (replicate (Z.to_nat (4 * width * height)) 0) in
      set_lassoImageData s (Some (fold_left
        (λ img y,
           fold_left
             (λ img x,
                if maskAt mask (Bounds.minX bb + x) (Bounds.minY bb + y) then
                  let srcIdx := (y * width + x) * 4 in
                  let src := ImageData.data sourceData in
                  ImageData.mk (ImageData.width img) (ImageData.height img)
                    (storeByte (storeByte (storeByte (storeByte
                       (ImageData.data img)
                       srcIdx (byteAt src srcIdx))
                       (srcIdx + 1) (byteAt src (srcIdx + 1)))
                       (srcIdx + 2) (byteAt src (srcIdx + 2)))
                       (srcIdx + 3) (byteAt src (srcIdx + 3)))
                else img)
             (seqZ 0 width) img)
        (seqZ 0 height) newData))
  | _, _, _ => s
  end.

Definition moveLassoToFloating (s : EditorState) : EditorState :=
  match activeCtx s, lassoMask s, lassoBounds s, lassoImageData s with
  | Some cv, Some mask, Some bb, Some extracted =>
      let s1 := saveState s in
      let imageData := getImageData cv 0 0 (canvasWidth s) (canvasHeight s) in
      let cleared := clearMasked (canvasWidth s) mask bb imageData in
      let s2 := set_activeCanvas s1 (putImageData cv cleared 0 0) in
      let s3 := set_floatingSelection s2
                  (Some (Floating.mk
                           (ImageData.mk (ImageData.width extracted)
                              (ImageData.height extracted) (ImageData.data extracted))
                           (Bounds.minX bb) (Bounds.minY bb))) in
      (* "Clear lasso state but keep points for reference" *)
      let s4 := set_lassoBounds (set_lassoImageData (set_lassoMask s3 None) None) None in
      compositeAndRender s4
  | _, _, _, _ => s
  end.

End Editor.

(** ** Blend engine *)

(** A read of the typed array inside an arithmetic expression: outside the
    array the read is [undefined], which the arithmetic turns into NaN. *)
Definition numberAt (d : list Z) (i : Z) : float :=
  match at_index d i with
  | Some v => Z2F v
  | None => nan
  end.

Definition blendPixel (imageData : ImageData.t) (x y : Z) (color : Color.t)
  : ImageData.t :=
  let index := (y * ImageData.width imageData + x) * 4 in
  let d := ImageData.data imageData in
  let srcAlpha := (Z2F (Color.a color) / 255)%float in
  let dstAlpha := (numberAt d (index + 3) / 255)%float in
  let outAlpha := (srcAlpha + dstAlpha * (1 - srcAlpha))%float in
  if (0 <? outAlpha)%float then
    let d0 := storeByte d index (Math_round
      ((Z2F (Color.r color) * srcAlpha + numberAt d index * dstAlpha * (1 - srcAlpha))
       / outAlpha)%float) in
    let d1 := storeByte d0 (index + 1) (Math_round
      ((Z2F (Color.g color) * srcAlpha + numberAt d0 (index + 1) * dstAlpha * (1 - srcAlpha))
       / outAlpha)%float) in
    let d2 := storeByte d1 (index + 2) (Math_round
      ((Z2F (Color.b color) * srcAlpha + numberAt d1 (index + 2) * dstAlpha * (1 - srcAlpha))
       / outAlpha)%float) in
    let d3 := storeByte d2 (index + 3) (Math_round (outAlpha * 255)%float) in
    ImageData.mk (ImageData.width imageData) (ImageData.height imageData) d3
  else imageData.

(** The blend as a function of two colors: [blendPixel] run on a buffer
    that holds the destination alone. *)
Definition blendOver (dst src : Color.t) : Color.t :=
  getPixelColor
    (blendPixel (ImageData.mk 1 1 [Color.r dst; Color.g dst; Color.b dst; Color.a dst])
       0 0 src)
    0 0.

(** A canvas that mixes a translucent source with this same straight-alpha
    formula; the concrete runs below use it. *)
Definition straightAlpha : Compositing := {| sourceOverTranslucent := blendOver |}.

(** ** Predicates and measures the properties are stated with *)

(** The layer stack invariant of the data model. *)
Definition stack_invariant (s : EditorState) : Prop :=
  (1 <= length (layers s))%nat /\
  0 <= activeLayerIndex s < Z.of_nat (length (layers s)).

(** A well-sized bitmap: the buffer holds four bytes per pixel. *)
Definition bitmap_ok (W Ht : Z) (cv : ImageData.t) : Prop :=
  ImageData.width cv = W /\ ImageData.height cv = Ht /\
  0 <= W /\ 0 <= Ht /\
  Z.of_nat (length (ImageData.data cv)) = 4 * W * Ht.

(** Every layer canvas has the size of the document. *)
Definition layers_sized (s : EditorState) : Prop :=
  Forall (λ l, bitmap_ok (canvasWidth s) (canvasHeight s) (Layer.canvas l)) (layers s).

(** Two layer records that differ at most in their pixels. *)
Definition same_layer (a b : Layer.t) : Prop :=
  Layer.id a = Layer.id b /\ Layer.name a = Layer.name b /\
  Layer.visible a = Layer.visible b.

(** The coordinates of a [W] by [Ht] buffer. *)
Definition cells (W Ht : Z) : list (Z * Z) := list_prod (seqZ 0 W) (seqZ 0 Ht).

(** What bounds the remaining turns of the fill loop: the entries still on
    the stack, and four pushes for every cell not yet visited. *)
Definition floodMeasure (W Ht : Z) (stack : list (Z * Z)) (visited : gset (Z * Z)) : nat :=
  (length stack + 4 * length (filter (λ c, c ∉ visited) (cells W Ht)))%nat.

(** The even-odd rule in the words of the specification: the edges of the
    closed polygon, each vertex joined to the one before it and the first
    to the last, and a point inside when the ray from it crosses an odd
    number of them. *)
Definition polygonEdges (polygon : list Point.t) : list (Point.t * Point.t) :=
  match last polygon with
  | Some pl => zip polygon (pl :: polygon)
  | None => []
  end.

Definition evenOddInside (x y : Z) (polygon : list Point.t) : bool :=
  Nat.odd (length (filter (λ e, rayCrosses x y e.1 e.2 = true) (polygonEdges polygon))).

Definition triangle : list Point.t := [Point.mk 0 0; Point.mk 10 0; Point.mk 0 10].

Definition transparentBlack : Color.t := Color.mk 0 0 0 0.

(** The colors the visible layers hold at a pixel, back to front. *)
Definition visiblePixels (s : EditorState) (x y : Z) : list Color.t :=
  (λ l, getPixelColor (Layer.canvas l) x y)
    <$> filter (λ l, Layer.visible l = true) (layers s).

Definition byte_ok (v : Z) : Prop := 0 <= v <= 255.

Definition color_ok (c : Color.t) : Prop :=
  byte_ok (Color.r c) /\ byte_ok (Color.g c) /\ byte_ok (Color.b c) /\ byte_ok (Color.a c).

(** The pixel at [(x, y)] lies inside the buffer. *)
Definition pixel_stored (img : ImageData.t) (x y : Z) : Prop :=
  let index := (y * ImageData.width img + x) * 4 in
  0 <= index /\ index + 3 < Z.of_nat (length (ImageData.data img)).

(** Equality of doubles, decided on their sign, mantissa and exponent. *)
Definition spec_float_eqb (a b : spec_float) : bool :=
  match a, b with
  | S754_zero s, S754_zero s' => Bool.eqb s s'
  | S754_infinity s, S754_infinity s' => Bool.eqb s s'
  | S754_nan, S754_nan => true
  | S754_finite s m e, S754_finite s' m' e' =>
      Bool.eqb s s' && (m =? m')%positive && (e =? e')
  | _, _ => false
  end.

Definition sameFloat (f g : float) : bool := spec_float_eqb (Prim2SF f) (Prim2SF g).

(** The values of a byte. *)
Definition bytes : list Z := seqZ 0 256.

(** ** Documents for the concrete runs *)

(** A one-pixel document: an opaque red layer under a transparent one,
    the upper layer active, red paint at full opacity. *)
Definition red_under_clear : EditorState :=
  mkState 1 1
    [Layer.mk "layer-1" "Layer 1" (ImageData.mk 1 1 [255; 0; 0; 255]) true;
     Layer.mk "layer-2" "Layer 2" (ImageData.mk 1 1 [0; 0; 0; 0]) true]
    1 (Some (ImageData.mk 1 1 [0; 0; 0; 0]))
    "#ff0000" 100 None [] None None None [] [].

(** The same document with the red layer active and a redo pending. *)
Definition red_on_red : EditorState :=
  set_redoStack (set_activeLayerIndex red_under_clear 0)
    [currentState red_under_clear].

(** The document after the upper layer was filled red: one undo entry. *)
Definition filled_document : EditorState :=
  default red_under_clear
    (@floodFill straightAlpha (floodFuel 1 1) red_under_clear 0 0).

(** A 2 by 2 document with one opaque layer and a triangular lasso drawn
    and finalized on it. *)
Definition lasso_document : EditorState :=
  mkState 2 2
    [Layer.mk "layer-1" "Layer 1"
       (ImageData.mk 2 2 (concat (replicate 4 [10; 20; 30; 255]))) true]
    0 (Some (ImageData.mk 2 2 (replicate 16 0)))
    "#000000" 100 None
    [Point.mk 0 0; Point.mk 2 0; Point.mk 0 2] None None None [] [].

Definition finalized_lasso : EditorState :=
  extractLassoSelection (createLassoMask lasso_document).

(** A 16 by 16 document on which the triangle of the specification has
    been drawn with the lasso. *)
Definition triangle_document : EditorState :=
  mkState 16 16
    [Layer.mk "layer-1" "Layer 1" (ImageData.mk 16 16 (replicate 1024 0)) true]
    0 (Some (ImageData.mk 16 16 (replicate 1024 0)))
    "#000000" 100 None triangle None None None [] [].

(** * More of the component

    The selection tool, the rest of the lasso tool, the global color
    replace, the line stepping and the small layer operations. The
    variables of the selection and lasso gestures that [EditorState] does
    not hold are the fields of [ToolState]; a function that touches both
    takes and returns the pair. The overlay drawing ([drawSelectionOverlay],
    [drawLassoOverlay]) is not part of the model. *)

Module Rect.
Record t := mk { x : Z; y : Z; width : Z; height : Z }.
End Rect.

Record ToolState := mkTool {
  isSelecting : bool;
  selectionStartX : Z;
  selectionStartY : Z;
  selectionEndX : Z;
  selectionEndY : Z;
  hasSelection : bool;
  clipboard : option ImageData.t;
  isMovingSelection : bool;
  moveStartX : Z;
  moveStartY : Z;
  isLassoing : bool
}.

Definition set_selection (u : ToolState) (sx sy ex ey : Z) : ToolState :=
  mkTool (isSelecting u) sx sy ex ey (hasSelection u) (clipboard u)
    (isMovingSelection u) (moveStartX u) (moveStartY u) (isLassoing u).

Definition set_selectionEnd (u : ToolState) (ex ey : Z) : ToolState :=
  set_selection u (selectionStartX u) (selectionStartY u) ex ey.

Definition set_isSelecting (u : ToolState) (v : bool) : ToolState :=
  mkTool v (selectionStartX u) (selectionStartY u) (selectionEndX u) (selectionEndY u)
    (hasSelection u) (clipboard u) (isMovingSelection u) (moveStartX u) (moveStartY u)
    (isLassoing u).

Definition set_hasSelection (u : ToolState) (v : bool) : ToolState :=
  mkTool (isSelecting u) (selectionStartX u) (selectionStartY u) (selectionEndX u)
    (selectionEndY u) v (clipboard u) (isMovingSelection u) (moveStartX u) (moveStartY u)
    (isLassoing u).

Definition set_clipboard (u : ToolState) (v : option ImageData.t) : ToolState :=
  mkTool (isSelecting u) (selectionStartX u) (selectionStartY u) (selectionEndX u)
    (selectionEndY u) (hasSelection u) v (isMovingSelection u) (moveStartX u) (moveStartY u)
    (isLassoing u).

Definition set_moving (u : ToolState) (v : bool) (mx my : Z) : ToolState :=
  mkTool (isSelecting u) (selectionStartX u) (selectionStartY u) (selectionEndX u)
    (selectionEndY u) (hasSelection u) (clipboard u) v mx my (isLassoing u).

Definition set_isMovingSelection (u : ToolState) (v : bool) : ToolState :=
  set_moving u v (moveStartX u) (moveStartY u).

Definition set_isLassoing (u : ToolState) (v : bool) : ToolState :=
  mkTool (isSelecting u) (selectionStartX u) (selectionStartY u) (selectionEndX u)
    (selectionEndY u) (hasSelection u) (clipboard u) (isMovingSelection u) (moveStartX u)
    (moveStartY u) v.

Definition set_lassoPoints (s : EditorState) (v : list Point.t) : EditorState :=
  mkState (canvasWidth s) (canvasHeight s) (layers s) (activeLayerIndex s) (ctx s)
    (paintColor s) (paintOpacity s) (floatingSelection s) v
    (lassoMask s) (lassoImageData s) (lassoBounds s) (undoStack s) (redoStack s).

(** [new ImageData(new Uint8ClampedArray(img.data), img.width, img.height)]. *)
Definition cloneImageData (img : ImageData.t) : ImageData.t :=
  ImageData.mk (ImageData.width img) (ImageData.height img) (ImageData.data img).

(** [ctx.clearRect(x, y, w, h)]. *)
Definition clearRectAt (cv : ImageData.t) (x y w h : Z) : ImageData.t :=
  ImageData.mk (ImageData.width cv) (ImageData.height cv)
    (tabulate (length (ImageData.data cv)) (λ i,
       let p := i `div` 4 in
       let px := p `mod` ImageData.width cv in
       let py := p `div` ImageData.width cv in
       if (x <=? px) && (px <? x + w) && (y <=? py) && (py <? y + h)
       then 0 else byteAt (ImageData.data cv) i)).

(** ** Layer stack, continued *)

Definition setActiveLayer (s : EditorState) (index : Z) : EditorState :=
  if (0 <=? index) && (index <? Z.of_nat (length (layers s)))
  then set_activeLayerIndex s index else s.

Section Editor2.
Context `{Compositing}.

(** [toggleLayerVisibility(index)]; [layers[index]] has to exist, the
    source throws otherwise and nothing changes. *)
Definition toggleLayerVisibility (s : EditorState) (index : Z) : EditorState :=
  match at_index (layers s) index with
  | Some _ =>
      compositeAndRender
        (set_layers s
           (alter (λ l, Layer.mk (Layer.id l) (Layer.name l) (Layer.canvas l)
                          (negb (Layer.visible l)))
              (Z.to_nat index) (layers s)))
  | None => s
  end.

(** [handleLayerDrop(index)] with [draggedLayerIndex]; the two drag
    variables are reset and are not part of the state. *)
Definition handleLayerDrop (s : EditorState) (draggedLayerIndex : option Z) (index : Z)
  : EditorState :=
  match draggedLayerIndex with
  | Some dragged => if negb (dragged =? index) then moveLayer s dragged index else s
  | None => s
  end.

(** ** Fill engine, continued *)

(** The two nested loops of [replaceColor]. *)
Definition replaceLoop (W Ht : Z) (targetColor fillColor : Color.t)
    (imageData : ImageData.t) : ImageData.t :=
  fold_left
    (λ img y,
       fold_left
         (λ img x,
            if colorsMatch (getPixelColor img x y) targetColor 0
            then setPixelColor img x y fillColor else img)
         (seqZ 0 W) img)
    (seqZ 0 Ht) imageData.

Definition replaceColor (s : EditorState) (startX startY : Z) : EditorState :=
  match activeCtx s with
  | None => s
  | Some cv =>
      if (startX <? 0) || (canvasWidth s <=? startX) ||
         (startY <? 0) || (canvasHeight s <=? startY)
      then s
      else
        let s1 := saveState s in
        let imageData := getImageData cv 0 0 (canvasWidth s) (canvasHeight s) in
        let targetColor := getPixelColor imageData startX startY in
        let fillColor := hexToRgba (paintColor s) (paintOpacity s) in
        if colorsMatch targetColor fillColor 0 then s1
        else
          compositeAndRender
            (set_activeCanvas s1
               (putImageData cv
                  (replaceLoop (canvasWidth s) (canvasHeight s) targetColor fillColor
                     imageData) 0 0))
  end.

Definition clearCanvas (s : EditorState) : EditorState :=
  match activeCtx s with
  | None => s
  | Some cv =>
      let s1 := saveState s in
      compositeAndRender
        (set_activeCanvas s1 (clearRect cv (canvasWidth s) (canvasHeight s)))
  end.

(** ** Selection engine *)

Definition getSelectionRect (u : ToolState) : Rect.t :=
  Rect.mk (Z.min (selectionStartX u) (selectionEndX u))
          (Z.min (selectionStartY u) (selectionEndY u))
          (Z.abs (selectionEndX u - selectionStartX u) + 1)
          (Z.abs (selectionEndY u - selectionStartY u) + 1).

Definition isInsideSelection (s : EditorState) (u : ToolState) (px py : Z) : bool :=
  match floatingSelection s with
  | Some f =>
      (Floating.x f <=? px) &&
      (px <? Floating.x f + ImageData.width (Floating.imageData f)) &&
      (Floating.y f <=? py) &&
      (py <? Floating.y f + ImageData.height (Floating.imageData f))
  | None =>
      if negb (hasSelection u) then false
      else
        let rect := getSelectionRect u in
        (Rect.x rect <=? px) && (px <? Rect.x rect + Rect.width rect) &&
        (Rect.y rect <=? py) && (py <? Rect.y rect + Rect.height rect)
  end.

Definition clearSelection (u : ToolState) : ToolState :=
  set_selection (set_hasSelection u false) 0 0 0 0.

Definition selectAll (s : EditorState) (u : ToolState) : ToolState :=
  set_hasSelection (set_selection u 0 0 (canvasWidth s - 1) (canvasHeight s - 1)) true.

Definition commitFloatingSelection (s : EditorState) : EditorState :=
  match activeCtx s, floatingSelection s with
  | Some cv, Some f =>
      let s1 := saveState s in
      let s2 := set_activeCanvas s1
                  (putImageData cv (Floating.imageData f) (Floating.x f) (Floating.y f)) in
      compositeAndRender (set_floatingSelection s2 None)
  | _, _ => s
  end.

Definition copySelection (s : EditorState) (u : ToolState) : ToolState :=
  match activeCtx s with
  | None => u
  | Some cv =>
      match floatingSelection s with
      | Some f => set_clipboard u (Some (cloneImageData (Floating.imageData f)))
      | None =>
          if negb (hasSelection u) then u
          else
            let rect := getSelectionRect u in
            set_clipboard u
              (Some (getImageData cv (Rect.x rect) (Rect.y rect)
                       (Rect.width rect) (Rect.height rect)))
      end
  end.

Definition cutSelection (s : EditorState) (u : ToolState) : EditorState * ToolState :=
  match activeCtx s with
  | None => (s, u)
  | Some cv =>
      match floatingSelection s with
      | Some f =>
          let u1 := set_clipboard u (Some (cloneImageData (Floating.imageData f))) in
          (compositeAndRender (set_floatingSelection s None), clearSelection u1)
      | None =>
          if negb (hasSelection u) then (s, u)
          else
            let s1 := saveState s in
            let rect := getSelectionRect u in
            let u1 := set_clipboard u
                        (Some (getImageData cv (Rect.x rect) (Rect.y rect)
                                 (Rect.width rect) (Rect.height rect))) in
            let s2 := set_activeCanvas s1
                        (clearRectAt cv (Rect.x rect) (Rect.y rect)
                           (Rect.width rect) (Rect.height rect)) in
            (compositeAndRender s2, clearSelection u1)
      end
  end.

Definition pasteSelection (s : EditorState) (u : ToolState) : EditorState * ToolState :=
  match clipboard u with
  | None => (s, u)
  | Some clip =>
      let s1 := commitFloatingSelection s in
      (set_floatingSelection s1 (Some (Floating.mk (cloneImageData clip) 0 0)),
       set_hasSelection u false)
  end.

Definition deleteSelection (s : EditorState) (u : ToolState) : EditorState * ToolState :=
  match activeCtx s with
  | None => (s, u)
  | Some cv =>
      match floatingSelection s with
      | Some f => (set_floatingSelection s None, clearSelection u)
      | None =>
          if negb (hasSelection u) then (s, u)
          else
            let s1 := saveState s in
            let rect := getSelectionRect u in
            let s2 := set_activeCanvas s1
                        (clearRectAt cv (Rect.x rect) (Rect.y rect)
                           (Rect.width rect) (Rect.height rect)) in
            (compositeAndRender s2, clearSelection u)
      end
  end.

(** The [tool === "select"] branch of [handleMouseDown], at the canvas
    coordinates [(x, y)] of the event. *)
Definition handleMouseDown_select (s : EditorState) (u : ToolState) (x y : Z)
  : EditorState * ToolState :=
  match floatingSelection s with
  | Some f =>
      if isInsideSelection s u x y
      then (s, set_moving u true (x - Floating.x f) (y - Floating.y f))
      else
        let s1 := commitFloatingSelection s in
        (s1, set_hasSelection (set_selection (set_isSelecting u true) x y x y) false)
  | None =>
      if hasSelection u && isInsideSelection s u x y then
        let rect := getSelectionRect u in
        match activeCtx s with
        | Some cv =>
            let selectionData := getImageData cv (Rect.x rect) (Rect.y rect)
                                   (Rect.width rect) (Rect.height rect) in
            let s1 := saveState s in
            let s2 := set_activeCanvas s1
                        (clearRectAt cv (Rect.x rect) (Rect.y rect)
                           (Rect.width rect) (Rect.height rect)) in
            let s3 := set_floatingSelection s2
                        (Some (Floating.mk selectionData (Rect.x rect) (Rect.y rect))) in
            (compositeAndRender s3,
             set_moving (set_hasSelection u false) true (x - Rect.x rect) (y - Rect.y rect))
        | None => (s, u)
        end
      else
        let s1 := commitFloatingSelection s in
        (s1, set_hasSelection (set_selection (set_isSelecting u true) x y x y) false)
  end.

(** The [tool === "select"] branch of [handleMouseMove]. *)
Definition handleMouseMove_select (s : EditorState) (u : ToolState) (x y : Z)
  : EditorState * ToolState :=
  match (if isMovingSelection u then floatingSelection s else None) with
  | Some f =>
      (set_floatingSelection s
         (Some (Floating.mk (Floating.imageData f) (x - moveStartX u) (y - moveStartY u))),
       u)
  | None =>
      if isSelecting u
      then (s, set_selectionEnd u (Z.max 0 (Z.min (canvasWidth s - 1) x))
                                  (Z.max 0 (Z.min (canvasHeight s - 1) y)))
      else (s, u)
  end.

(** The [tool === "select"] branch of [handleMouseUp]. *)
Definition handleMouseUp_select (u : ToolState) : ToolState :=
  if isMovingSelection u then set_isMovingSelection u false
  else if isSelecting u then
    let u1 := set_isSelecting u false in
    let rect := getSelectionRect u1 in
    if (1 <? Rect.width rect) || (1 <? Rect.height rect)
    then set_hasSelection u1 true else u1
  else u.

(** ** Lasso engine, continued *)

Definition clearLassoSelection (s : EditorState) : EditorState :=
  set_lassoBounds (set_lassoImageData (set_lassoMask (set_lassoPoints s []) None) None) None.


Definition deleteLassoSelection (s : EditorState) : EditorState :=
  match activeCtx s, lassoMask s, lassoBounds s with
  | Some cv, Some mask, Some bb =>
      let s1 := saveState s in
      let imageData := getImageData cv 0 0 (canvasWidth s) (canvasHeight s) in
      let cleared := clearMasked (canvasWidth s) mask bb imageData in
      let s2 := set_activeCanvas s1 (putImageData cv cleared 0 0) in
      compositeAndRender (clearLassoSelection s2)
  | _, _, _ => s
  end.


Definition isInsideLassoSelection (s : EditorState) (px py : Z) : bool :=
  match floatingSelection s with
  | Some f =>
      (Floating.x f <=? px) &&
      (px <? Floating.x f + ImageData.width (Floating.imageData f)) &&
      (Floating.y f <=? py) &&
      (py <? Floating.y f + ImageData.height (Floating.imageData f))
  | None =>
      match lassoMask s with
      | None => false
      | Some mask => maskAt mask px py
      end
  end.

(** The [tool === "lasso"] branch of [handleMouseDown]. *)
Definition handleMouseDown_lasso (s : EditorState) (u : ToolState) (x y : Z)
  : EditorState * ToolState :=
  let start_new :=
    let s1 := clearLassoSelection (commitFloatingSelection s) in
    (set_lassoPoints s1 [Point.mk x y], set_isLassoing u true) in
  match floatingSelection s with
  | Some f =>
      if isInsideLassoSelection s x y
      then (s, set_moving u true (x - Floating.x f) (y - Floating.y f))
      else start_new
  | None =>
      match lassoMask s with
      | Some mask =>
          if isInsideLassoSelection s x y then
            let s1 := moveLassoToFloating (extractLassoSelection s) in
            match floatingSelection s1 with
            | Some f => (s1, set_moving u true (x - Floating.x f) (y - Floating.y f))
            | None => (s1, set_isMovingSelection u true)
            end
          else start_new
      | None => start_new
      end
  end.

(** The [tool === "lasso"] branch of [handleMouseMove]; with no point
    captured yet the source throws on [lastPoint.x] and nothing changes. *)
Definition handleMouseMove_lasso (s : EditorState) (u : ToolState) (x y : Z)
  : EditorState :=
  match (if isMovingSelection u then floatingSelection s else None) with
  | Some f =>
      set_floatingSelection s
        (Some (Floating.mk (Floating.imageData f) (x - moveStartX u) (y - moveStartY u)))
  | None =>
      if isLassoing u then
        match last (lassoPoints s) with
        | Some lastPoint =>
            if negb (Point.x lastPoint =? x) || negb (Point.y lastPoint =? y)
            then set_lassoPoints s (lassoPoints s ++ [Point.mk x y])
            else s
        | None => s
        end
      else s
  end.

(** The [tool === "lasso"] branch of [handleMouseUp]. *)
Definition handleMouseUp_lasso (s : EditorState) (u : ToolState)
  : EditorState * ToolState :=
  if isMovingSelection u then (s, set_isMovingSelection u false)
  else if isLassoing u then
    (if 3 <=? Z.of_nat (length (lassoPoints s))
     then extractLassoSelection (createLassoMask s) else s,
     set_isLassoing u false)
  else (s, u).

End Editor2.

(** ** Canvas size *)

(** [applyCanvasSize(width, height)] up to its [requestAnimationFrame]: the
    new size is recorded and the history emptied at once; the pixels saved
    from the layers go to the callback. *)
Definition applyCanvasSize (s : EditorState) (width height : Z)
  : EditorState * list LayerState.t :=
  let layerImageData :=
    (λ layer, LayerState.mk (Layer.id layer)
       (getImageData (Layer.canvas layer) 0 0 (canvasWidth s) (canvasHeight s)))
    <$> layers s in
  (mkState width height (layers s) (activeLayerIndex s) (ctx s)
     (paintColor s) (paintOpacity s) (floatingSelection s) (lassoPoints s)
     (lassoMask s) (lassoImageData s) (lassoBounds s) [] [],
   layerImageData).

Section Resize.
Context `{Compositing}.

(** The callback [applyCanvasSize] hands to [requestAnimationFrame], run on
    the state [s] of the moment: setting the width and height of a layer's
    canvas clears it, then the saved pixels of the layer with the same id
    are written back. *)
Definition applyCanvasSize_frame (layerImageData : list LayerState.t)
    (width height : Z) (s : EditorState) : EditorState :=
  let resized :=
    (λ layer,
       let blank := ImageData.mk width height
                      (replicate (Z.to_nat (4 * width * height)) 0) in
       Layer.mk (Layer.id layer) (Layer.name layer)
         match List.find (λ d, String.eqb (LayerState.id d) (Layer.id layer))
                 layerImageData with
         | Some savedData => putImageData blank (LayerState.imageData savedData) 0 0
         | None => blank
         end
         (Layer.visible layer))
    <$> layers s in
  compositeAndRender (set_layers s resized).

End Resize.

(** ** Line rasterizer *)

(** The stepping loop of [drawLinePixels], the same in its two branches:
    the coordinates visited from [(x, y)] to [(x2, y2)], one per turn, in
    order. [None] means the fuel ran out before the end point was met. *)
Fixpoint lineLoop (fuel : nat) (x y x2 y2 dx dy sx sy err : Z) : option (list (Z * Z)) :=
  match fuel with
  | O => None
  | S fuel' =>
      if (x =? x2) && (y =? y2) then Some [(x, y)]
      else
        let e2 := 2 * err in
        let '(err1, x') := if - dy <? e2 then (err - dy, x + sx) else (err, x) in
        let '(err2, y') := if e2 <? dx then (err1 + dx, y + sy) else (err1, y) in
        match lineLoop fuel' x' y' x2 y2 dx dy sx sy err2 with
        | Some rest => Some ((x, y) :: rest)
        | None => None
        end
  end.

Definition lineSteps (fuel : nat) (x1 y1 x2 y2 : Z) : option (list (Z * Z)) :=
  let dx := Z.abs (x2 - x1) in
  let dy := Z.abs (y2 - y1) in
  let sx := if x1 <? x2 then 1 else -1 in
  let sy := if y1 <? y2 then 1 else -1 in
  lineLoop fuel x1 y1 x2 y2 dx dy sx sy (dx - dy).


(** Turns that always suffice for the stepping loop. *)
Definition lineFuel (x1 y1 x2 y2 : Z) : nat :=
  Z.to_nat (Z.abs (x2 - x1) + Z.abs (y2 - y1) + 1).

(** ** Translucent paint

    With [paintOpacity] at 100 the pixel and line tools draw with
    [fillRect] and the CSS color string; that branch is not part of the
    model, and [None] stands for it. Otherwise they blend through
    [blendPixel]. *)


Section Paint.
Context `{Compositing}.


End Paint.


(** ** Predicates for the properties of these parts *)

(** A color as a [Uint8ClampedArray] stores it. *)
Definition clampColor (c : Color.t) : Color.t :=
  Color.mk (toUint8Clamp (Color.r c)) (toUint8Clamp (Color.g c))
           (toUint8Clamp (Color.b c)) (toUint8Clamp (Color.a c)).

(** The coordinates two nested loops visit, the outer one over [ys]. *)
Definition grid (xs ys : list Z) : list (Z * Z) :=
  y ← ys; (λ x, (x, y)) <$> xs.

(** The line from [(x1, y1)] to [(x2, y2)] in closed form: one pixel for
    each step along the longer axis, the other coordinate that of the
    ideal line rounded to the nearest pixel, a tie going to the pixel
    nearer the start. *)
Definition nearestStep (long short i : Z) : Z := (2 * i * short + long - 1) `div` (2 * long).

Definition nearestLine (x1 y1 x2 y2 : Z) : list (Z * Z) :=
  let dx := Z.abs (x2 - x1) in
  let dy := Z.abs (y2 - y1) in
  let sx := if x1 <? x2 then 1 else -1 in
  let sy := if y1 <? y2 then 1 else -1 in
  (λ i, if dy <=? dx then (x1 + sx * i, y1 + sy * nearestStep dx dy i)
        else (x1 + sx * nearestStep dy dx i, y1 + sy * i))
    <$> seqZ 0 (Z.max dx dy + 1).

(** Two pixels that touch by a side or a corner. *)
Definition adjacent8 (p q : Z * Z) : Prop :=
  p <> q /\ Z.abs (q.1 - p.1) <= 1 /\ Z.abs (q.2 - p.2) <= 1.

(** Two pixels that touch by a side. *)
Definition neighbour4 (p q : Z * Z) : Prop :=
  (q.1 = p.1 + 1 /\ q.2 = p.2) \/ (q.1 = p.1 - 1 /\ q.2 = p.2) \/
  (q.1 = p.1 /\ q.2 = p.2 + 1) \/ (q.1 = p.1 /\ q.2 = p.2 - 1).

(** The pixels of [img] that a path of side-touching pixels of the seed's
    color joins to the seed. *)
Inductive region (img : ImageData.t) (W Ht : Z) (seed : Z * Z) : Z * Z -> Prop :=
  | region_seed : region img W Ht seed seed
  | region_step p q :
      region img W Ht seed p -> neighbour4 p q ->
      0 <= q.1 < W -> 0 <= q.2 < Ht ->
      getPixelColor img q.1 q.2 = getPixelColor img seed.1 seed.2 ->
      region img W Ht seed q.

(** The layers other than the active one are the same in both states, and
    the active one differs at most in its pixels. *)
Definition only_active_canvas_differs (s s' : EditorState) : Prop :=
  activeLayerIndex s' = activeLayerIndex s /\
  length (layers s') = length (layers s) /\
  (forall i l, i <> Z.to_nat (activeLayerIndex s) -> layers s !! i = Some l ->
     layers s' !! i = Some l) /\
  Forall2 same_layer (layers s') (layers s).

(** What holds of the buffer, the stack and the visited set at the start
    of every turn of the loop of [floodFill], [img0] being the buffer the
    loop started from. *)
Definition flood_invariant (W Ht : Z) (img0 : ImageData.t) (seed : Z * Z)
    (fillColor : Color.t) (img : ImageData.t) (stack : list (Z * Z))
    (visited : gset (Z * Z)) : Prop :=
  let targetColor := getPixelColor img0 seed.1 seed.2 in
  bitmap_ok W Ht img /\
  (forall p, p ∈ visited ->
     (0 <= p.1 < W /\ 0 <= p.2 < Ht) /\ region img0 W Ht seed p /\
     getPixelColor img p.1 p.2 = clampColor fillColor) /\
  (forall p, 0 <= p.1 < W -> 0 <= p.2 < Ht -> p ∉ visited ->
     getPixelColor img p.1 p.2 = getPixelColor img0 p.1 p.2) /\
  (forall q, q ∈ stack -> 0 <= q.1 < W -> 0 <= q.2 < Ht ->
     getPixelColor img0 q.1 q.2 = targetColor -> region img0 W Ht seed q) /\
  (forall p q, p ∈ visited -> neighbour4 p q ->
     q ∈ visited \/ q ∈ stack \/
     ~ (0 <= q.1 < W /\ 0 <= q.2 < Ht /\ getPixelColor img0 q.1 q.2 = targetColor)) /\
  (seed ∈ visited \/ seed ∈ stack).

(** The two history stacks together hold at most [MAX_UNDO_STEPS]
    snapshots. *)
Definition history_bounded (s : EditorState) : Prop :=
  Z.of_nat (length (undoStack s) + length (redoStack s)) <= MAX_UNDO_STEPS.

(** A pixel inside a rectangle. *)
Definition inRect (r : Rect.t) (x y : Z) : Prop :=
  Rect.x r <= x < Rect.x r + Rect.width r /\ Rect.y r <= y < Rect.y r + Rect.height r.

(** A drag with the selection tool: the button goes down at [(x0, y0)],
    the pointer passes through [moves], the button goes up. *)
Definition dragSelect `{Compositing} (s : EditorState) (u : ToolState) (x0 y0 : Z)
    (moves : list (Z * Z)) : EditorState * ToolState :=
  let '(s', u') :=
    fold_left (λ su p, handleMouseMove_select su.1 su.2 p.1 p.2) moves
      (handleMouseDown_select s u x0 y0) in
  (s', handleMouseUp_select u').

(** A pixel inside a bounding box, which has its corners inclusive. *)
Definition inBounds (bb : Bounds.t) (x y : Z) : Prop :=
  Bounds.minX bb <= x <= Bounds.maxX bb /\ Bounds.minY bb <= y <= Bounds.maxY bb.

(** A pixel the finalized lasso holds: inside the clamped bounding box of
    the points and inside their polygon. *)
Definition lassoed (s : EditorState) (x y : Z) : Prop :=
  inBounds (lassoBox (canvasWidth s) (canvasHeight s) (lassoPoints s)) x y /\
  pointInPolygon x y (lassoPoints s) = true.

(** A list without the repetitions of an element right after itself. *)
Fixpoint squeeze (prev : Z * Z) (l : list (Z * Z)) : list (Z * Z) :=
  match l with
  | [] => []
  | p :: l' => if bool_decide (p = prev) then squeeze prev l' else p :: squeeze p l'
  end.

(** A stroke with the lasso tool up to the release of the button. *)
Definition dragLasso `{Compositing} (s : EditorState) (u : ToolState) (x0 y0 : Z)
    (moves : list (Z * Z)) : EditorState * ToolState :=
  let '(s1, u1) := handleMouseDown_lasso s u x0 y0 in
  (fold_left (λ s' p, handleMouseMove_lasso s' u1 p.1 p.2) moves s1, u1).

(** A buffer as a [Uint8ClampedArray] holds it: every element a byte. *)
Definition bytes_ok (img : ImageData.t) : Prop := Forall byte_ok (ImageData.data img).


(** ** More documents for the concrete runs *)

(** A 3 by 3 layer: a red corner of three pixels at the top left, blue
    around it, two transparent pixels at the bottom and a lone red pixel in
    the bottom right corner. *)
Definition sketch_canvas : ImageData.t :=
  ImageData.mk 3 3
    [255; 0; 0; 255;   255; 0; 0; 255;   0; 0; 255; 255;
     255; 0; 0; 255;   0; 0; 255; 255;   0; 0; 255; 255;
     0; 0; 0; 0;       0; 0; 0; 0;       255; 0; 0; 255].

(** The one-layer document of that layer, with green paint at the given
    opacity. *)
Definition sketch (opacity : Z) : EditorState :=
  mkState 3 3 [Layer.mk "layer-1" "Layer 1" sketch_canvas true]
    0 (Some (ImageData.mk 3 3 (replicate 36 0)))
    "#00ff00" opacity None [] None None None [] [].

(** The selection tool at rest, and with the top-left 2 by 2 pixels
    marked. *)
Definition idle : ToolState := mkTool false 0 0 0 0 false None false 0 0 false.

Definition marked : ToolState := mkTool false 0 0 1 1 true None false 0 0 false.

(** The lasso tool in the middle of a stroke. *)
Definition lassoing : ToolState := mkTool false 0 0 0 0 false None false 0 0 true.

(** * Properties *)


(** ** Arrays *)

(** Case analysis on every integer comparison of the goal. *)
Ltac case_compare :=
  repeat match goal with
         | |- context [?x <=? ?y] => destruct (Z.leb_spec x y)
         | |- context [?x <? ?y] => destruct (Z.ltb_spec x y)
         end.


Lemma lookup_splice_remove {A} (l : list A) (k i : nat) :
  (k < length l)%nat ->
  (take k l ++ drop (S k) l) !! i = if decide (i < k)%nat then l !! i else l !! S i.
Proof.
  intros Hk. case_decide.
  - rewrite lookup_app_l by (rewrite length_take; lia).
    by rewrite lookup_take_lt.
  - rewrite lookup_app_r by (rewrite length_take; lia).
    rewrite length_take, lookup_drop. f_equal. lia.
Qed.

Lemma lookup_splice_insert {A} (l : list A) (k i : nat) (x : A) :
  (k <= length l)%nat ->
  (take k l ++ x :: drop k l) !! i =
    if decide (i < k)%nat then l !! i
    else if decide (i = k) then Some x else l !! pred i.
Proof.
  intros Hk. case_decide.
  - rewrite lookup_app_l by (rewrite length_take; lia).
    by rewrite lookup_take_lt.
  - rewrite lookup_app_r by (rewrite length_take; lia).
    rewrite length_take, Nat.min_l by lia.
    case_decide.
    + subst. by rewrite Nat.sub_diag.
    + destruct (i - k)%nat as [|m] eqn:E; [lia|]. simpl.
      rewrite lookup_drop. f_equal. lia.
Qed.

Lemma relativeStart_in_range (start len : Z) :
  0 <= start <= len -> relativeStart start len = Z.to_nat start.
Proof.
  intros Hs. unfold relativeStart.
  destruct (Z.ltb_spec start 0); [lia|]. f_equal. lia.
Qed.

Lemma filter_index_remove {A} (l : list A) (base index : Z) :
  filter_index (λ i, negb (i =? index)) base l =
    if decide (base <= index < base + Z.of_nat (length l))
    then take (Z.to_nat (index - base)) l ++ drop (S (Z.to_nat (index - base))) l
    else l.
Proof.
  revert base. induction l as [|x l IH]; intros base; simpl.
  - case_decide; [simpl in *; lia | done].
  - rewrite IH. destruct (Z.eqb_spec base index) as [->|Hne]; simpl.
    + rewrite decide_False by lia.
      rewrite decide_True by lia.
      by rewrite Z.sub_diag.
    + repeat case_decide; try lia; try done.
      replace (Z.to_nat (index - base)) with (S (Z.to_nat (index - (base + 1)))) by lia.
      done.
Qed.

(** ** What the compositor leaves alone *)

Section Frame.
Context `{Compositing}.

Lemma compositeAndRender_layers s : layers (compositeAndRender s) = layers s.
Proof. unfold compositeAndRender. by destruct (ctx s). Qed.

Lemma compositeAndRender_activeLayerIndex s :
  activeLayerIndex (compositeAndRender s) = activeLayerIndex s.
Proof. unfold compositeAndRender. by destruct (ctx s). Qed.

Lemma compositeAndRender_lasso s :
  lassoPoints (compositeAndRender s) = lassoPoints s /\
  lassoMask (compositeAndRender s) = lassoMask s /\
  lassoBounds (compositeAndRender s) = lassoBounds s /\
  lassoImageData (compositeAndRender s) = lassoImageData s /\
  floatingSelection (compositeAndRender s) = floatingSelection s.
Proof. unfold compositeAndRender. by destruct (ctx s). Qed.

Lemma compositeAndRender_history s :
  undoStack (compositeAndRender s) = undoStack s /\
  redoStack (compositeAndRender s) = redoStack s.
Proof. unfold compositeAndRender. by destruct (ctx s). Qed.

Lemma compositeAndRender_size s :
  canvasWidth (compositeAndRender s) = canvasWidth s /\
  canvasHeight (compositeAndRender s) = canvasHeight s.
Proof. unfold compositeAndRender. by destruct (ctx s). Qed.

End Frame.


(** ** Bitmaps *)

Lemma tabulate_length {A} n (f : Z -> A) : length (tabulate n f) = n.
Proof. unfold tabulate. by rewrite length_fmap, length_seq. Qed.

Lemma tabulate_lookup {A} n (f : Z -> A) (i : nat) :
  (i < n)%nat -> tabulate n f !! i = Some (f (Z.of_nat i)).
Proof.
  intros Hi. unfold tabulate.
  rewrite list_lookup_fmap, lookup_seq_lt by done. done.
Qed.

Lemma tabulate_ext {A} n (f g : Z -> A) :
  (forall i, 0 <= i < Z.of_nat n -> f i = g i) -> tabulate n f = tabulate n g.
Proof.
  intros Hfg. unfold tabulate. apply list_fmap_ext.
  intros i x Hx. apply lookup_seq in Hx as [-> Hlt]. apply Hfg. lia.
Qed.

Lemma byteAt_tabulate n f i :
  0 <= i < Z.of_nat n -> byteAt (tabulate n f) i = f i.
Proof.
  intros Hi. unfold byteAt, at_index.
  destruct (Z.leb_spec 0 i); [|lia].
  rewrite tabulate_lookup by lia. simpl. f_equal. lia.
Qed.

Lemma tabulate_byteAt (d : list Z) : tabulate (length d) (byteAt d) = d.
Proof.
  apply list_eq. intros i.
  destruct (decide (i < length d)%nat) as [Hi|Hi].
  - rewrite tabulate_lookup by done.
    destruct (lookup_lt_is_Some_2 d i Hi) as [v Hv].
    unfold byteAt, at_index. destruct (Z.leb_spec 0 (Z.of_nat i)); [|lia].
    by rewrite Nat2Z.id, Hv.
  - rewrite !lookup_ge_None_2; [done|lia|rewrite tabulate_length; lia].
Qed.

(** Where byte [i] of a [W]-wide buffer sits. *)
Lemma byte_position W Ht i :
  0 <= i < 4 * W * Ht -> 0 <= Ht ->
  let p := i `div` 4 in
  0 < W /\ 0 <= p `mod` W < W /\ 0 <= p `div` W < Ht /\
  (p `div` W * W + p `mod` W) * 4 + i `mod` 4 = i.
Proof.
  intros Hi HH p.
  assert (HW : 0 < W) by nia.
  assert (Hp : 0 <= p < W * Ht).
  { unfold p. split; [apply Z.div_pos; lia|].
    apply Z.div_lt_upper_bound; lia. }
  pose proof (Z.mod_pos_bound p W HW).
  pose proof (Z.div_mod p W ltac:(lia)).
  pose proof (Z.div_mod i 4 ltac:(lia)).
  assert (0 <= p `div` W) by (apply Z.div_pos; lia).
  assert (p `div` W < Ht) by (apply Z.div_lt_upper_bound; lia).
  fold p in H2. repeat split; lia.
Qed.


Lemma getImageData_whole W Ht cv :
  bitmap_ok W Ht cv -> getImageData cv 0 0 W Ht = cv.
Proof.
  intros (Hw & Hh & HW & HH & Hlen). destruct cv as [w h d]. simpl in *. subst w h.
  unfold getImageData. simpl. f_equal.
  transitivity (tabulate (length d) (byteAt d)); [|apply tabulate_byteAt].
  replace (Z.to_nat (4 * W * Ht)) with (length d) by lia.
  apply tabulate_ext. intros i Hi.
  destruct (byte_position W Ht i ltac:(lia) HH) as (HW' & Hx & Hy & Hidx).
  rewrite !Z.add_0_l.
  destruct (Z.leb_spec 0 ((i `div` 4) `mod` W)); [|lia].
  destruct (Z.ltb_spec ((i `div` 4) `mod` W) W); [|lia].
  destruct (Z.leb_spec 0 ((i `div` 4) `div` W)); [|lia].
  destruct (Z.ltb_spec ((i `div` 4) `div` W) Ht); [|lia].
  simpl. by rewrite Hidx.
Qed.

Lemma putImageData_whole W Ht cv img :
  bitmap_ok W Ht cv -> bitmap_ok W Ht img -> putImageData cv img 0 0 = img.
Proof.
  intros (Hw & Hh & HW & HH & Hlen) (Hw' & Hh' & _ & _ & Hlen').
  destruct cv as [w h d], img as [w' h' d']. simpl in *. subst w h w' h'.
  unfold putImageData. simpl. f_equal.
  transitivity (tabulate (length d') (byteAt d')); [|apply tabulate_byteAt].
  replace (length d) with (length d') by lia.
  apply tabulate_ext. intros i Hi.
  destruct (byte_position W Ht i ltac:(lia) HH) as (HW' & Hx & Hy & Hidx).
  rewrite !Z.add_0_l, !Z.sub_0_r.
  destruct (Z.leb_spec 0 ((i `div` 4) `mod` W)); [|lia].
  destruct (Z.ltb_spec ((i `div` 4) `mod` W) W); [|lia].
  destruct (Z.leb_spec 0 ((i `div` 4) `div` W)); [|lia].
  destruct (Z.ltb_spec ((i `div` 4) `div` W) Ht); [|lia].
  simpl. by rewrite Hidx.
Qed.

Lemma putImageData_shape cv img dx dy :
  ImageData.width (putImageData cv img dx dy) = ImageData.width cv /\
  ImageData.height (putImageData cv img dx dy) = ImageData.height cv /\
  length (ImageData.data (putImageData cv img dx dy)) = length (ImageData.data cv).
Proof. unfold putImageData. simpl. by rewrite tabulate_length. Qed.

Lemma putImageData_ok W Ht cv img dx dy :
  bitmap_ok W Ht cv -> bitmap_ok W Ht (putImageData cv img dx dy).
Proof.
  intros (Hw & Hh & HW & HH & Hlen).
  destruct (putImageData_shape cv img dx dy) as (Ew & Eh & El).
  unfold bitmap_ok. rewrite Ew, Eh, El. by repeat split.
Qed.


(** ** Layer stack *)

Section LayerStack.
Context `{Compositing}.

Lemma moveLayer_rejected s fromIndex toIndex :
  fromIndex = toIndex \/
  ~ (0 <= fromIndex < Z.of_nat (length (layers s))) \/
  ~ (0 <= toIndex < Z.of_nat (length (layers s))) ->
  moveLayer s fromIndex toIndex = s.
Proof.
  intros Hbad. unfold moveLayer.
  destruct (Z.eqb_spec fromIndex toIndex) as [|Hne]; [done|].
  destruct (Z.ltb_spec fromIndex 0), (Z.leb_spec (Z.of_nat (length (layers s))) fromIndex);
    simpl; try done.
  destruct (Z.ltb_spec toIndex 0), (Z.leb_spec (Z.of_nat (length (layers s))) toIndex);
    simpl; try done.
  exfalso. destruct Hbad as [?|[?|?]]; lia.
Qed.

(** The list and the index [moveLayer] computes once its guards pass. *)
Lemma moveLayer_accepted s fromIndex toIndex movedLayer :
  fromIndex <> toIndex ->
  0 <= fromIndex < Z.of_nat (length (layers s)) ->
  0 <= toIndex < Z.of_nat (length (layers s)) ->
  layers s !! Z.to_nat fromIndex = Some movedLayer ->
  let rest := take (Z.to_nat fromIndex) (layers s)
              ++ drop (S (Z.to_nat fromIndex)) (layers s) in
  let a := activeLayerIndex s in
  layers (moveLayer s fromIndex toIndex) =
    take (Z.to_nat toIndex) rest ++ movedLayer :: drop (Z.to_nat toIndex) rest /\
  activeLayerIndex (moveLayer s fromIndex toIndex) =
    if decide (a = fromIndex) then toIndex
    else if decide (fromIndex < a /\ a <= toIndex) then a - 1
    else if decide (a < fromIndex /\ toIndex <= a) then a + 1
    else a.
Proof.
  intros Hne Hf Ht Hm rest a. unfold moveLayer.
  destruct (Z.eqb_spec fromIndex toIndex); [done|].
  destruct (Z.ltb_spec fromIndex 0); [lia|].
  destruct (Z.leb_spec (Z.of_nat (length (layers s))) fromIndex); [lia|].
  destruct (Z.ltb_spec toIndex 0); [lia|].
  destruct (Z.leb_spec (Z.of_nat (length (layers s))) toIndex); [lia|].
  simpl. unfold splice_remove1.
  rewrite relativeStart_in_range by lia.
  rewrite (drop_S _ _ _ Hm). simpl. fold rest.
  assert (Hlen : length rest = (length (layers s) - 1)%nat).
  { unfold rest. rewrite length_app, length_take, length_drop. lia. }
  unfold splice_insert. rewrite relativeStart_in_range by lia.
  fold a.
  destruct (Z.eqb_spec a fromIndex).
  { rewrite decide_True by done.
    by rewrite compositeAndRender_layers, compositeAndRender_activeLayerIndex. }
  rewrite decide_False by done.
  destruct (Z.ltb_spec fromIndex a), (Z.leb_spec a toIndex),
    (Z.ltb_spec a fromIndex), (Z.leb_spec toIndex a); simpl; try lia;
    rewrite compositeAndRender_layers, compositeAndRender_activeLayerIndex;
    (split; [done|]); repeat case_decide; simpl; lia.
Qed.

End LayerStack.



Section LayerStackClaims.
Context `{Compositing}.

Lemma addLayer_spec s newId :
  0 <= activeLayerIndex s < Z.of_nat (length (layers s)) ->
  layers (addLayer s newId) =
    take (Z.to_nat (activeLayerIndex s + 1)) (layers s)
    ++ createLayer s newId :: drop (Z.to_nat (activeLayerIndex s + 1)) (layers s) /\
  activeLayerIndex (addLayer s newId) = activeLayerIndex s + 1.
Proof.
  intros Ha. unfold addLayer.
  rewrite compositeAndRender_layers, compositeAndRender_activeLayerIndex. simpl.
  unfold splice_insert. by rewrite relativeStart_in_range by lia.
Qed.

Lemma removeLayer_spec s index :
  (1 < length (layers s))%nat ->
  0 <= index < Z.of_nat (length (layers s)) ->
  layers (removeLayer s index) =
    take (Z.to_nat index) (layers s) ++ drop (S (Z.to_nat index)) (layers s) /\
  activeLayerIndex (removeLayer s index) =
    if decide (Z.of_nat (length (layers s)) - 1 <= activeLayerIndex s)
    then Z.of_nat (length (layers s)) - 2
    else if decide (index < activeLayerIndex s) then activeLayerIndex s - 1
    else activeLayerIndex s.
Proof.
  intros Hn Hi. unfold removeLayer.
  destruct (Z.leb_spec (Z.of_nat (length (layers s))) 1); [lia|].
  rewrite compositeAndRender_layers, compositeAndRender_activeLayerIndex.
  rewrite filter_index_remove, decide_True, Z.sub_0_r by lia.
  set (rest := take (Z.to_nat index) (layers s) ++ drop (S (Z.to_nat index)) (layers s)).
  assert (Hlen : length rest = (length (layers s) - 1)%nat).
  { unfold rest. rewrite length_app, length_take, length_drop. lia. }
  simpl. rewrite Hlen.
  destruct (Z.leb_spec (Z.of_nat (length (layers s) - 1)) (activeLayerIndex s)).
  - simpl. rewrite decide_True by lia. split; [done|lia].
  - rewrite decide_False by lia.
    destruct (Z.ltb_spec index (activeLayerIndex s)); simpl.
    + by rewrite decide_True.
    + by rewrite decide_False by lia.
Qed.

(** An index past the end names no layer: nothing is removed and the
    active index stays. *)
Lemma removeLayer_past_end s index :
  activeLayerIndex s < Z.of_nat (length (layers s)) ->
  Z.of_nat (length (layers s)) <= index ->
  layers (removeLayer s index) = layers s /\
  activeLayerIndex (removeLayer s index) = activeLayerIndex s.
Proof.
  intros Ha Hi. unfold removeLayer.
  destruct (Z.leb_spec (Z.of_nat (length (layers s))) 1); [done|].
  rewrite compositeAndRender_layers, compositeAndRender_activeLayerIndex.
  rewrite filter_index_remove, decide_False by lia. simpl.
  destruct (Z.leb_spec (Z.of_nat (length (layers s))) (activeLayerIndex s)); [lia|].
  destruct (Z.ltb_spec index (activeLayerIndex s)); [lia|]. done.
Qed.

Lemma moveLayer_length s fromIndex toIndex :
  length (layers (moveLayer s fromIndex toIndex)) = length (layers s).
Proof.
  destruct (decide (fromIndex <> toIndex /\
       0 <= fromIndex < Z.of_nat (length (layers s)) /\
       0 <= toIndex < Z.of_nat (length (layers s)))) as [(Hne & Hf & Ht)|Hbad].
  - destruct (lookup_lt_is_Some_2 (layers s) (Z.to_nat fromIndex)) as [m Hm]; [lia|].
    destruct (moveLayer_accepted s fromIndex toIndex m Hne Hf Ht Hm) as [-> _].
    rewrite length_app, length_take. simpl.
    rewrite length_drop, length_app, length_take, length_drop. lia.
  - rewrite moveLayer_rejected; [done|]. lia.
Qed.

Lemma moveLayer_activeLayerIndex_valid s fromIndex toIndex :
  0 <= activeLayerIndex s < Z.of_nat (length (layers s)) ->
  0 <= activeLayerIndex (moveLayer s fromIndex toIndex) < Z.of_nat (length (layers s)).
Proof.
  intros Ha.
  destruct (decide (fromIndex <> toIndex /\
       0 <= fromIndex < Z.of_nat (length (layers s)) /\
       0 <= toIndex < Z.of_nat (length (layers s)))) as [(Hne & Hf & Ht)|Hbad].
  - destruct (lookup_lt_is_Some_2 (layers s) (Z.to_nat fromIndex)) as [m Hm]; [lia|].
    destruct (moveLayer_accepted s fromIndex toIndex m Hne Hf Ht Hm) as [_ ->].
    repeat case_decide; lia.
  - rewrite moveLayer_rejected; [done|]. lia.
Qed.

(** C10: [moveLayer(from, to)] is a silent no-op, the whole editor state
    (the layer list and the active index with it) staying as it was,
    whenever [from] equals [to] or either index lies outside
    [0, layers.length). *)
Theorem moveLayer_invalid_is_noop (s : EditorState) (fromIndex toIndex : Z) :
  fromIndex = toIndex \/
  ~ (0 <= fromIndex < Z.of_nat (length (layers s))) \/
  ~ (0 <= toIndex < Z.of_nat (length (layers s))) ->
  moveLayer s fromIndex toIndex = s /\
  layers (moveLayer s fromIndex toIndex) = layers s /\
  activeLayerIndex (moveLayer s fromIndex toIndex) = activeLayerIndex s.
Proof.
  intros Hbad. by rewrite (moveLayer_rejected s fromIndex toIndex Hbad).
Qed.

(** C5: for distinct in-range [from] and [to] and an in-range active index,
    [moveLayer(from, to)] relocates the layer (it now sits at [to], the
    stack keeps its length) and the re-derived active index points at the
    very layer that was active before the move; the index is [to] when the
    active layer is the one moved, shifts by one when the move passes over
    it, and is unchanged otherwise. *)
Theorem moveLayer_follows_active_layer (s : EditorState) (fromIndex toIndex : Z) :
  0 <= fromIndex < Z.of_nat (length (layers s)) ->
  0 <= toIndex < Z.of_nat (length (layers s)) ->
  fromIndex <> toIndex ->
  0 <= activeLayerIndex s < Z.of_nat (length (layers s)) ->
  let s' := moveLayer s fromIndex toIndex in
  is_Some (at_index (layers s) (activeLayerIndex s)) /\
  at_index (layers s') (activeLayerIndex s') = at_index (layers s) (activeLayerIndex s) /\
  at_index (layers s') toIndex = at_index (layers s) fromIndex /\
  length (layers s') = length (layers s) /\
  activeLayerIndex s' =
    (let a := activeLayerIndex s in
     if decide (a = fromIndex) then toIndex
     else if decide (fromIndex < a /\ a <= toIndex) then a - 1
     else if decide (a < fromIndex /\ toIndex <= a) then a + 1
     else a).
Proof.
  intros Hf Ht Hne Ha s'.
  destruct (lookup_lt_is_Some_2 (layers s) (Z.to_nat fromIndex)) as [m Hm]; [lia|].
  destruct (moveLayer_accepted s fromIndex toIndex m Hne Hf Ht Hm) as [Hl Hi].
  fold s' in Hl, Hi.
  set (rest := take (Z.to_nat fromIndex) (layers s)
               ++ drop (S (Z.to_nat fromIndex)) (layers s)) in *.
  assert (Hlen : length rest = (length (layers s) - 1)%nat).
  { unfold rest. rewrite length_app, length_take, length_drop. lia. }
  assert (Hrest : forall i, rest !! i =
            if decide (i < Z.to_nat fromIndex)%nat then layers s !! i
            else layers s !! S i).
  { intros i. apply lookup_splice_remove. lia. }
  assert (Hnew : forall i, layers s' !! i =
            if decide (i < Z.to_nat toIndex)%nat then rest !! i
            else if decide (i = Z.to_nat toIndex) then Some m else rest !! pred i).
  { intros i. rewrite Hl. apply lookup_splice_insert. lia. }
  unfold at_index.
  destruct (Z.leb_spec 0 (activeLayerIndex s)); [|lia].
  destruct (Z.leb_spec 0 toIndex); [|lia].
  destruct (Z.leb_spec 0 fromIndex); [|lia].
  split; [apply lookup_lt_is_Some_2; lia|].
  split; [|split; [|split; [|exact Hi]]].
  - rewrite Hi. destruct (decide (activeLayerIndex s = fromIndex)) as [Heq|Hneq].
    { destruct (Z.leb_spec 0 toIndex); [|lia].
      rewrite Hnew, decide_False, decide_True by lia. by rewrite Heq, Hm. }
    repeat case_decide; case_compare; try lia; rewrite Hnew; repeat case_decide; try lia;
      rewrite Hrest; repeat case_decide; try lia; f_equal; lia.
  - rewrite Hnew, decide_False, decide_True by lia. by rewrite Hm.
  - rewrite Hl, length_app, length_take. simpl. rewrite length_drop. lia.
Qed.

(** C3: [addLayer], [removeLayer] (at an array index, that is a
    non-negative one) and [moveLayer] keep the stack at one layer or more
    and [activeLayerIndex] inside [0, layers.length); [removeLayer] on a
    single-layer stack is a rejected no-op; and when a layer is removed
    from a larger stack the active index is clamped to the last index if it
    pointed past the new end, is decremented if it pointed above the
    removed index, and is otherwise kept. *)
Theorem layer_mutations_keep_active_index_valid (s : EditorState) :
  stack_invariant s ->
  (forall newId, stack_invariant (addLayer s newId)) /\
  (forall index, 0 <= index -> stack_invariant (removeLayer s index)) /\
  (forall fromIndex toIndex, stack_invariant (moveLayer s fromIndex toIndex)) /\
  (forall index, length (layers s) = 1%nat -> removeLayer s index = s) /\
  (forall index, (1 < length (layers s))%nat ->
     0 <= index < Z.of_nat (length (layers s)) ->
     let n' := Z.of_nat (length (layers (removeLayer s index))) in
     n' = Z.of_nat (length (layers s)) - 1 /\
     activeLayerIndex (removeLayer s index) =
       if decide (n' <= activeLayerIndex s) then n' - 1
       else if decide (index < activeLayerIndex s) then activeLayerIndex s - 1
       else activeLayerIndex s).
Proof.
  intros [Hn Ha].
  assert (Hsingle : forall index, length (layers s) = 1%nat -> removeLayer s index = s).
  { intros index H1. unfold removeLayer. by rewrite H1. }
  assert (Hrem : forall index, (1 < length (layers s))%nat ->
     0 <= index < Z.of_nat (length (layers s)) ->
     Z.of_nat (length (layers (removeLayer s index))) = Z.of_nat (length (layers s)) - 1 /\
     activeLayerIndex (removeLayer s index) =
       if decide (Z.of_nat (length (layers s)) - 1 <= activeLayerIndex s)
       then Z.of_nat (length (layers s)) - 2
       else if decide (index < activeLayerIndex s) then activeLayerIndex s - 1
       else activeLayerIndex s).
  { intros index H1 Hi. destruct (removeLayer_spec s index H1 Hi) as [Hl Hx].
    split; [|done]. rewrite Hl, length_app, length_take, length_drop. lia. }
  repeat split.
  - destruct (addLayer_spec s newId Ha) as [-> _].
    rewrite length_app. simpl. lia.
  - destruct (addLayer_spec s newId Ha) as [_ ->]. lia.
  - destruct (addLayer_spec s newId Ha) as [-> ->].
    rewrite length_app, length_take. simpl. rewrite length_drop. lia.
  - destruct (decide (index < Z.of_nat (length (layers s)))) as [Hin|Hout].
    + destruct (decide (length (layers s) = 1%nat)) as [H1|H1];
        [by rewrite Hsingle|].
      destruct (Hrem index) as [Hl _]; [lia|lia|lia].
    + destruct (removeLayer_past_end s index) as [-> _]; [lia|lia|done].
  - destruct (decide (index < Z.of_nat (length (layers s)))) as [Hin|Hout].
    + destruct (decide (length (layers s) = 1%nat)) as [H1|H1];
        [rewrite Hsingle by done; lia|].
      destruct (Hrem index) as [_ ->]; [lia|lia|]. repeat case_decide; lia.
    + destruct (removeLayer_past_end s index) as [_ ->]; [lia|lia|lia].
  - destruct (decide (index < Z.of_nat (length (layers s)))) as [Hin|Hout].
    + destruct (decide (length (layers s) = 1%nat)) as [H1|H1];
        [rewrite Hsingle by done; lia|].
      destruct (Hrem index) as [-> ->]; [lia|lia|]. repeat case_decide; lia.
    + destruct (removeLayer_past_end s index) as [-> ->]; [lia|lia|lia].
  - rewrite moveLayer_length. lia.
  - pose proof (moveLayer_activeLayerIndex_valid s fromIndex toIndex Ha). lia.
  - rewrite moveLayer_length.
    pose proof (moveLayer_activeLayerIndex_valid s fromIndex toIndex Ha). lia.
  - done.
  - by destruct (Hrem index) as [-> _].
  - destruct (Hrem index) as [-> ->]; [done|done|].
    repeat case_decide; lia.
Qed.

End LayerStackClaims.


(** ** History *)



Lemma same_layer_all_refl (ls : list Layer.t) : Forall2 same_layer ls ls.
Proof. induction ls; constructor; done. Qed.

Lemma find_index_first {A} (p : A -> bool) (l : list A) (k : nat) (x : A) :
  l !! k = Some x -> p x = true ->
  (forall j y, (j < k)%nat -> l !! j = Some y -> p y = false) ->
  find_index p l = Some k.
Proof.
  revert k. induction l as [|z l IH]; intros k Hk Hp Hfirst; [done|].
  destruct k as [|k]; simpl in *.
  - injection Hk as ->. by rewrite Hp.
  - rewrite (Hfirst 0%nat z) by (done || lia).
    rewrite (IH k); [done|done|done|].
    intros j y Hj Hy. apply (Hfirst (S j)); [lia|done].
Qed.

Section History.
Context `{Compositing}.


Lemma restoreLayer_same W Ht ls st :
  Forall (λ l, bitmap_ok W Ht (Layer.canvas l)) ls ->
  Forall2 same_layer (restoreLayer ls st) ls /\
  Forall (λ l, bitmap_ok W Ht (Layer.canvas l)) (restoreLayer ls st).
Proof.
  intros Hok. unfold restoreLayer.
  destruct (find_index _ ls) as [k|]; [|split; [apply same_layer_all_refl|done]].
  split.
  - apply Forall2_same_length_lookup_2; [by rewrite length_alter|].
    intros i x y Hx Hy. destruct (decide (i = k)) as [->|Hne].
    + rewrite list_lookup_alter_eq, Hy in Hx. simpl in Hx. by injection Hx as <-.
    + rewrite list_lookup_alter_ne, Hy in Hx by done. by injection Hx as <-.
  - apply Forall_lookup_2. intros i x Hx. destruct (decide (i = k)) as [->|Hne].
    + rewrite list_lookup_alter_eq in Hx.
      destruct (ls !! k) as [l|] eqn:El; [|done]. simpl in Hx. injection Hx as <-.
      simpl. apply putImageData_ok. by apply (Forall_lookup_1 _ _ _ _ Hok El).
    + rewrite list_lookup_alter_ne in Hx by done.
      by apply (Forall_lookup_1 _ _ _ _ Hok Hx).
Qed.

Lemma same_layer_trans a b c : same_layer a b -> same_layer b c -> same_layer a c.
Proof. intros (?&?&?) (?&?&?). repeat split; congruence. Qed.

Lemma restore_all_same W Ht entries ls :
  Forall (λ l, bitmap_ok W Ht (Layer.canvas l)) ls ->
  Forall2 same_layer (fold_left restoreLayer entries ls) ls /\
  Forall (λ l, bitmap_ok W Ht (Layer.canvas l)) (fold_left restoreLayer entries ls).
Proof.
  revert ls. induction entries as [|st entries IH]; intros ls Hok; simpl.
  - split; [apply same_layer_all_refl|done].
  - destruct (restoreLayer_same W Ht ls st Hok) as [Hs Hok'].
    destruct (IH _ Hok') as [Hs' Hok'']. split; [|done].
    eapply Forall2_trans; [|exact Hs'|exact Hs].
    intros a b c. apply same_layer_trans.
Qed.

(** Restoring the snapshot of [orig] entry by entry into layers that
    differ from [orig] in their pixels only rebuilds [orig]. *)
Lemma restore_snapshot W Ht (pre suf cur : list Layer.t) :
  NoDup (Layer.id <$> pre ++ suf) ->
  Forall (λ l, bitmap_ok W Ht (Layer.canvas l)) (pre ++ suf) ->
  Forall (λ l, bitmap_ok W Ht (Layer.canvas l)) cur ->
  Forall2 same_layer cur (pre ++ suf) ->
  take (length pre) cur = pre ->
  fold_left restoreLayer
    ((λ layer, LayerState.mk (Layer.id layer)
                 (getImageData (Layer.canvas layer) 0 0 W Ht)) <$> suf) cur
  = pre ++ suf.
Proof.
  revert pre cur. induction suf as [|x suf IH]; intros pre cur Hnd Hok Hcur Hsame Hpre.
  - simpl. rewrite app_nil_r in *.
    transitivity (take (length pre) cur); [|done].
    symmetry. apply take_ge. apply Forall2_length in Hsame. lia.
  - simpl.
    assert (Hlen : length cur = length (pre ++ x :: suf)) by by apply Forall2_length in Hsame.
    rewrite length_app in Hlen. simpl in Hlen.
    destruct (lookup_lt_is_Some_2 cur (length pre)) as [c Hc]; [lia|].
    assert (Hx : (pre ++ x :: suf) !! length pre = Some x)
      by by rewrite lookup_app_r, Nat.sub_diag.
    destruct (Forall2_lookup_lr _ _ _ _ _ _ Hsame Hc Hx) as (Hid & Hname & Hvis).
    assert (Hfind : find_index (λ l, String.eqb (Layer.id l) (Layer.id x)) cur
                    = Some (length pre)).
    { apply (find_index_first _ _ _ c Hc); [by apply String.eqb_eq|].
      intros j y Hj Hy.
      destruct (lookup_lt_is_Some_2 (pre ++ x :: suf) j) as [o Ho];
        [rewrite length_app; simpl; lia|].
      destruct (Forall2_lookup_lr _ _ _ _ _ _ Hsame Hy Ho) as (Hidj & _).
      apply String.eqb_neq. rewrite Hidj. intros Heq.
      assert (j = length pre); [|lia].
      eapply (NoDup_lookup _ _ _ _ Hnd); rewrite list_lookup_fmap.
      - by rewrite Ho.
      - by rewrite Hx, Heq. }
    unfold restoreLayer at 2. simpl. rewrite Hfind.
    assert (Hcx : restored (LayerState.mk (Layer.id x)
                     (getImageData (Layer.canvas x) 0 0 W Ht)) c = x).
    { unfold restored. simpl.
      assert (Hokx : bitmap_ok W Ht (Layer.canvas x))
        by apply (Forall_lookup_1 _ _ _ _ Hok Hx).
      assert (Hokc : bitmap_ok W Ht (Layer.canvas c))
        by apply (Forall_lookup_1 _ _ _ _ Hcur Hc).
      rewrite (getImageData_whole W Ht _ Hokx).
      rewrite (putImageData_whole W Ht _ _ Hokc Hokx).
      destruct x. simpl in *. by subst. }
    set (cur' := alter _ (length pre) cur).
    assert (Hcur' : cur' = <[length pre := x]> cur).
    { unfold cur'. apply list_eq. intros i. destruct (decide (i = length pre)) as [->|Hne].
      - rewrite list_lookup_alter_eq, Hc, list_lookup_insert_eq by lia.
        simpl. f_equal. exact Hcx.
      - by rewrite list_lookup_alter_ne, list_lookup_insert_ne. }
    rewrite Hcur'.
    replace (pre ++ x :: suf) with ((pre ++ [x]) ++ suf) in * by by rewrite <- app_assoc.
    apply IH; try done.
    + apply Forall_lookup_2. intros i y Hy. destruct (decide (i = length pre)) as [->|Hne].
      * rewrite list_lookup_insert_eq in Hy by lia. injection Hy as <-.
        exact (Forall_lookup_1 _ _ _ _ Hok Hx).
      * rewrite list_lookup_insert_ne in Hy by done.
        by apply (Forall_lookup_1 _ _ _ _ Hcur Hy).
    + apply Forall2_same_length_lookup_2;
        [rewrite length_insert, !length_app; simpl; lia|].
      intros i a b Ha Hb. destruct (decide (i = length pre)) as [->|Hne].
      * rewrite list_lookup_insert_eq in Ha by lia. injection Ha as <-.
        rewrite Hx in Hb. by injection Hb as <-.
      * rewrite list_lookup_insert_ne in Ha by done.
        by apply (Forall2_lookup_lr _ _ _ _ _ _ Hsame Ha Hb).
    + rewrite length_app. simpl.
      rewrite Nat.add_1_r, (take_S_r _ _ x) by (rewrite list_lookup_insert_eq; [done|lia]).
      by rewrite take_insert_ge, Hpre by lia.
Qed.

End History.


Section HistoryClaims.
Context `{Compositing}.

Lemma undo_steps s previousState :
  last (undoStack s) = Some previousState ->
  length (layers s) <> 0%nat ->
  layers (undo s) =
    fold_left restoreLayer (HistoryState.layerStates previousState) (layers s) /\
  activeLayerIndex (undo s) = HistoryState.activeLayerIndex previousState /\
  redoStack (undo s) = redoStack s ++ [currentState s] /\
  undoStack (undo s) = slice_init (undoStack s) /\
  canvasWidth (undo s) = canvasWidth s /\ canvasHeight (undo s) = canvasHeight s.
Proof.
  intros Hlast Hlen. unfold undo. rewrite Hlast.
  rewrite bool_decide_eq_false_2 by done.
  rewrite compositeAndRender_layers, compositeAndRender_activeLayerIndex.
  destruct (compositeAndRender_history (restoreState
    (set_undoStack (set_redoStack s (redoStack s ++ [currentState s]))
       (slice_init (undoStack (set_redoStack s (redoStack s ++ [currentState s])))))
    previousState)) as [-> ->].
  destruct (compositeAndRender_size (restoreState
    (set_undoStack (set_redoStack s (redoStack s ++ [currentState s]))
       (slice_init (undoStack (set_redoStack s (redoStack s ++ [currentState s])))))
    previousState)) as [-> ->].
  done.
Qed.

Lemma redo_steps s nextState :
  last (redoStack s) = Some nextState ->
  length (layers s) <> 0%nat ->
  layers (redo s) =
    fold_left restoreLayer (HistoryState.layerStates nextState) (layers s) /\
  activeLayerIndex (redo s) = HistoryState.activeLayerIndex nextState /\
  undoStack (redo s) = undoStack s ++ [currentState s] /\
  redoStack (redo s) = slice_init (redoStack s).
Proof.
  intros Hlast Hlen. unfold redo. rewrite Hlast.
  rewrite bool_decide_eq_false_2 by done.
  rewrite compositeAndRender_layers, compositeAndRender_activeLayerIndex.
  destruct (compositeAndRender_history (restoreState
    (set_redoStack (set_undoStack s (undoStack s ++ [currentState s]))
       (slice_init (redoStack (set_undoStack s (undoStack s ++ [currentState s])))))
    nextState)) as [-> ->].
  done.
Qed.

(** C2: with a non-empty undo stack, [undo] followed by [redo] brings back
    the state the undo started from: the layer list is the same, every
    layer with the very bytes it had, and so is the active layer index.
    The layers are those of a document: each canvas has the document's
    size, and no two layers share an id. *)
Theorem undo_then_redo_restores_layers (s : EditorState) :
  undoStack s <> [] ->
  layers_sized s ->
  NoDup (Layer.id <$> layers s) ->
  layers (redo (undo s)) = layers s /\
  activeLayerIndex (redo (undo s)) = activeLayerIndex s.
Proof.
  intros Hundo Hsized Hnd.
  destruct (last (undoStack s)) as [previousState|] eqn:Hlast;
    [|by apply last_None in Hlast].
  destruct (decide (length (layers s) = 0%nat)) as [Hempty|Hne].
  { assert (Hu : undo s = s).
    { unfold undo. by rewrite Hlast, bool_decide_eq_true_2. }
    rewrite Hu. unfold redo. destruct (last (redoStack s)); [|done].
    by rewrite bool_decide_eq_true_2. }
  destruct (undo_steps s previousState Hlast Hne) as (Hl & Ha & Hr & Hu & HW & HH).
  destruct (restore_all_same (canvasWidth s) (canvasHeight s)
              (HistoryState.layerStates previousState) (layers s) Hsized)
    as [Hsame Hok].
  rewrite <- Hl in Hsame, Hok.
  assert (Hne' : length (layers (undo s)) <> 0%nat).
  { apply Forall2_length in Hsame. lia. }
  assert (Hlast' : last (redoStack (undo s)) = Some (currentState s)).
  { rewrite Hr. apply last_snoc. }
  destruct (redo_steps (undo s) (currentState s) Hlast' Hne') as (-> & -> & _).
  split; [|done]. simpl.
  apply (restore_snapshot (canvasWidth s) (canvasHeight s) [] (layers s)); try done.
Qed.

End HistoryClaims.


(** ** Fill engine *)



Lemma elem_of_cells W Ht x y :
  (x, y) ∈ cells W Ht <-> 0 <= x < W /\ 0 <= y < Ht.
Proof.
  unfold cells. rewrite list_elem_of_In, in_prod_iff, <- !list_elem_of_In.
  rewrite !elem_of_seqZ. lia.
Qed.

Lemma length_cells W Ht :
  0 <= W -> 0 <= Ht -> length (cells W Ht) = Z.to_nat (W * Ht).
Proof.
  intros HW HH. unfold cells. rewrite length_prod, !length_seqZ. lia.
Qed.

Lemma filter_unvisited_shrinks (c : Z * Z) (visited : gset (Z * Z)) (l : list (Z * Z)) :
  c ∈ l -> c ∉ visited ->
  (length (filter (λ c', c' ∉ {[c]} ∪ visited) l) <
   length (filter (λ c', c' ∉ visited) l))%nat.
Proof.
  intros Hin Hc.
  assert (Hle : forall l', (length (filter (λ c', c' ∉ {[c]} ∪ visited) l') <=
                       length (filter (λ c', c' ∉ visited) l'))%nat).
  { induction l' as [|z l' IH]; [done|].
    rewrite !filter_cons. repeat case_decide; simpl; try lia. set_solver. }
  induction l as [|z l IH]; [by apply elem_of_nil in Hin|].
  rewrite !filter_cons. apply elem_of_cons in Hin as [<-|Hin].
  - rewrite decide_False by set_solver. rewrite decide_True by done.
    simpl. specialize (Hle l). lia.
  - specialize (IH Hin). repeat case_decide; simpl; try lia. set_solver.
Qed.

Lemma pop_length {A} (l : list A) x l' : pop l = Some (x, l') -> length l = S (length l').
Proof.
  unfold pop. destruct (last l) as [y|] eqn:Hl; [|done].
  intros [= <- <-]. apply last_Some in Hl as [l0 ->].
  rewrite length_take, length_app. simpl. lia.
Qed.

(** Fuel that covers the measure is enough for the loop to finish. *)
Lemma floodLoop_enough_fuel W Ht targetColor fillColor fuel :
  forall imageData stack visited,
    (floodMeasure W Ht stack visited <= fuel)%nat ->
    is_Some (floodLoop fuel W Ht targetColor fillColor imageData stack visited).
Proof.
  induction fuel as [|fuel IH]; intros imageData stack visited Hm.
  - unfold floodMeasure in Hm. destruct stack; [|simpl in Hm; lia].
    simpl. by eexists.
  - simpl. destruct (pop stack) as [[[x y] stack']|] eqn:Hpop; [|by eexists].
    apply pop_length in Hpop. unfold floodMeasure in *.
    case_bool_decide; [apply IH; lia|].
    destruct ((x <? 0) || (W <=? x) || (y <? 0) || (Ht <=? y)) eqn:Hout;
      [apply IH; lia|].
    destruct (negb _); [apply IH; lia|].
    apply IH. rewrite length_app. simpl.
    assert (Hin : (x, y) ∈ cells W Ht).
    { apply elem_of_cells.
      destruct (Z.ltb_spec x 0), (Z.leb_spec W x), (Z.ltb_spec y 0), (Z.leb_spec Ht y);
        simpl in Hout; try discriminate; lia. }
    pose proof (filter_unvisited_shrinks (x, y) visited (cells W Ht) Hin ltac:(done)).
    lia.
Qed.

(** More fuel never changes the outcome of a finished loop. *)
Lemma floodLoop_fuel_mono W Ht targetColor fillColor fuel :
  forall fuel' imageData stack visited filled,
    (fuel <= fuel')%nat ->
    floodLoop fuel W Ht targetColor fillColor imageData stack visited = Some filled ->
    floodLoop fuel' W Ht targetColor fillColor imageData stack visited = Some filled.
Proof.
  induction fuel as [|fuel IH]; intros fuel' imageData stack visited filled Hle.
  - simpl. destruct (pop stack) as [[[x y] stack']|] eqn:Hpop; [done|].
    intros [= <-]. destruct fuel'; simpl; by rewrite Hpop.
  - destruct fuel' as [|fuel']; [lia|]. simpl.
    destruct (pop stack) as [[[x y] stack']|]; [|done].
    case_bool_decide; [apply IH; lia|].
    destruct (_ || _); [apply IH; lia|].
    destruct (negb _); apply IH; lia.
Qed.

Lemma floodMeasure_start W Ht sx sy :
  0 <= W -> 0 <= Ht -> (floodMeasure W Ht [(sx, sy)] ∅ <= floodFuel W Ht)%nat.
Proof.
  intros HW HH. unfold floodMeasure, floodFuel.
  set (n := length (filter _ (cells W Ht))).
  assert (Hf : (n <= length (cells W Ht))%nat) by apply length_filter.
  rewrite length_cells in Hf by done.
  assert (0 <= W * Ht) by by apply Z.mul_nonneg_nonneg.
  replace (4 * W * Ht + 1) with (4 * (W * Ht) + 1) by lia.
  change (length [(sx, sy)]) with 1%nat. lia.
Qed.


Section FillClaims.
Context `{Compositing}.

Lemma saveState_layers s : layers (saveState s) = layers s.
Proof. unfold saveState. by case_bool_decide. Qed.

Lemma saveState_pushes s :
  layers s <> [] ->
  undoStack (saveState s) =
    slice_from (undoStack s) (- (MAX_UNDO_STEPS - 1)) ++ [currentState s] /\
  redoStack (saveState s) = [].
Proof.
  intros Hne. unfold saveState. rewrite bool_decide_eq_false_2; [done|].
  by destruct (layers s).
Qed.

Lemma activeCtx_layers s cv : activeCtx s = Some cv -> layers s <> [].
Proof.
  unfold activeCtx, at_index. intros Hcv Hnil. rewrite Hnil in Hcv.
  by destruct (0 <=? activeLayerIndex s).
Qed.

(** The early return of [floodFill]: when the seed already has the paint
    color the loop is skipped and the bitmap is not written, but
    [saveState] has run by then. *)
Lemma floodFill_matching_seed s cv startX startY fuel :
  activeCtx s = Some cv ->
  0 <= startX < canvasWidth s -> 0 <= startY < canvasHeight s ->
  colorsMatch
    (getPixelColor (getImageData cv 0 0 (canvasWidth s) (canvasHeight s)) startX startY)
    (hexToRgba (paintColor s) (paintOpacity s)) 0 = true ->
  floodFill fuel s startX startY = Some (saveState s).
Proof.
  intros Hcv Hx Hy Hmatch. unfold floodFill. rewrite Hcv.
  destruct (Z.ltb_spec startX 0), (Z.leb_spec (canvasWidth s) startX),
    (Z.ltb_spec startY 0), (Z.leb_spec (canvasHeight s) startY); try lia.
  simpl. by rewrite Hmatch.
Qed.

(** What that early return leaves behind: the layers as they were, a
    fresh snapshot on the undo stack and no redo. *)
Lemma floodFill_matching_seed_history s cv startX startY fuel :
  activeCtx s = Some cv ->
  0 <= startX < canvasWidth s -> 0 <= startY < canvasHeight s ->
  colorsMatch
    (getPixelColor (getImageData cv 0 0 (canvasWidth s) (canvasHeight s)) startX startY)
    (hexToRgba (paintColor s) (paintOpacity s)) 0 = true ->
  exists s', floodFill fuel s startX startY = Some s' /\
    layers s' = layers s /\
    undoStack s' =
      slice_from (undoStack s) (- (MAX_UNDO_STEPS - 1)) ++ [currentState s] /\
    redoStack s' = [].
Proof.
  intros Hcv Hx Hy Hmatch. exists (saveState s).
  split; [by apply (floodFill_matching_seed s cv)|].
  split; [apply saveState_layers|].
  apply saveState_pushes. by apply (activeCtx_layers s cv).
Qed.

(** C9: the stack-based flood fill terminates for every in-bounds seed on
    every [W] by [H] buffer with [1 <= W, H <= 2048]: [4 * W * H + 1] turns
    of the loop always suffice, since a turn either only pops, or marks a
    cell that was not yet visited and pushes its four neighbours; and the
    result does not depend on how much more fuel is given. *)
Theorem floodFill_terminates (s : EditorState) (startX startY : Z) :
  1 <= canvasWidth s <= 2048 ->
  1 <= canvasHeight s <= 2048 ->
  0 <= startX < canvasWidth s ->
  0 <= startY < canvasHeight s ->
  exists s', forall fuel,
    (floodFuel (canvasWidth s) (canvasHeight s) <= fuel)%nat ->
    floodFill fuel s startX startY = Some s'.
Proof.
  intros HW HH Hx Hy. unfold floodFill.
  destruct (activeCtx s) as [cv|]; [|by eexists].
  destruct (_ || _); [by eexists|].
  destruct (colorsMatch _ _ 0); [by eexists|].
  set (imageData := getImageData cv 0 0 (canvasWidth s) (canvasHeight s)).
  set (targetColor := getPixelColor imageData startX startY).
  set (fillColor := hexToRgba (paintColor s) (paintOpacity s)).
  destruct (floodLoop_enough_fuel (canvasWidth s) (canvasHeight s) targetColor fillColor
              (floodFuel (canvasWidth s) (canvasHeight s)) imageData
              [(startX, startY)] ∅) as [filled Hfilled].
  { apply floodMeasure_start; lia. }
  eexists. intros fuel Hfuel.
  by rewrite (floodLoop_fuel_mono _ _ _ _ _ fuel _ _ _ filled Hfuel Hfilled).
Qed.

End FillClaims.





Lemma polygonEdges_length polygon : length (polygonEdges polygon) = length polygon.
Proof.
  unfold polygonEdges. destruct (last polygon) eqn:Hl.
  - rewrite length_zip_with. simpl. lia.
  - apply last_None in Hl. by subst.
Qed.

Lemma polygonEdges_lookup polygon i pi :
  polygon !! i = Some pi ->
  exists pj, polygon !! (if decide (i = 0%nat) then (length polygon - 1)%nat else pred i)
             = Some pj /\
             polygonEdges polygon !! i = Some (pi, pj).
Proof.
  intros Hi. unfold polygonEdges.
  destruct (last polygon) as [pl|] eqn:Hl;
    [|apply last_None in Hl; by subst].
  assert (Hpj : exists pj, (pl :: polygon) !! i = Some pj /\
     polygon !! (if decide (i = 0%nat) then (length polygon - 1)%nat else pred i)
       = Some pj).
  { destruct i as [|i]; simpl.
    - exists pl. split; [done|]. rewrite last_lookup in Hl.
      by replace (length polygon - 1)%nat with (pred (length polygon)) by lia.
    - apply lookup_lt_Some in Hi.
      destruct (lookup_lt_is_Some_2 polygon i) as [pj Hpj]; [lia|]. by exists pj. }
  destruct Hpj as (pj & Hpj & Hprev). exists pj. split; [done|].
  rewrite lookup_zip_with, Hi. simpl. by rewrite Hpj.
Qed.

(** The loop of [pointInPolygon] after its first [m] turns. *)
Lemma pointInPolygon_turns x y polygon m :
  (m <= length polygon)%nat ->
  fold_left
    (λ '(inside, j) i,
       match polygon !! i, polygon !! j with
       | Some pi, Some pj =>
           if rayCrosses x y pi pj then (negb inside, i) else (inside, i)
       | _, _ => (inside, i)
       end)
    (seq 0 m) (false, (length polygon - 1)%nat)
  = (Nat.odd (length (filter (λ e, rayCrosses x y e.1 e.2 = true)
                        (take m (polygonEdges polygon)))),
     if decide (m = 0%nat) then (length polygon - 1)%nat else pred m).
Proof.
  induction m as [|m IH]; intros Hm; [done|].
  rewrite seq_S, fold_left_app, IH by lia. simpl.
  destruct (lookup_lt_is_Some_2 polygon m) as [pi Hpi]; [lia|].
  destruct (polygonEdges_lookup polygon m pi Hpi) as (pj & Hpj & He).
  rewrite Hpi, Hpj, (take_S_r _ _ _ He), filter_app, length_app.
  rewrite filter_cons, filter_nil. simpl.
  destruct (rayCrosses x y pi pj).
  - rewrite decide_True by done. simpl.
    by rewrite Nat.add_1_r, Nat.odd_succ, <- Nat.negb_odd.
  - rewrite decide_False by done. simpl. by rewrite Nat.add_0_r.
Qed.

(** [pointInPolygon] is the even-odd rule. *)
Lemma pointInPolygon_even_odd x y polygon :
  pointInPolygon x y polygon = evenOddInside x y polygon.
Proof.
  unfold pointInPolygon, evenOddInside.
  rewrite pointInPolygon_turns by done. simpl.
  by rewrite take_ge by (rewrite polygonEdges_length; lia).
Qed.

Lemma at_index_tabulate {A} n (f : Z -> A) i :
  at_index (tabulate n f) i = if decide (0 <= i < Z.of_nat n) then Some (f i) else None.
Proof.
  unfold at_index. destruct (Z.leb_spec 0 i).
  - case_decide.
    + rewrite tabulate_lookup by lia. f_equal. f_equal. lia.
    + apply lookup_ge_None_2. rewrite tabulate_length. lia.
  - by rewrite decide_False by lia.
Qed.

(** C6: the mask [createLassoMask] builds has, at every pixel of the
    canvas, the value of the even-odd ray-casting rule if the pixel lies in
    the clamped bounding box of the points and [false] otherwise; for the
    triangle (0,0), (10,0), (0,10) the mask is true at (1,1) and false at
    (9,9). *)
Theorem lassoMask_even_odd_in_clamped_box (s : EditorState) :
  3 <= Z.of_nat (length (lassoPoints s)) ->
  let bb := lassoBox (canvasWidth s) (canvasHeight s) (lassoPoints s) in
  lassoBounds (createLassoMask s) = Some bb /\
  exists mask, lassoMask (createLassoMask s) = Some mask /\
    (forall x y, 0 <= x < canvasWidth s -> 0 <= y < canvasHeight s ->
       at_index mask y ≫= (λ row, at_index row x) =
         Some (if decide (Bounds.minX bb <= x <= Bounds.maxX bb /\
                          Bounds.minY bb <= y <= Bounds.maxY bb)
               then evenOddInside x y (lassoPoints s) else false)) /\
    (lassoPoints s = triangle -> 2 <= canvasWidth s -> 2 <= canvasHeight s ->
       maskAt mask 1 1 = true /\ maskAt mask 9 9 = false).
Proof.
  intros Hn bb. unfold createLassoMask.
  destruct (Z.ltb_spec (Z.of_nat (length (lassoPoints s))) 3); [lia|].
  fold bb. split; [done|]. eexists. split; [done|].
  assert (Hbox : bb = lassoBox (canvasWidth s) (canvasHeight s) (lassoPoints s)) by done.
  clearbody bb.
  assert (Hcell : forall x y, 0 <= x < canvasWidth s -> 0 <= y < canvasHeight s ->
    at_index
      (tabulate (Z.to_nat (canvasHeight s)) (λ y0,
         tabulate (Z.to_nat (canvasWidth s)) (λ x0,
           if (Bounds.minX bb <=? x0) && (x0 <=? Bounds.maxX bb) &&
              (Bounds.minY bb <=? y0) && (y0 <=? Bounds.maxY bb)
           then pointInPolygon x0 y0 (lassoPoints s) else false))) y
      ≫= (λ row, at_index row x) =
    Some (if decide (Bounds.minX bb <= x <= Bounds.maxX bb /\
                     Bounds.minY bb <= y <= Bounds.maxY bb)
          then evenOddInside x y (lassoPoints s) else false)).
  { intros x y Hx Hy.
    rewrite at_index_tabulate, decide_True by lia. simpl.
    rewrite at_index_tabulate, decide_True by lia. f_equal.
    rewrite pointInPolygon_even_odd.
    destruct (Z.leb_spec (Bounds.minX bb) x), (Z.leb_spec x (Bounds.maxX bb)),
      (Z.leb_spec (Bounds.minY bb) y), (Z.leb_spec y (Bounds.maxY bb));
      cbn [andb]; case_decide; (done || (exfalso; lia)). }
  split; [exact Hcell|].
  intros Htri HW HH.
  assert (Hbb : bb = Bounds.mk 0 0 (Z.min (canvasWidth s - 1) 10)
                                   (Z.min (canvasHeight s - 1) 10)).
  { rewrite Hbox, Htri. unfold lassoBox, triangle. simpl. f_equal; lia. }
  split.
  - unfold maskAt.
    pose proof (Hcell 1 1 ltac:(lia) ltac:(lia)) as H11.
    destruct (at_index _ 1) as [row|]; [|done]. simpl in H11. rewrite H11.
    rewrite Hbb. simpl. rewrite decide_True by lia.
    rewrite Htri. by vm_compute.
  - unfold maskAt.
    destruct (decide (9 < canvasWidth s /\ 9 < canvasHeight s)) as [[? ?]|Hout].
    + pose proof (Hcell 9 9 ltac:(lia) ltac:(lia)) as H99.
      destruct (at_index _ 9) as [row|]; [|done]. simpl in H99. rewrite H99.
      rewrite Hbb. simpl. rewrite decide_True by lia.
      rewrite Htri. by vm_compute.
    + rewrite at_index_tabulate. case_decide; [|done].
      rewrite at_index_tabulate, decide_False by lia. done.
Qed.


(** ** Lasso engine *)

Section LassoClaims.
Context `{Compositing}.

(** C7 (as the code has it): for a finalized lasso (mask, bounds and
    extracted pixels present) on an active layer, [moveLassoToFloating]
    creates the floating selection from the extracted pixels, placed at the
    top-left of the bounding box, and clears the lasso's mask, bounds and
    extracted image; the point list is kept. *)
Theorem moveLassoToFloating_keeps_points (s : EditorState)
    (cv : ImageData.t) (mask : list (list bool)) (bb : Bounds.t)
    (extracted : ImageData.t) :
  activeCtx s = Some cv ->
  lassoMask s = Some mask ->
  lassoBounds s = Some bb ->
  lassoImageData s = Some extracted ->
  let s' := moveLassoToFloating s in
  floatingSelection s' =
    Some (Floating.mk extracted (Bounds.minX bb) (Bounds.minY bb)) /\
  lassoMask s' = None /\ lassoBounds s' = None /\ lassoImageData s' = None /\
  lassoPoints s' = lassoPoints s.
Proof.
  intros Hcv Hmask Hbb Hex s'. unfold s', moveLassoToFloating.
  rewrite Hcv, Hmask, Hbb, Hex.
  match goal with |- context [compositeAndRender ?t] =>
    destruct (compositeAndRender_lasso t) as (-> & -> & -> & -> & ->) end.
  simpl. unfold saveState. destruct extracted. by case_bool_decide.
Qed.

End LassoClaims.


(** ** Compositor *)



Lemma pixel_bytes W x y k :
  0 <= x < W -> 0 <= y -> 0 <= k < 4 ->
  let i := (y * W + x) * 4 + k in
  i `div` 4 = y * W + x /\ i `mod` 4 = k /\
  (i `div` 4) `mod` W = x /\ (i `div` 4) `div` W = y.
Proof.
  intros Hx Hy Hk i.
  assert (Hd : i `div` 4 = y * W + x).
  { symmetry. apply (Z.div_unique i 4 (y * W + x) k); lia. }
  assert (Hm : i `mod` 4 = k).
  { symmetry. apply (Z.mod_unique i 4 (y * W + x) k); lia. }
  rewrite Hd. repeat split; try done.
  - symmetry. apply (Z.mod_unique (y * W + x) W y x); lia.
  - symmetry. apply (Z.div_unique (y * W + x) W y x); lia.
Qed.

Lemma pixel_in_buffer W Ht x y k :
  0 <= x < W -> 0 <= y < Ht -> 0 <= k < 4 ->
  0 <= (y * W + x) * 4 + k < 4 * W * Ht.
Proof. intros. nia. Qed.

(** A pixel of a buffer given byte by byte. *)
Lemma getPixelColor_tabulate W Ht n f x y :
  Z.of_nat n = 4 * W * Ht -> 0 <= x < W -> 0 <= y < Ht ->
  getPixelColor (ImageData.mk W Ht (tabulate n f)) x y =
    let i := (y * W + x) * 4 in Color.mk (f i) (f (i + 1)) (f (i + 2)) (f (i + 3)).
Proof.
  intros Hn Hx Hy. unfold getPixelColor. simpl.
  pose proof (pixel_in_buffer W Ht x y 0 Hx Hy ltac:(lia)).
  pose proof (pixel_in_buffer W Ht x y 3 Hx Hy ltac:(lia)).
  by rewrite !byteAt_tabulate by lia.
Qed.

Lemma color_of_channels c :
  Color.mk (channel c 0) (channel c 1) (channel c 2) (channel c 3) = c.
Proof. by destruct c. Qed.

Lemma clearRect_pixel W Ht cv x y :
  bitmap_ok W Ht cv -> 0 <= x < W -> 0 <= y < Ht ->
  getPixelColor (clearRect cv W Ht) x y = transparentBlack.
Proof.
  intros (Hw & Hh & HW & HH & Hlen) Hx Hy. unfold clearRect. rewrite Hw, Hh.
  rewrite (getPixelColor_tabulate W Ht) by done. cbv zeta.
  assert (Hb : forall k, 0 <= k < 4 ->
    (let i := (y * W + x) * 4 + k in
     if ((i `div` 4) `mod` W <? W) && ((i `div` 4) `div` W <? Ht)
     then 0 else byteAt (ImageData.data cv) i) = 0).
  { intros k Hk. cbv zeta.
    destruct (pixel_bytes W x y k Hx ltac:(lia) Hk) as (_ & _ & -> & ->).
    destruct (Z.ltb_spec x W), (Z.ltb_spec y Ht); (done || lia). }
  pose proof (Hb 0 ltac:(lia)) as H0. pose proof (Hb 1 ltac:(lia)) as H1.
  pose proof (Hb 2 ltac:(lia)) as H2. pose proof (Hb 3 ltac:(lia)) as H3.
  cbv zeta in H0, H1, H2, H3. rewrite Z.add_0_r in H0.
  by rewrite H0, H1, H2, H3.
Qed.

Lemma clearRect_ok W Ht cv w h : bitmap_ok W Ht cv -> bitmap_ok W Ht (clearRect cv w h).
Proof.
  intros (Hw & Hh & HW & HH & Hlen). unfold bitmap_ok, clearRect. simpl.
  by rewrite tabulate_length.
Qed.

Section CompositorLemmas.
Context `{Compositing}.

Lemma drawImage_ok W Ht cv src : bitmap_ok W Ht cv -> bitmap_ok W Ht (drawImage cv src).
Proof.
  intros (Hw & Hh & HW & HH & Hlen). unfold bitmap_ok, drawImage. simpl.
  by rewrite tabulate_length.
Qed.

Lemma drawImage_pixel W Ht cv src x y :
  bitmap_ok W Ht cv -> bitmap_ok W Ht src -> 0 <= x < W -> 0 <= y < Ht ->
  getPixelColor (drawImage cv src) x y =
    drawImagePixel (getPixelColor cv x y) (getPixelColor src x y).
Proof.
  intros (Hw & Hh & HW & HH & Hlen) (Hw' & Hh' & _ & _ & Hlen') Hx Hy.
  unfold drawImage. rewrite Hw, Hh, Hw', Hh'.
  rewrite (getPixelColor_tabulate W Ht) by done. cbv zeta.
  set (c := drawImagePixel (getPixelColor cv x y) (getPixelColor src x y)).
  assert (Hb : forall k, 0 <= k < 4 ->
    (let i := (y * W + x) * 4 + k in
     if ((i `div` 4) `mod` W <? W) && ((i `div` 4) `div` W <? Ht)
     then channel (drawImagePixel
                     (getPixelColor cv ((i `div` 4) `mod` W) ((i `div` 4) `div` W))
                     (getPixelColor src ((i `div` 4) `mod` W) ((i `div` 4) `div` W)))
            (i `mod` 4)
     else byteAt (ImageData.data cv) i) = channel c k).
  { intros k Hk. cbv zeta.
    destruct (pixel_bytes W x y k Hx ltac:(lia) Hk) as (_ & -> & -> & ->).
    destruct (Z.ltb_spec x W), (Z.ltb_spec y Ht); (done || lia). }
  pose proof (Hb 0 ltac:(lia)) as H0. pose proof (Hb 1 ltac:(lia)) as H1.
  pose proof (Hb 2 ltac:(lia)) as H2. pose proof (Hb 3 ltac:(lia)) as H3.
  cbv zeta in H0, H1, H2, H3. rewrite Z.add_0_r in H0.
  rewrite H0, H1, H2, H3. apply color_of_channels.
Qed.

(** The loop of [compositeAndRender], seen at one pixel. *)
Lemma composite_loop_pixel W Ht ls x y :
  Forall (λ l, bitmap_ok W Ht (Layer.canvas l)) ls ->
  0 <= x < W -> 0 <= y < Ht ->
  forall acc, bitmap_ok W Ht acc ->
    getPixelColor
      (fold_left (λ acc layer, if Layer.visible layer
                               then drawImage acc (Layer.canvas layer) else acc)
         ls acc) x y
    = fold_left drawImagePixel
        ((λ l, getPixelColor (Layer.canvas l) x y)
           <$> filter (λ l, Layer.visible l = true) ls)
        (getPixelColor acc x y).
Proof.
  intros Hls Hx Hy. induction Hls as [|l ls Hl Hls IH]; intros acc Hacc; [done|].
  simpl. rewrite filter_cons. destruct (Layer.visible l) eqn:Hv.
  - rewrite decide_True by done. simpl.
    rewrite IH by by apply drawImage_ok.
    by rewrite (drawImage_pixel W Ht).
  - rewrite decide_False by done. by apply IH.
Qed.

(** Source-over on colors that are each fully opaque or fully
    transparent. *)
Lemma sourceOver_transparent_run (cs : list Color.t) (c : Color.t) :
  Forall (λ c', Color.a c' = 0) cs -> fold_left drawImagePixel cs c = c.
Proof.
  intros Hcs. revert c. induction Hcs as [|c' cs Hc' _ IH]; intros c; [done|].
  simpl. unfold drawImagePixel at 2. rewrite Hc'. simpl. apply IH.
Qed.

Lemma sourceOver_opaque_on_top (below above : list Color.t) (top c : Color.t) :
  Color.a top = 255 -> Forall (λ c', Color.a c' = 0) above ->
  fold_left drawImagePixel (below ++ top :: above) c = top.
Proof.
  intros Htop Habove. rewrite fold_left_app. simpl.
  rewrite sourceOver_transparent_run by done.
  unfold drawImagePixel. by rewrite Htop.
Qed.

End CompositorLemmas.

Section CompositorClaims.
Context `{Compositing}.

(** C4 (as the code has it): compositing clears the display and draws the
    visible layers back to front with [drawImage], which composites
    source-over and does not overwrite. At every pixel the displayed color
    is the source-over fold of the visible layers' colors over transparent
    black: a fully transparent layer pixel lets what is below show, a fully
    opaque one replaces it. So the display shows the topmost visible layer
    that is not fully transparent there when that layer is opaque there,
    and transparent black when every visible layer is transparent there. *)
Theorem composite_is_source_over (s : EditorState) (display : ImageData.t) (x y : Z) :
  ctx s = Some display ->
  bitmap_ok (canvasWidth s) (canvasHeight s) display ->
  layers_sized s ->
  0 <= x < canvasWidth s -> 0 <= y < canvasHeight s ->
  exists display', ctx (compositeAndRender s) = Some display' /\
    let shown := getPixelColor display' x y in
    shown = fold_left drawImagePixel (visiblePixels s x y) transparentBlack /\
    (forall below top above,
       visiblePixels s x y = below ++ top :: above ->
       Color.a top = 255 -> Forall (λ c, Color.a c = 0) above ->
       shown = top) /\
    (Forall (λ c, Color.a c = 0) (visiblePixels s x y) -> shown = transparentBlack).
Proof.
  intros Hctx Hdisp Hsized Hx Hy. unfold compositeAndRender. rewrite Hctx.
  eexists. split; [done|]. cbv zeta.
  rewrite (composite_loop_pixel (canvasWidth s) (canvasHeight s)) by
    (done || by apply clearRect_ok).
  rewrite (clearRect_pixel (canvasWidth s) (canvasHeight s)) by done.
  fold (visiblePixels s x y). split; [done|]. split.
  - intros below top above -> Htop Habove. by apply sourceOver_opaque_on_top.
  - apply sourceOver_transparent_run.
Qed.

End CompositorClaims.


(** ** Binary64 facts by exhaustive evaluation *)




Lemma spec_float_eqb_eq a b : spec_float_eqb a b = true -> a = b.
Proof.
  destruct a as [s| s| |s m e], b as [s'| s'| |s' m' e']; simpl; try discriminate.
  - by intros ->%Bool.eqb_prop.
  - by intros ->%Bool.eqb_prop.
  - done.
  - intros [[->%Bool.eqb_prop ->%Pos.eqb_eq]%andb_prop ->%Z.eqb_eq]%andb_prop. done.
Qed.

Lemma sameFloat_eq f g : sameFloat f g = true -> f = g.
Proof. intros Hs. apply Prim2SF_inj. by apply spec_float_eqb_eq. Qed.

Lemma bytes_forall (p : Z -> bool) :
  forallb p bytes = true -> forall z, 0 <= z <= 255 -> p z = true.
Proof.
  intros Hp z Hz. rewrite forallb_forall in Hp. apply Hp.
  apply list_elem_of_In, elem_of_seqZ. lia.
Qed.

(** An opaque source: the destination term vanishes, the alpha is 1. *)
Lemma opaque_source_dst_term d da :
  0 <= d <= 255 -> 0 <= da <= 255 ->
  (Z2F d * (Z2F da / 255) * (1 - Z2F 255 / 255))%float = 0%float.
Proof.
  intros Hd Hda. apply sameFloat_eq.
  apply (bytes_forall (λ da, sameFloat
           (Z2F d * (Z2F da / 255) * (1 - Z2F 255 / 255))%float 0%float)); [|done].
  revert d Hd. apply (bytes_forall (λ d, forallb (λ da, sameFloat
           (Z2F d * (Z2F da / 255) * (1 - Z2F 255 / 255))%float 0%float) bytes)).
  vm_compute. reflexivity.
Qed.


Lemma opaque_source_outAlpha da :
  0 <= da <= 255 ->
  (Z2F 255 / 255 + Z2F da / 255 * (1 - Z2F 255 / 255))%float = 1%float.
Proof.
  intros Hda. apply sameFloat_eq. revert da Hda.
  apply (bytes_forall (λ da, sameFloat
           (Z2F 255 / 255 + Z2F da / 255 * (1 - Z2F 255 / 255))%float 1%float)).
  vm_compute. reflexivity.
Qed.

Lemma opaque_source_channel c :
  0 <= c <= 255 -> Math_round ((Z2F c * (Z2F 255 / 255) + 0) / 1)%float = c.
Proof.
  intros Hc. apply Z.eqb_eq. revert c Hc.
  apply (bytes_forall (λ c, Math_round ((Z2F c * (Z2F 255 / 255) + 0) / 1)%float =? c)).
  vm_compute. reflexivity.
Qed.

(** A transparent source: the source term vanishes, and the destination
    comes back from the division by its own alpha. *)
Lemma transparent_source_src_term c :
  0 <= c <= 255 -> (Z2F c * (Z2F 0 / 255))%float = 0%float.
Proof.
  intros Hc. apply sameFloat_eq. revert c Hc.
  apply (bytes_forall (λ c, sameFloat (Z2F c * (Z2F 0 / 255))%float 0%float)).
  vm_compute. reflexivity.
Qed.

Lemma transparent_source_outAlpha da :
  0 <= da <= 255 ->
  (0 <? Z2F 0 / 255 + Z2F da / 255 * (1 - Z2F 0 / 255))%float = (0 <? da).
Proof.
  intros Hda. apply Bool.eqb_prop. revert da Hda.
  apply (bytes_forall (λ da, Bool.eqb
           (0 <? Z2F 0 / 255 + Z2F da / 255 * (1 - Z2F 0 / 255))%float (0 <? da))).
  vm_compute. reflexivity.
Qed.

Lemma transparent_source_channel d da :
  0 <= d <= 255 -> 1 <= da <= 255 ->
  Math_round ((0 + Z2F d * (Z2F da / 255) * (1 - Z2F 0 / 255))
              / (Z2F 0 / 255 + Z2F da / 255 * (1 - Z2F 0 / 255)))%float = d.
Proof.
  intros Hd Hda.
  assert (Ht : (implb (0 <? da) (Math_round
             ((0 + Z2F d * (Z2F da / 255) * (1 - Z2F 0 / 255))
              / (Z2F 0 / 255 + Z2F da / 255 * (1 - Z2F 0 / 255)))%float =? d)) = true).
  { apply (bytes_forall (λ da, implb (0 <? da) (Math_round
             ((0 + Z2F d * (Z2F da / 255) * (1 - Z2F 0 / 255))
              / (Z2F 0 / 255 + Z2F da / 255 * (1 - Z2F 0 / 255)))%float =? d)));
      [|lia].
    revert d Hd.
    apply (bytes_forall (λ d, forallb (λ da, implb (0 <? da) (Math_round
             ((0 + Z2F d * (Z2F da / 255) * (1 - Z2F 0 / 255))
              / (Z2F 0 / 255 + Z2F da / 255 * (1 - Z2F 0 / 255)))%float =? d)) bytes)).
    vm_compute. reflexivity. }
  destruct (Z.ltb_spec 0 da); [|lia]. simpl in Ht. by apply Z.eqb_eq.
Qed.

Lemma transparent_source_alpha da :
  0 <= da <= 255 ->
  Math_round ((Z2F 0 / 255 + Z2F da / 255 * (1 - Z2F 0 / 255)) * 255)%float = da.
Proof.
  intros Hda. apply Z.eqb_eq. revert da Hda.
  apply (bytes_forall (λ da, Math_round
           ((Z2F 0 / 255 + Z2F da / 255 * (1 - Z2F 0 / 255)) * 255)%float =? da)).
  vm_compute. reflexivity.
Qed.


(** ** Blend engine *)




Lemma toUint8Clamp_byte v : byte_ok v -> toUint8Clamp v = v.
Proof. unfold byte_ok, toUint8Clamp. lia. Qed.

Lemma storeByte_length d i v : length (storeByte d i v) = length d.
Proof. unfold storeByte. destruct (0 <=? i); [apply length_insert|done]. Qed.

Lemma byteAt_storeByte_eq d i v :
  0 <= i < Z.of_nat (length d) -> byteAt (storeByte d i v) i = toUint8Clamp v.
Proof.
  intros Hi. unfold byteAt, at_index, storeByte.
  destruct (Z.leb_spec 0 i); [|lia]. by rewrite list_lookup_insert_eq by lia.
Qed.

Lemma byteAt_storeByte_ne d i j v : i <> j -> byteAt (storeByte d j v) i = byteAt d i.
Proof.
  intros Hne. unfold byteAt, at_index, storeByte.
  destruct (Z.leb_spec 0 i), (Z.leb_spec 0 j); try done.
  by rewrite list_lookup_insert_ne by lia.
Qed.

Lemma numberAt_byteAt d i :
  0 <= i < Z.of_nat (length d) -> numberAt d i = Z2F (byteAt d i).
Proof.
  intros Hi. unfold numberAt, byteAt, at_index. destruct (Z.leb_spec 0 i); [|lia].
  by destruct (lookup_lt_is_Some_2 d (Z.to_nat i) ltac:(lia)) as [v ->].
Qed.

Lemma storeByte_same d i :
  0 <= i < Z.of_nat (length d) -> byte_ok (byteAt d i) -> storeByte d i (byteAt d i) = d.
Proof.
  intros Hi Hb. unfold storeByte. destruct (Z.leb_spec 0 i); [|lia].
  rewrite toUint8Clamp_byte by done. apply list_insert_id.
  unfold byteAt, at_index. destruct (Z.leb_spec 0 i); [|lia].
  by destruct (lookup_lt_is_Some_2 d (Z.to_nat i) ltac:(lia)) as [v ->].
Qed.

Lemma getPixelColor_setPixelColor img x y c :
  pixel_stored img x y -> color_ok c ->
  getPixelColor (setPixelColor img x y c) x y = c.
Proof.
  intros [Hlo Hhi] (Hr & Hg & Hb & Ha). unfold getPixelColor, setPixelColor. simpl.
  set (index := (y * ImageData.width img + x) * 4) in *.
  rewrite (byteAt_storeByte_eq _ (index + 3)) by (rewrite !storeByte_length; lia).
  rewrite (byteAt_storeByte_ne _ (index + 2) (index + 3)) by lia.
  rewrite (byteAt_storeByte_eq _ (index + 2)) by (rewrite !storeByte_length; lia).
  rewrite !(byteAt_storeByte_ne _ (index + 1) (index + 3)),
          !(byteAt_storeByte_ne _ (index + 1) (index + 2)) by lia.
  rewrite (byteAt_storeByte_eq _ (index + 1)) by (rewrite !storeByte_length; lia).
  rewrite !(byteAt_storeByte_ne _ index (index + 3)),
          !(byteAt_storeByte_ne _ index (index + 2)),
          !(byteAt_storeByte_ne _ index (index + 1)) by lia.
  rewrite (byteAt_storeByte_eq _ index) by lia.
  rewrite !toUint8Clamp_byte by done. by destruct c.
Qed.

Lemma numberAt_storeByte_ne d i j v :
  i <> j -> numberAt (storeByte d j v) i = numberAt d i.
Proof.
  intros Hne. unfold numberAt, at_index, storeByte.
  destruct (Z.leb_spec 0 i), (Z.leb_spec 0 j); try done.
  by rewrite list_lookup_insert_ne by lia.
Qed.

(** With an opaque source the blend is a plain write of the source. *)
Lemma blendPixel_opaque img x y src :
  pixel_stored img x y -> color_ok (getPixelColor img x y) -> color_ok src ->
  Color.a src = 255 ->
  blendPixel img x y src = setPixelColor img x y src.
Proof.
  intros [Hlo Hhi] (Hdr & Hdg & Hdb & Hda) (Hr & Hg & Hb & _) Ha.
  unfold getPixelColor in *. simpl in Hdr, Hdg, Hdb, Hda.
  unfold blendPixel, setPixelColor. cbv zeta.
  set (index := (y * ImageData.width img + x) * 4) in *.
  set (d := ImageData.data img) in *.
  rewrite Ha.
  rewrite (numberAt_byteAt d (index + 3)) by lia.
  rewrite opaque_source_outAlpha by done.
  change (0 <? 1)%float with true. cbv iota.
  rewrite !numberAt_storeByte_ne by lia.
  rewrite !numberAt_byteAt by lia.
  rewrite !opaque_source_dst_term by done.
  rewrite !opaque_source_channel by done.
  change (Math_round (1 * 255)%float) with 255. done.
Qed.

(** With a transparent source the blend writes back what was there. *)
Lemma blendPixel_transparent img x y src :
  pixel_stored img x y -> color_ok (getPixelColor img x y) -> color_ok src ->
  Color.a src = 0 ->
  blendPixel img x y src = img.
Proof.
  intros [Hlo Hhi] (Hdr & Hdg & Hdb & Hda) (Hr & Hg & Hb & _) Ha.
  unfold getPixelColor in *. simpl in Hdr, Hdg, Hdb, Hda.
  unfold blendPixel. cbv zeta.
  set (index := (y * ImageData.width img + x) * 4) in *.
  set (d := ImageData.data img) in *.
  rewrite Ha.
  rewrite (numberAt_byteAt d (index + 3)) by lia.
  rewrite transparent_source_outAlpha by done.
  destruct (Z.ltb_spec 0 (byteAt d (index + 3))) as [Hpos|Hzero]; [|done].
  assert (Hda' : 1 <= byteAt d (index + 3) <= 255) by (unfold byte_ok in Hda; lia).
  rewrite (numberAt_byteAt d index) by lia.
  rewrite (transparent_source_src_term (Color.r src)) by done.
  rewrite transparent_source_channel by done.
  rewrite (storeByte_same d index) by (done || lia).
  rewrite (numberAt_byteAt d (index + 1)) by lia.
  rewrite (transparent_source_src_term (Color.g src)) by done.
  rewrite transparent_source_channel by done.
  rewrite (storeByte_same d (index + 1)) by (done || lia).
  rewrite (numberAt_byteAt d (index + 2)) by lia.
  rewrite (transparent_source_src_term (Color.b src)) by done.
  rewrite transparent_source_channel by done.
  rewrite (storeByte_same d (index + 2)) by (done || lia).
  rewrite transparent_source_alpha by done.
  rewrite (storeByte_same d (index + 3)) by (done || lia).
  unfold d. by destruct img.
Qed.

Lemma blendOver_buffer dst :
  pixel_stored (ImageData.mk 1 1 [Color.r dst; Color.g dst; Color.b dst; Color.a dst]) 0 0 /\
  getPixelColor (ImageData.mk 1 1 [Color.r dst; Color.g dst; Color.b dst; Color.a dst]) 0 0
    = dst.
Proof. split; [by compute|by destruct dst]. Qed.

(** C8: for a destination and a source color whose channels are bytes, the
    Porter-Duff over blend of [blendPixel] yields the source exactly, in
    all four channels, when [src.a = 255], and the destination unchanged,
    in all four channels, when [src.a = 0]; in a buffer the first is a
    plain write of the source and the second leaves the buffer as it was.
    The arithmetic is the binary64 arithmetic of the source. *)
Theorem blend_opaque_and_transparent_source (dst src : Color.t) :
  color_ok dst ->
  color_ok src ->
  (Color.a src = 255 -> blendOver dst src = src) /\
  (Color.a src = 0 -> blendOver dst src = dst) /\
  (forall img x y,
     pixel_stored img x y -> getPixelColor img x y = dst ->
     (Color.a src = 255 ->
        blendPixel img x y src = setPixelColor img x y src /\
        getPixelColor (blendPixel img x y src) x y = src) /\
     (Color.a src = 0 -> blendPixel img x y src = img)).
Proof.
  intros Hdst Hsrc.
  assert (Hbuf : forall img x y,
     pixel_stored img x y -> getPixelColor img x y = dst ->
     (Color.a src = 255 ->
        blendPixel img x y src = setPixelColor img x y src /\
        getPixelColor (blendPixel img x y src) x y = src) /\
     (Color.a src = 0 -> blendPixel img x y src = img)).
  { intros img x y Hin Hpx. rewrite <- Hpx in Hdst. split; intros Ha.
    - rewrite blendPixel_opaque by done.
      split; [done|by apply getPixelColor_setPixelColor].
    - by apply blendPixel_transparent. }
  destruct (blendOver_buffer dst) as [Hin Hpx].
  destruct (Hbuf _ 0 0 Hin Hpx) as [Hopaque Hclear].
  split; [intros Ha; unfold blendOver; by destruct (Hopaque Ha)|].
  split; [intros Ha; unfold blendOver; by rewrite Hclear|].
  exact Hbuf.
Qed.


(** ** Concrete runs *)

(** C1 at a seed that already has the paint color: the red layer is active,
    the paint is the same red, a redo is pending and nothing can be undone.
    [floodFill(0, 0)] leaves the layers as they are, and yet the undo stack
    has gained an entry and the pending redo is gone. *)
Theorem floodFill_same_color_pushes_history :
  getPixelColor (ImageData.mk 1 1 [255; 0; 0; 255]) 0 0 =
    hexToRgba (paintColor red_on_red) (paintOpacity red_on_red) /\
  activeCtx red_on_red = Some (ImageData.mk 1 1 [255; 0; 0; 255]) /\
  undoStack red_on_red = [] /\
  length (redoStack red_on_red) = 1%nat /\
  exists s', @floodFill straightAlpha (floodFuel 1 1) red_on_red 0 0 = Some s' /\
    layers s' = layers red_on_red /\
    undoStack s' = [currentState red_on_red] /\
    redoStack s' = [].
Proof.
  do 4 (split; [vm_compute; reflexivity|]).
  apply (floodFill_matching_seed_history (H := straightAlpha) red_on_red
           (ImageData.mk 1 1 [255; 0; 0; 255]));
    (vm_compute; reflexivity) || (simpl; lia).
Qed.

(** Undo then redo on the filled document: the red fill comes back. *)
Lemma undo_then_redo_restores_layers_witness :
  undoStack filled_document <> [] /\
  layers_sized filled_document /\
  NoDup (Layer.id <$> layers filled_document) /\
  layers (@redo straightAlpha (@undo straightAlpha filled_document))
    = layers filled_document /\
  activeLayerIndex (@redo straightAlpha (@undo straightAlpha filled_document))
    = activeLayerIndex filled_document.
Proof.
  assert (Hu : undoStack filled_document <> []) by (vm_compute; discriminate).
  assert (Hs : layers_sized filled_document).
  { unfold layers_sized. vm_compute. repeat constructor; discriminate. }
  assert (Hn : NoDup (Layer.id <$> layers filled_document)).
  { apply (bool_decide_unpack _). vm_compute. exact I. }
  split; [exact Hu|]. split; [exact Hs|]. split; [exact Hn|].
  exact (@undo_then_redo_restores_layers straightAlpha filled_document Hu Hs Hn).
Defined.

(** The three mutations on the two-layer document. *)
Lemma layer_mutations_keep_active_index_valid_witness :
  stack_invariant red_under_clear /\
  stack_invariant (@addLayer straightAlpha red_under_clear "layer-3") /\
  stack_invariant (@removeLayer straightAlpha red_under_clear 0) /\
  stack_invariant (@moveLayer straightAlpha red_under_clear 1 0) /\
  activeLayerIndex (@removeLayer straightAlpha red_under_clear 0) = 0.
Proof.
  assert (Hinv : stack_invariant red_under_clear) by (unfold stack_invariant; simpl; lia).
  destruct (@layer_mutations_keep_active_index_valid straightAlpha red_under_clear Hinv)
    as (Hadd & Hrem & Hmove & _ & Hidx).
  split; [exact Hinv|]. split; [apply Hadd|].
  split; [apply Hrem; lia|]. split; [apply Hmove|].
  destruct (Hidx 0) as [_ Ha]; [simpl; lia|simpl; lia|]. exact Ha.
Defined.

(** Compositing the two-layer document: the display pixel is the red of
    the lower layer. *)
Lemma composite_is_source_over_witness :
  ctx red_under_clear = Some (ImageData.mk 1 1 [0; 0; 0; 0]) /\
  bitmap_ok 1 1 (ImageData.mk 1 1 [0; 0; 0; 0]) /\
  layers_sized red_under_clear /\
  exists display', ctx (@compositeAndRender straightAlpha red_under_clear) = Some display' /\
    getPixelColor display' 0 0 = Color.mk 255 0 0 255.
Proof.
  assert (Hb : bitmap_ok 1 1 (ImageData.mk 1 1 [0; 0; 0; 0])) by (by compute).
  assert (Hs : layers_sized red_under_clear).
  { unfold layers_sized. vm_compute. repeat constructor; discriminate. }
  split; [reflexivity|]. split; [exact Hb|]. split; [exact Hs|].
  destruct (@composite_is_source_over straightAlpha red_under_clear
              (ImageData.mk 1 1 [0; 0; 0; 0]) 0 0 eq_refl Hb Hs)
    as (display' & Hd & _ & Htop & _); [simpl; lia|simpl; lia|].
  exists display'. split; [exact Hd|].
  apply (Htop [] (Color.mk 255 0 0 255) [transparentBlack]).
  - reflexivity.
  - reflexivity.
  - by repeat constructor.
Defined.

(** C4, as stated, fails: both layers are visible, the topmost one is fully
    transparent at the pixel, and the display shows the red of the layer
    below it, not the value of the topmost visible layer. *)
Lemma composite_shows_layer_below :
  Layer.visible <$> layers red_under_clear = [true; true] /\
  last (visiblePixels red_under_clear 0 0) = Some (Color.mk 0 0 0 0) /\
  (λ display', getPixelColor display' 0 0)
    <$> ctx (@compositeAndRender straightAlpha red_under_clear)
    = Some (Color.mk 255 0 0 255) /\
  (λ display', getPixelColor display' 0 0)
    <$> ctx (@compositeAndRender straightAlpha red_under_clear)
    <> last (visiblePixels red_under_clear 0 0).
Proof. vm_compute. repeat split; discriminate. Qed.

(** Moving the lower layer above the active one: the active index follows
    its layer. *)
Lemma moveLayer_follows_active_layer_witness :
  0 <= 0 < Z.of_nat (length (layers red_under_clear)) /\
  0 <= 1 < Z.of_nat (length (layers red_under_clear)) /\
  0 <= activeLayerIndex red_under_clear < Z.of_nat (length (layers red_under_clear)) /\
  at_index (layers (@moveLayer straightAlpha red_under_clear 0 1))
           (activeLayerIndex (@moveLayer straightAlpha red_under_clear 0 1))
    = at_index (layers red_under_clear) (activeLayerIndex red_under_clear).
Proof.
  assert (H0 : 0 <= 0 < Z.of_nat (length (layers red_under_clear))) by (simpl; lia).
  assert (H1 : 0 <= 1 < Z.of_nat (length (layers red_under_clear))) by (simpl; lia).
  assert (Ha : 0 <= activeLayerIndex red_under_clear
               < Z.of_nat (length (layers red_under_clear))) by (simpl; lia).
  split; [exact H0|]. split; [exact H1|]. split; [exact Ha|].
  exact (proj1 (proj2 (@moveLayer_follows_active_layer straightAlpha red_under_clear 0 1
                         H0 H1 ltac:(lia) Ha))).
Defined.

(** The triangle of the specification on a 16 by 16 canvas. *)
Lemma lassoMask_even_odd_in_clamped_box_witness :
  3 <= Z.of_nat (length (lassoPoints triangle_document)) /\
  exists mask, lassoMask (createLassoMask triangle_document) = Some mask /\
    maskAt mask 1 1 = true /\ maskAt mask 9 9 = false.
Proof.
  assert (Hn : 3 <= Z.of_nat (length (lassoPoints triangle_document))) by (simpl; lia).
  split; [exact Hn|].
  destruct (lassoMask_even_odd_in_clamped_box triangle_document Hn)
    as (_ & mask & Hmask & _ & Htri).
  exists mask. split; [exact Hmask|].
  apply Htri; [reflexivity|simpl; lia|simpl; lia].
Defined.

(** An opaque source over a translucent destination. *)
Lemma blend_opaque_and_transparent_source_witness :
  color_ok (Color.mk 10 20 30 40) /\
  color_ok (Color.mk 1 2 3 255) /\
  blendOver (Color.mk 10 20 30 40) (Color.mk 1 2 3 255) = Color.mk 1 2 3 255.
Proof.
  assert (Hd : color_ok (Color.mk 10 20 30 40))
    by (unfold color_ok, byte_ok; simpl; lia).
  assert (Hs : color_ok (Color.mk 1 2 3 255))
    by (unfold color_ok, byte_ok; simpl; lia).
  split; [exact Hd|]. split; [exact Hs|].
  exact (proj1 (blend_opaque_and_transparent_source _ _ Hd Hs) eq_refl).
Defined.

(** The fill of the one-pixel document. *)
Lemma floodFill_terminates_witness :
  1 <= canvasWidth red_under_clear <= 2048 /\
  1 <= canvasHeight red_under_clear <= 2048 /\
  0 <= 0 < canvasWidth red_under_clear /\
  0 <= 0 < canvasHeight red_under_clear /\
  exists s', forall fuel,
    (floodFuel (canvasWidth red_under_clear) (canvasHeight red_under_clear) <= fuel)%nat ->
    @floodFill straightAlpha fuel red_under_clear 0 0 = Some s'.
Proof.
  assert (HW : 1 <= canvasWidth red_under_clear <= 2048) by (simpl; lia).
  assert (HH : 1 <= canvasHeight red_under_clear <= 2048) by (simpl; lia).
  assert (Hx : 0 <= 0 < canvasWidth red_under_clear) by (simpl; lia).
  assert (Hy : 0 <= 0 < canvasHeight red_under_clear) by (simpl; lia).
  split; [exact HW|]. split; [exact HH|]. split; [exact Hx|]. split; [exact Hy|].
  exact (@floodFill_terminates straightAlpha red_under_clear 0 0 HW HH Hx Hy).
Defined.

(** A target index past the end of the stack. *)
Lemma moveLayer_invalid_is_noop_witness :
  ~ (0 <= 5 < Z.of_nat (length (layers red_under_clear))) /\
  @moveLayer straightAlpha red_under_clear 0 5 = red_under_clear.
Proof.
  assert (Hbad : ~ (0 <= 5 < Z.of_nat (length (layers red_under_clear))))
    by (simpl; lia).
  split; [exact Hbad|].
  exact (proj1 (@moveLayer_invalid_is_noop straightAlpha red_under_clear 0 5
                  (or_intror (or_intror Hbad)))).
Defined.




(** C7, as stated, fails: the lasso is finalized (mask, bounds and
    extracted pixels are there), and after the move the point list is
    still the polygon that was drawn. *)
Lemma moveLassoToFloating_points_not_cleared :
  lassoMask finalized_lasso = Some [[true; true]; [true; false]] /\
  lassoBounds finalized_lasso = Some (Bounds.mk 0 0 1 1) /\
  lassoImageData finalized_lasso =
    Some (ImageData.mk 2 2
            [10; 20; 30; 255; 10; 20; 30; 255; 10; 20; 30; 255; 0; 0; 0; 0]) /\
  lassoPoints (@moveLassoToFloating straightAlpha finalized_lasso) =
    [Point.mk 0 0; Point.mk 2 0; Point.mk 0 2] /\
  lassoPoints (@moveLassoToFloating straightAlpha finalized_lasso) <> [].
Proof. vm_compute. repeat split; discriminate. Qed.

(** The move on the finalized lasso of the 2 by 2 document. *)
Lemma moveLassoToFloating_keeps_points_witness :
  activeCtx finalized_lasso =
    Some (ImageData.mk 2 2 (concat (replicate 4 [10; 20; 30; 255]))) /\
  lassoMask finalized_lasso = Some [[true; true]; [true; false]] /\
  lassoBounds finalized_lasso = Some (Bounds.mk 0 0 1 1) /\
  lassoImageData finalized_lasso =
    Some (ImageData.mk 2 2
            [10; 20; 30; 255; 10; 20; 30; 255; 10; 20; 30; 255; 0; 0; 0; 0]) /\
  let s' := @moveLassoToFloating straightAlpha finalized_lasso in
  floatingSelection s' =
    Some (Floating.mk
            (ImageData.mk 2 2
               [10; 20; 30; 255; 10; 20; 30; 255; 10; 20; 30; 255; 0; 0; 0; 0])
            0 0) /\
  lassoMask s' = None /\ lassoBounds s' = None /\ lassoImageData s' = None /\
  lassoPoints s' = lassoPoints finalized_lasso.
Proof.
  do 4 (split; [vm_compute; reflexivity|]).
  apply (@moveLassoToFloating_keeps_points straightAlpha finalized_lasso
           (ImageData.mk 2 2 (concat (replicate 4 [10; 20; 30; 255])))
           [[true; true]; [true; false]] (Bounds.mk 0 0 1 1));
    vm_compute; reflexivity.
Defined.


(** * Properties of the further parts *)

(** ** Pixels of a bitmap *)

Lemma pixel_stored_ok W Ht img x y :
  bitmap_ok W Ht img -> 0 <= x < W -> 0 <= y < Ht -> pixel_stored img x y.
Proof.
  intros (Hw & Hh & HW & HH & Hlen) Hx Hy. unfold pixel_stored. rewrite Hw, Hlen.
  pose proof (pixel_in_buffer W Ht x y 0 Hx Hy ltac:(lia)).
  pose proof (pixel_in_buffer W Ht x y 3 Hx Hy ltac:(lia)). lia.
Qed.

Lemma setPixelColor_ok W Ht img x y c :
  bitmap_ok W Ht img -> bitmap_ok W Ht (setPixelColor img x y c).
Proof.
  intros (Hw & Hh & HW & HH & Hlen). unfold bitmap_ok, setPixelColor. simpl.
  by rewrite !storeByte_length.
Qed.

Lemma clampColor_ok c : color_ok c -> clampColor c = c.
Proof.
  intros (Hr & Hg & Hb & Ha). destruct c. unfold clampColor. simpl in *.
  by rewrite !toUint8Clamp_byte.
Qed.

Lemma getPixelColor_setPixelColor_clamp img x y c :
  pixel_stored img x y ->
  getPixelColor (setPixelColor img x y c) x y = clampColor c.
Proof.
  intros [Hlo Hhi]. unfold getPixelColor, setPixelColor, clampColor. simpl.
  set (i := (y * ImageData.width img + x) * 4) in *.
  rewrite (byteAt_storeByte_ne _ i) by lia.
  rewrite (byteAt_storeByte_ne _ i) by lia.
  rewrite (byteAt_storeByte_ne _ i) by lia.
  rewrite (byteAt_storeByte_ne _ (i + 1)) by lia.
  rewrite (byteAt_storeByte_ne _ (i + 1)) by lia.
  rewrite (byteAt_storeByte_ne _ (i + 2)) by lia.
  rewrite !byteAt_storeByte_eq by (rewrite ?storeByte_length; lia).
  done.
Qed.

(** Distinct pixels of a row-major buffer do not share a byte. *)
Lemma pixel_bytes_apart W x y x' y' k k' :
  0 <= x < W -> 0 <= x' < W -> (x, y) <> (x', y') ->
  0 <= k < 4 -> 0 <= k' < 4 ->
  (y * W + x) * 4 + k <> (y' * W + x') * 4 + k'.
Proof.
  intros Hx Hx' Hne Hk Hk' Heq.
  assert (y * W + x = y' * W + x') as Hp by lia.
  destruct (Z.lt_trichotomy y y') as [Hlt | [-> | Hgt]].
  - nia.
  - apply Hne. f_equal. lia.
  - nia.
Qed.

Lemma getPixelColor_setPixelColor_ne W Ht img x y c x' y' :
  bitmap_ok W Ht img -> 0 <= x < W -> 0 <= x' < W -> (x', y') <> (x, y) ->
  getPixelColor (setPixelColor img x y c) x' y' = getPixelColor img x' y'.
Proof.
  intros (Hw & _) Hx Hx' Hne. unfold getPixelColor, setPixelColor. simpl. rewrite Hw.
  assert (Hk : forall k k', 0 <= k < 4 -> 0 <= k' < 4 ->
            (y' * W + x') * 4 + k <> (y * W + x) * 4 + k')
    by (intros; by apply pixel_bytes_apart).
  pose proof (Hk 0 0 ltac:(lia) ltac:(lia)). pose proof (Hk 0 1 ltac:(lia) ltac:(lia)).
  pose proof (Hk 0 2 ltac:(lia) ltac:(lia)). pose proof (Hk 0 3 ltac:(lia) ltac:(lia)).
  pose proof (Hk 1 0 ltac:(lia) ltac:(lia)). pose proof (Hk 1 1 ltac:(lia) ltac:(lia)).
  pose proof (Hk 1 2 ltac:(lia) ltac:(lia)). pose proof (Hk 1 3 ltac:(lia) ltac:(lia)).
  pose proof (Hk 2 0 ltac:(lia) ltac:(lia)). pose proof (Hk 2 1 ltac:(lia) ltac:(lia)).
  pose proof (Hk 2 2 ltac:(lia) ltac:(lia)). pose proof (Hk 2 3 ltac:(lia) ltac:(lia)).
  pose proof (Hk 3 0 ltac:(lia) ltac:(lia)). pose proof (Hk 3 1 ltac:(lia) ltac:(lia)).
  pose proof (Hk 3 2 ltac:(lia) ltac:(lia)). pose proof (Hk 3 3 ltac:(lia) ltac:(lia)).
  rewrite !byteAt_storeByte_ne by lia. done.
Qed.

(** A bitmap is determined by its pixels. *)
Lemma bitmap_ext W Ht a b :
  bitmap_ok W Ht a -> bitmap_ok W Ht b ->
  (forall x y, 0 <= x < W -> 0 <= y < Ht -> getPixelColor a x y = getPixelColor b x y) ->
  a = b.
Proof.
  intros (Hw & Hh & HW & HH & Hlen) (Hw' & Hh' & _ & _ & Hlen') Hpix.
  destruct a as [w h d], b as [w' h' d']. simpl in *. subst w h w' h'. f_equal.
  rewrite <- (tabulate_byteAt d), <- (tabulate_byteAt d').
  replace (length d') with (length d) by lia.
  apply tabulate_ext. intros i Hi.
  destruct (byte_position W Ht i ltac:(lia) HH) as (HW' & Hx & Hy & Hidx).
  specialize (Hpix _ _ Hx Hy). unfold getPixelColor in Hpix. simpl in Hpix.
  set (p := ((i `div` 4) `div` W * W + (i `div` 4) `mod` W) * 4) in *.
  pose proof (Z.mod_pos_bound i 4 ltac:(lia)) as Hk.
  injection Hpix as H0 H1 H2 H3.
  destruct (decide (i `mod` 4 = 0)) as [E|]; [replace i with p by lia; done|].
  destruct (decide (i `mod` 4 = 1)) as [E|]; [replace i with (p + 1) by lia; done|].
  destruct (decide (i `mod` 4 = 2)) as [E|]; [replace i with (p + 2) by lia; done|].
  replace i with (p + 3) by lia; done.
Qed.

(** ** The canvas operations, pixel by pixel *)

Lemma getImageData_ok cv sx sy sw sh :
  0 <= sw -> 0 <= sh -> bitmap_ok sw sh (getImageData cv sx sy sw sh).
Proof.
  intros Hw Hh. unfold bitmap_ok, getImageData. simpl. rewrite tabulate_length.
  repeat split; try done. nia.
Qed.

Lemma getImageData_pixel cv sx sy sw sh i j :
  0 <= i < sw -> 0 <= j < sh ->
  getPixelColor (getImageData cv sx sy sw sh) i j =
    if decide (0 <= sx + i < ImageData.width cv /\ 0 <= sy + j < ImageData.height cv)
    then getPixelColor cv (sx + i) (sy + j) else transparentBlack.
Proof.
  intros Hi Hj. unfold getImageData.
  rewrite (getPixelColor_tabulate sw sh) by (done || nia). cbv zeta.
  assert (Hb : forall k, 0 <= k < 4 ->
    (let t := (j * sw + i) * 4 + k in
     let x := sx + (t `div` 4) `mod` sw in
     let y := sy + (t `div` 4) `div` sw in
     if (0 <=? x) && (x <? ImageData.width cv) && (0 <=? y) && (y <? ImageData.height cv)
     then byteAt (ImageData.data cv) ((y * ImageData.width cv + x) * 4 + t `mod` 4)
     else 0) =
    if decide (0 <= sx + i < ImageData.width cv /\ 0 <= sy + j < ImageData.height cv)
    then byteAt (ImageData.data cv)
           (((sy + j) * ImageData.width cv + (sx + i)) * 4 + k)
    else 0).
  { intros k Hk. cbv zeta.
    destruct (pixel_bytes sw i j k Hi ltac:(lia) Hk) as (_ & -> & -> & ->).
    case_decide; case_compare; simpl; (done || lia). }
  pose proof (Hb 0 ltac:(lia)) as H0. pose proof (Hb 1 ltac:(lia)) as H1.
  pose proof (Hb 2 ltac:(lia)) as H2. pose proof (Hb 3 ltac:(lia)) as H3.
  cbv zeta in H0, H1, H2, H3. rewrite !Z.add_0_r in H0.
  rewrite H0, H1, H2, H3. by case_decide.
Qed.

Lemma putImageData_pixel W Ht cv img dx dy x y :
  bitmap_ok W Ht cv -> 0 <= x < W -> 0 <= y < Ht ->
  getPixelColor (putImageData cv img dx dy) x y =
    if decide (dx <= x < dx + ImageData.width img /\ dy <= y < dy + ImageData.height img)
    then getPixelColor img (x - dx) (y - dy) else getPixelColor cv x y.
Proof.
  intros (Hw & Hh & HW & HH & Hlen) Hx Hy. unfold putImageData. rewrite Hw, Hh.
  rewrite (getPixelColor_tabulate W Ht) by done. cbv zeta.
  assert (Hb : forall k, 0 <= k < 4 ->
    (let t := (y * W + x) * 4 + k in
     let x0 := (t `div` 4) `mod` W in
     let y0 := (t `div` 4) `div` W in
     if (dx <=? x0) && (x0 <? dx + ImageData.width img) &&
        (dy <=? y0) && (y0 <? dy + ImageData.height img)
     then byteAt (ImageData.data img)
            (((y0 - dy) * ImageData.width img + (x0 - dx)) * 4 + t `mod` 4)
     else byteAt (ImageData.data cv) t) =
    if decide (dx <= x < dx + ImageData.width img /\ dy <= y < dy + ImageData.height img)
    then byteAt (ImageData.data img)
           (((y - dy) * ImageData.width img + (x - dx)) * 4 + k)
    else byteAt (ImageData.data cv) ((y * W + x) * 4 + k)).
  { intros k Hk. cbv zeta.
    destruct (pixel_bytes W x y k Hx ltac:(lia) Hk) as (_ & -> & -> & ->).
    case_decide; case_compare; simpl; (done || lia). }
  pose proof (Hb 0 ltac:(lia)) as H0. pose proof (Hb 1 ltac:(lia)) as H1.
  pose proof (Hb 2 ltac:(lia)) as H2. pose proof (Hb 3 ltac:(lia)) as H3.
  cbv zeta in H0, H1, H2, H3. rewrite !Z.add_0_r in H0.
  rewrite H0, H1, H2, H3. unfold getPixelColor. rewrite Hw. by case_decide.
Qed.

Lemma clearRectAt_ok W Ht cv x y w h :
  bitmap_ok W Ht cv -> bitmap_ok W Ht (clearRectAt cv x y w h).
Proof.
  intros (Hw & Hh & HW & HH & Hlen). unfold bitmap_ok, clearRectAt. simpl.
  by rewrite tabulate_length.
Qed.

Lemma clearRectAt_pixel W Ht cv rx ry rw rh x y :
  bitmap_ok W Ht cv -> 0 <= x < W -> 0 <= y < Ht ->
  getPixelColor (clearRectAt cv rx ry rw rh) x y =
    if decide (rx <= x < rx + rw /\ ry <= y < ry + rh)
    then transparentBlack else getPixelColor cv x y.
Proof.
  intros (Hw & Hh & HW & HH & Hlen) Hx Hy. unfold clearRectAt. rewrite Hw, Hh.
  rewrite (getPixelColor_tabulate W Ht) by done. cbv zeta.
  assert (Hb : forall k, 0 <= k < 4 ->
    (let t := (y * W + x) * 4 + k in
     let px := (t `div` 4) `mod` W in
     let py := (t `div` 4) `div` W in
     if (rx <=? px) && (px <? rx + rw) && (ry <=? py) && (py <? ry + rh)
     then 0 else byteAt (ImageData.data cv) t) =
    if decide (rx <= x < rx + rw /\ ry <= y < ry + rh)
    then 0 else byteAt (ImageData.data cv) ((y * W + x) * 4 + k)).
  { intros k Hk. cbv zeta.
    destruct (pixel_bytes W x y k Hx ltac:(lia) Hk) as (_ & _ & -> & ->).
    case_decide; case_compare; simpl; (done || lia). }
  pose proof (Hb 0 ltac:(lia)) as H0. pose proof (Hb 1 ltac:(lia)) as H1.
  pose proof (Hb 2 ltac:(lia)) as H2. pose proof (Hb 3 ltac:(lia)) as H3.
  cbv zeta in H0, H1, H2, H3. rewrite !Z.add_0_r in H0.
  rewrite H0, H1, H2, H3. unfold getPixelColor. rewrite Hw. by case_decide.
Qed.

(** ** Loops over pixels *)

Lemma fold_grid {A} (F : A -> Z -> Z -> A) (xs ys : list Z) (a : A) :
  fold_left (λ a y, fold_left (λ a x, F a x y) xs a) ys a =
  fold_left (λ a p, F a p.1 p.2) (grid xs ys) a.
Proof.
  revert a. induction ys as [|y ys IH]; intros a; [done|].
  unfold grid. simpl. rewrite fold_left_app. fold (grid xs ys). rewrite <- IH.
  f_equal. clear. revert a. induction xs as [|x xs IH]; intros a; [done|].
  simpl. apply IH.
Qed.

Lemma elem_of_grid xs ys x y : (x, y) ∈ grid xs ys <-> x ∈ xs /\ y ∈ ys.
Proof.
  unfold grid. rewrite list_elem_of_bind. split.
  - intros (y' & Hin & Hy). apply list_elem_of_fmap in Hin as (x' & Heq & Hx).
    by simplify_eq.
  - intros [Hx Hy]. exists y. split; [|done]. apply list_elem_of_fmap. by exists x.
Qed.

Lemma NoDup_grid xs ys : NoDup xs -> NoDup ys -> NoDup (grid xs ys).
Proof.
  intros Hxs Hys. unfold grid. induction Hys as [|y ys Hy Hys IH]; simpl.
  - apply NoDup_nil_2.
  - apply NoDup_app. split; [|split; [|done]].
    + apply NoDup_fmap_2; [|done]. intros a b Hab. by simplify_eq.
    + intros p Hp Hp'. apply list_elem_of_fmap in Hp as (x & -> & Hx).
      apply (elem_of_grid xs ys x y) in Hp' as [_ Hp']. done.
Qed.

(** A loop whose every turn rewrites at most the pixel it is at: afterwards
    a visited pixel holds what its turn made of the original, the others
    are as before. *)
Lemma fold_pixels {I} (key : I -> Z * Z) (f : ImageData.t -> I -> ImageData.t)
    (h : I -> Color.t -> Color.t) W Ht (l : list I) :
  NoDup (key <$> l) ->
  (forall img i, i ∈ l -> bitmap_ok W Ht img ->
     bitmap_ok W Ht (f img i) /\
     forall x y, 0 <= x < W -> 0 <= y < Ht ->
       getPixelColor (f img i) x y =
         if decide ((x, y) = key i) then h i (getPixelColor img x y)
         else getPixelColor img x y) ->
  forall img, bitmap_ok W Ht img ->
    bitmap_ok W Ht (fold_left f l img) /\
    forall x y, 0 <= x < W -> 0 <= y < Ht ->
      (forall i, i ∈ l -> key i = (x, y) ->
         getPixelColor (fold_left f l img) x y = h i (getPixelColor img x y)) /\
      ((x, y) ∉ key <$> l ->
         getPixelColor (fold_left f l img) x y = getPixelColor img x y).
Proof.
  induction l as [|i0 l IH]; intros Hnd Hf img Himg.
  - split; [done|]. intros x y Hx Hy. split; [|done].
    intros i Hi. by apply elem_of_nil in Hi.
  - rewrite fmap_cons in Hnd. apply NoDup_cons in Hnd as [Hi0 Hnd].
    destruct (Hf img i0 ltac:(left) Himg) as [Hok Hpix].
    destruct (IH Hnd (λ img i Hi, Hf img i ltac:(by right)) _ Hok) as [Hok' Hrest].
    split; [done|]. intros x y Hx Hy. destruct (Hrest x y Hx Hy) as [Hin Hout].
    simpl. split.
    + intros i Hi Hkey. apply elem_of_cons in Hi as [->|Hi].
      * rewrite Hout by (by rewrite <- Hkey).
        rewrite Hpix by done. by rewrite decide_True.
      * rewrite (Hin i Hi Hkey). rewrite Hpix by done.
        rewrite decide_False; [done|]. intros E. apply Hi0. rewrite <- E, <- Hkey.
        apply list_elem_of_fmap. by exists i.
    + intros Hnot. rewrite Hout.
      * rewrite Hpix by done. rewrite decide_False; [done|].
        intros E. apply Hnot. rewrite E. left.
      * intros Hl. apply Hnot. by right.
Qed.


(** ** Line rasterizer *)

Lemma nearestStep_unique long short i k :
  0 < long -> - long < 2 * (i * short - k * long) <= long ->
  nearestStep long short i = k.
Proof.
  intros Hl Hk. unfold nearestStep. symmetry.
  apply (Z.div_unique _ _ k (2 * i * short + long - 1 - 2 * long * k)); lia.
Qed.

Lemma nearestStep_bounds long short i :
  0 < long ->
  - long < 2 * (i * short - nearestStep long short i * long) <= long.
Proof.
  intros Hl. unfold nearestStep.
  pose proof (Z.div_mod (2 * i * short + long - 1) (2 * long) ltac:(lia)).
  pose proof (Z.mod_pos_bound (2 * i * short + long - 1) (2 * long) ltac:(lia)).
  lia.
Qed.

Lemma line_ends x1 y1 x2 y2 :
  let dx := Z.abs (x2 - x1) in
  let dy := Z.abs (y2 - y1) in
  let sx := if x1 <? x2 then 1 else -1 in
  let sy := if y1 <? y2 then 1 else -1 in
  x2 = x1 + sx * dx /\ y2 = y1 + sy * dy.
Proof. cbv zeta. case_compare; lia. Qed.

(** The loop when the line is at least as wide as it is high: every turn
    steps along x. *)
Lemma lineLoop_wide x1 y1 x2 y2 (n : nat) :
  let dx := Z.abs (x2 - x1) in
  let dy := Z.abs (y2 - y1) in
  let sx := if x1 <? x2 then 1 else -1 in
  let sy := if y1 <? y2 then 1 else -1 in
  dy <= dx -> 0 < dx ->
  forall fuel a b,
    Z.of_nat n = dx - a -> 0 <= a ->
    - dx < 2 * (a * dy - b * dx) <= dx ->
    (n < fuel)%nat ->
    lineLoop fuel (x1 + sx * a) (y1 + sy * b) x2 y2 dx dy sx sy
      (dx - dy - (a * dy - b * dx))
    = Some ((λ i, (x1 + sx * i, y1 + sy * nearestStep dx dy i)) <$> seqZ a (Z.of_nat n + 1)).
Proof.
  intros dx dy sx sy Hwide Hdx.
  destruct (line_ends x1 y1 x2 y2) as [Ex Ey]. fold dx dy sx sy in Ex, Ey.
  assert (Hsx : sx = 1 \/ sx = -1) by (unfold sx; case_compare; lia).
  assert (Hsy : sy = 1 \/ sy = -1) by (unfold sy; case_compare; lia).
  assert (Hdy : 0 <= dy) by (unfold dy; lia).
  assert (Hmx : forall k, sx * k = k \/ sx * k = - k)
    by (intros k; destruct Hsx as [E|E]; rewrite E; lia).
  assert (Hmy : forall k, sy * k = k \/ sy * k = - k)
    by (intros k; destruct Hsy as [E|E]; rewrite E; lia).
  induction n as [|n IH]; intros fuel a b Hn Ha Hinv Hfuel;
    (destruct fuel as [|fuel]; [lia|]); cbn [lineLoop].
  - assert (a = dx) as -> by lia.
    assert (b = dy) as -> by nia.
    rewrite <- Ex, <- Ey, !Z.eqb_refl. cbn [andb].
    change (Z.of_nat 0 + 1) with 1. rewrite (seqZ_cons dx) by lia.
    change (Z.pred 1) with 0. rewrite seqZ_nil by lia. cbn [fmap list_fmap].
    rewrite (nearestStep_unique dx dy dx dy) by lia.
    by rewrite <- Ex, <- Ey.
  - destruct (Z.eqb_spec (x1 + sx * a) x2) as [E|_];
      [pose proof (Hmx a); pose proof (Hmx dx); lia|]. cbn [andb].
    destruct (Z.ltb_spec (- dy) (2 * (dx - dy - (a * dy - b * dx))));
      [|destruct (decide (dy = dx)) as [Edy|];
        [assert (a * dy = a * dx) by (by rewrite Edy); assert (a = b) by nia; nia|lia]].
    rewrite (seqZ_cons a) by lia. rewrite fmap_cons.
    rewrite (nearestStep_unique dx dy a b) by lia.
    replace (Z.pred (Z.of_nat (S n) + 1)) with (Z.of_nat n + 1) by lia.
    destruct (Z.ltb_spec (2 * (dx - dy - (a * dy - b * dx))) dx).
    + replace (x1 + sx * a + sx) with (x1 + sx * Z.succ a) by lia.
      replace (y1 + sy * b + sy) with (y1 + sy * (b + 1)) by lia.
      replace (dx - dy - (a * dy - b * dx) - dy + dx)
        with (dx - dy - (Z.succ a * dy - (b + 1) * dx)) by lia.
      rewrite IH by lia. done.
    + replace (x1 + sx * a + sx) with (x1 + sx * Z.succ a) by lia.
      replace (dx - dy - (a * dy - b * dx) - dy)
        with (dx - dy - (Z.succ a * dy - b * dx)) by lia.
      rewrite IH by lia. done.
Qed.

(** The loop when the line is higher than it is wide: every turn steps
    along y. *)
Lemma lineLoop_high x1 y1 x2 y2 (n : nat) :
  let dx := Z.abs (x2 - x1) in
  let dy := Z.abs (y2 - y1) in
  let sx := if x1 <? x2 then 1 else -1 in
  let sy := if y1 <? y2 then 1 else -1 in
  dx < dy ->
  forall fuel a b,
    Z.of_nat n = dy - b -> 0 <= b ->
    - dy < 2 * (b * dx - a * dy) <= dy ->
    (n < fuel)%nat ->
    lineLoop fuel (x1 + sx * a) (y1 + sy * b) x2 y2 dx dy sx sy
      (dx - dy - (a * dy - b * dx))
    = Some ((λ i, (x1 + sx * nearestStep dy dx i, y1 + sy * i)) <$> seqZ b (Z.of_nat n + 1)).
Proof.
  intros dx dy sx sy Hhigh.
  destruct (line_ends x1 y1 x2 y2) as [Ex Ey]. fold dx dy sx sy in Ex, Ey.
  assert (Hsx : sx = 1 \/ sx = -1) by (unfold sx; case_compare; lia).
  assert (Hsy : sy = 1 \/ sy = -1) by (unfold sy; case_compare; lia).
  assert (Hdx : 0 <= dx) by (unfold dx; lia).
  assert (Hmx : forall k, sx * k = k \/ sx * k = - k)
    by (intros k; destruct Hsx as [E|E]; rewrite E; lia).
  assert (Hmy : forall k, sy * k = k \/ sy * k = - k)
    by (intros k; destruct Hsy as [E|E]; rewrite E; lia).
  induction n as [|n IH]; intros fuel a b Hn Hb Hinv Hfuel;
    (destruct fuel as [|fuel]; [lia|]); cbn [lineLoop].
  - assert (b = dy) as -> by lia.
    assert (a = dx) as -> by nia.
    rewrite <- Ex, <- Ey, !Z.eqb_refl. cbn [andb].
    change (Z.of_nat 0 + 1) with 1. rewrite (seqZ_cons dy) by lia.
    change (Z.pred 1) with 0. rewrite seqZ_nil by lia. cbn [fmap list_fmap].
    rewrite (nearestStep_unique dy dx dy dx) by lia.
    by rewrite <- Ex, <- Ey.
  - destruct (Z.eqb_spec (y1 + sy * b) y2) as [E|_];
      [pose proof (Hmy b); pose proof (Hmy dy); lia|].
    rewrite andb_false_r.
    rewrite (seqZ_cons b) by lia. rewrite fmap_cons.
    rewrite (nearestStep_unique dy dx b a) by lia.
    replace (Z.pred (Z.of_nat (S n) + 1)) with (Z.of_nat n + 1) by lia.
    destruct (Z.ltb_spec (2 * (dx - dy - (a * dy - b * dx))) dx); [|lia].
    destruct (Z.ltb_spec (- dy) (2 * (dx - dy - (a * dy - b * dx)))).
    + replace (x1 + sx * a + sx) with (x1 + sx * (a + 1)) by lia.
      replace (y1 + sy * b + sy) with (y1 + sy * Z.succ b) by lia.
      replace (dx - dy - (a * dy - b * dx) - dy + dx)
        with (dx - dy - ((a + 1) * dy - Z.succ b * dx)) by lia.
      rewrite IH by lia. done.
    + replace (y1 + sy * b + sy) with (y1 + sy * Z.succ b) by lia.
      replace (dx - dy - (a * dy - b * dx) + dx)
        with (dx - dy - (a * dy - Z.succ b * dx)) by lia.
      rewrite IH by lia. done.
Qed.

Lemma lineSteps_nearestLine x1 y1 x2 y2 fuel :
  (lineFuel x1 y1 x2 y2 <= fuel)%nat ->
  lineSteps fuel x1 y1 x2 y2 = Some (nearestLine x1 y1 x2 y2).
Proof.
  intros Hfuel. unfold lineFuel in Hfuel. unfold lineSteps, nearestLine. cbv zeta.
  set (dx := Z.abs (x2 - x1)) in *. set (dy := Z.abs (y2 - y1)) in *.
  set (sx := if x1 <? x2 then 1 else -1). set (sy := if y1 <? y2 then 1 else -1).
  assert (0 <= dx) by (unfold dx; lia). assert (0 <= dy) by (unfold dy; lia).
  destruct (Z.leb_spec dy dx) as [Hwide|Hhigh].
  - destruct (decide (dx = 0)) as [E|Hne].
    + assert (dy = 0) as E' by lia.
      assert (x2 = x1) as -> by (unfold dx in E; lia).
      assert (y2 = y1) as -> by (unfold dy in E'; lia).
      destruct fuel as [|fuel]; [lia|]. simpl. rewrite !Z.eqb_refl. simpl.
      rewrite E, E'. change (seqZ 0 (0 `max` 0 + 1)) with [0]. cbn [fmap list_fmap].
      unfold nearestStep. by rewrite !Z.mul_0_r, !Z.add_0_r.
    + pose proof (lineLoop_wide x1 y1 x2 y2 (Z.to_nat dx) Hwide ltac:(lia)
                    fuel 0 0 ltac:(lia) ltac:(lia) ltac:(lia) ltac:(lia)) as Hloop.
      cbv zeta in Hloop. fold dx dy sx sy in Hloop.
      rewrite !Z.mul_0_r, !Z.add_0_r in Hloop. simpl in Hloop.
      rewrite Z.sub_0_r in Hloop. rewrite Hloop. f_equal.
      rewrite Z.max_l by lia. rewrite Z2Nat.id by lia.
      apply list_fmap_ext. intros i p Hp.
      by destruct (Z.leb_spec dy dx); [|lia].
  - pose proof (lineLoop_high x1 y1 x2 y2 (Z.to_nat dy) Hhigh
                  fuel 0 0 ltac:(lia) ltac:(lia) ltac:(lia) ltac:(lia)) as Hloop.
    cbv zeta in Hloop. fold dx dy sx sy in Hloop.
    rewrite !Z.mul_0_r, !Z.add_0_r in Hloop. simpl in Hloop.
    rewrite Z.sub_0_r in Hloop. rewrite Hloop. f_equal.
    rewrite Z.max_r by lia. rewrite Z2Nat.id by lia.
    apply list_fmap_ext. intros i p Hp.
    by destruct (Z.leb_spec dy dx); [lia|].
Qed.


(** ** An edit of the active layer *)

Lemma colorsMatch_exact c1 c2 : colorsMatch c1 c2 0 = true <-> c1 = c2.
Proof.
  unfold colorsMatch. rewrite !andb_true_iff, !Z.leb_le. split.
  - intros [[[Hr Hg] Hb] Ha]. destruct c1, c2. simpl in *. f_equal; lia.
  - intros ->. lia.
Qed.

Section EditLemmas.
Context `{Compositing}.

Lemma saveState_frame s :
  layers (saveState s) = layers s /\
  activeLayerIndex (saveState s) = activeLayerIndex s /\
  canvasWidth (saveState s) = canvasWidth s /\
  canvasHeight (saveState s) = canvasHeight s /\
  ctx (saveState s) = ctx s /\
  floatingSelection (saveState s) = floatingSelection s /\
  lassoPoints (saveState s) = lassoPoints s /\
  lassoMask (saveState s) = lassoMask s /\
  lassoBounds (saveState s) = lassoBounds s /\
  lassoImageData (saveState s) = lassoImageData s /\
  paintColor (saveState s) = paintColor s /\
  paintOpacity (saveState s) = paintOpacity s.
Proof. unfold saveState. by case_bool_decide. Qed.

Lemma activeCtx_lookup s cv :
  activeCtx s = Some cv ->
  0 <= activeLayerIndex s /\
  exists l, layers s !! Z.to_nat (activeLayerIndex s) = Some l /\ Layer.canvas l = cv.
Proof.
  unfold activeCtx, at_index. intros Hcv.
  destruct (Z.leb_spec 0 (activeLayerIndex s)); [|done]. split; [done|].
  destruct (layers s !! Z.to_nat (activeLayerIndex s)) as [l|]; [|done].
  exists l. by simplify_eq/=.
Qed.

(** A write through [activeCtx] between [saveState] and the re-render. *)
Lemma edit_active s cv cv' :
  activeCtx s = Some cv ->
  let s' := compositeAndRender (set_activeCanvas (saveState s) cv') in
  activeCtx s' = Some cv' /\
  only_active_canvas_differs s s' /\
  undoStack s' = slice_from (undoStack s) (- (MAX_UNDO_STEPS - 1)) ++ [currentState s] /\
  redoStack s' = [] /\
  canvasWidth s' = canvasWidth s /\ canvasHeight s' = canvasHeight s.
Proof.
  intros Hcv s'. destruct (activeCtx_lookup s cv Hcv) as (Hidx & l & Hl & Hlcv).
  destruct (saveState_frame s) as (Hls & Hai & Hw & Hh & _).
  destruct (saveState_pushes s (activeCtx_layers s cv Hcv)) as [Hundo Hredo].
  assert (Hlayers : layers s' =
    alter (λ l, Layer.mk (Layer.id l) (Layer.name l) cv' (Layer.visible l))
      (Z.to_nat (activeLayerIndex s)) (layers s)).
  { unfold s'. rewrite compositeAndRender_layers. unfold set_activeCanvas. simpl.
    by rewrite Hls, Hai. }
  assert (Hact : activeLayerIndex s' = activeLayerIndex s).
  { unfold s'. rewrite compositeAndRender_activeLayerIndex. unfold set_activeCanvas.
    simpl. done. }
  split; [|split; [|split; [|split]]].
  - unfold activeCtx, at_index. rewrite Hact, Hlayers.
    destruct (Z.leb_spec 0 (activeLayerIndex s)); [|lia].
    rewrite list_lookup_alter_eq, Hl. done.
  - split; [done|]. rewrite Hlayers. split; [by rewrite length_alter|]. split.
    + intros i l0 Hi Hl0. by rewrite list_lookup_alter_ne.
    + apply Forall2_same_length_lookup_2; [by rewrite length_alter|].
      intros i a b Ha Hb.
      destruct (decide (i = Z.to_nat (activeLayerIndex s))) as [->|Hne].
      * rewrite list_lookup_alter_eq, Hb in Ha. simplify_eq/=. done.
      * rewrite list_lookup_alter_ne in Ha by done. by simplify_eq.
  - unfold s'. destruct (compositeAndRender_history (set_activeCanvas (saveState s) cv'))
      as [-> _]. done.
  - unfold s'. destruct (compositeAndRender_history (set_activeCanvas (saveState s) cv'))
      as [_ ->]. done.
  - unfold s'. destruct (compositeAndRender_size (set_activeCanvas (saveState s) cv'))
      as [-> ->]. done.
Qed.

End EditLemmas.

(** ** Fill engine: what is recolored *)

Lemma pop_snoc {A} (l : list A) x l' : pop l = Some (x, l') -> l = l' ++ [x].
Proof.
  unfold pop. destruct (last l) as [z|] eqn:E; [|done]. intros [= -> <-].
  apply last_Some in E as [l'' ->]. rewrite length_app. simpl.
  rewrite take_app_length'; [done|lia].
Qed.

Section FloodInvariant.
Variables (W Ht : Z) (img0 : ImageData.t) (seed : Z * Z) (fillColor : Color.t).
Hypothesis seed_inside : 0 <= seed.1 < W /\ 0 <= seed.2 < Ht.

Lemma flood_invariant_start : bitmap_ok W Ht img0 -> flood_invariant W Ht img0 seed fillColor img0 [seed] ∅.
Proof.
  intros Hok. unfold flood_invariant. split_and!.
  - done.
  - intros p Hp. by apply elem_of_empty in Hp.
  - done.
  - intros q Hq _ _ _. apply list_elem_of_singleton in Hq as ->. constructor.
  - intros p q Hp. by apply elem_of_empty in Hp.
  - right. by apply list_elem_of_singleton.
Qed.

Lemma flood_invariant_skip img stack stack' visited p :
  stack = stack' ++ [p] ->
  (p ∈ visited \/
   ~ (0 <= p.1 < W /\ 0 <= p.2 < Ht /\ getPixelColor img0 p.1 p.2 = (getPixelColor img0 seed.1 seed.2))) ->
  flood_invariant W Ht img0 seed fillColor img stack visited -> flood_invariant W Ht img0 seed fillColor img stack' visited.
Proof.
  intros -> Hp (Hok & Hvis & Hunv & Hst & Hcl & Hseed).
  unfold flood_invariant. split_and!; try done.
  - intros q Hq. apply Hst. apply elem_of_app. by left.
  - intros q r Hq Hn. destruct (Hcl q r Hq Hn) as [Hr|[Hr|Hr]]; [by left| |by right; right].
    apply elem_of_app in Hr as [Hr|Hr]; [by right; left|].
    apply list_elem_of_singleton in Hr as ->.
    destruct Hp as [Hp|Hp]; [by left|by right; right].
  - destruct Hseed as [Hs|Hs]; [by left|].
    apply elem_of_app in Hs as [Hs|Hs]; [by right|].
    apply list_elem_of_singleton in Hs. subst p.
    destruct Hp as [Hp|Hp]; [by left|]. exfalso. apply Hp.
    destruct seed_inside. done.
Qed.

Lemma flood_invariant_fill img stack stack' visited x y :
  stack = stack' ++ [(x, y)] ->
  (x, y) ∉ visited -> 0 <= x < W -> 0 <= y < Ht ->
  getPixelColor img x y = (getPixelColor img0 seed.1 seed.2) ->
  flood_invariant W Ht img0 seed fillColor img stack visited ->
  flood_invariant W Ht img0 seed fillColor (setPixelColor img x y fillColor)
    (stack' ++ [(x + 1, y); (x - 1, y); (x, y + 1); (x, y - 1)])
    ({[(x, y)]} ∪ visited).
Proof.
  intros -> Hnew Hx Hy Hcol (Hok & Hvis & Hunv & Hst & Hcl & Hseed).
  assert (Horig : getPixelColor img0 x y = (getPixelColor img0 seed.1 seed.2)).
  { rewrite <- Hcol. symmetry. by apply (Hunv (x, y)). }
  assert (Hreg : region img0 W Ht seed (x, y)).
  { apply Hst; try done. apply elem_of_app. right. by apply list_elem_of_singleton. }
  unfold flood_invariant. split_and!.
  - by apply setPixelColor_ok.
  - intros p Hp. apply elem_of_union in Hp as [Hp|Hp].
    + apply elem_of_singleton in Hp as ->. simpl. split; [done|]. split; [done|].
      apply getPixelColor_setPixelColor_clamp. by apply (pixel_stored_ok W Ht).
    + destruct (Hvis p Hp) as (Hin & Hr & Hc). split; [done|]. split; [done|].
      destruct p as [px py]. simpl in *.
      rewrite (getPixelColor_setPixelColor_ne W Ht); try done; try lia.
      intros [= -> ->]. done.
  - intros p Hpx Hpy Hp. destruct p as [px py]. simpl in *.
    apply not_elem_of_union in Hp as [Hp1 Hp2].
    rewrite (getPixelColor_setPixelColor_ne W Ht); try done.
    + by apply (Hunv (px, py)).
    + intros E. apply Hp1. by apply elem_of_singleton.
  - intros q Hq Hqx Hqy Hqc. apply elem_of_app in Hq as [Hq|Hq].
    + apply Hst; try done. apply elem_of_app. by left.
    + apply (region_step _ _ _ _ (x, y) q); try done.
      unfold neighbour4. simpl.
      repeat (apply elem_of_cons in Hq as [->|Hq]; [simpl; lia|]).
      by apply elem_of_nil in Hq.
  - intros p q Hp Hn. apply elem_of_union in Hp as [Hp|Hp].
    + apply elem_of_singleton in Hp as ->. right. left.
      apply elem_of_app. right. destruct q as [qx qy]. unfold neighbour4 in Hn.
      simpl in Hn.
      destruct Hn as [[-> ->]|[[-> ->]|[[-> ->]|[-> ->]]]];
        repeat ((by left) || right).
    + destruct (Hcl p q Hp Hn) as [Hr|[Hr|Hr]].
      * left. apply elem_of_union. by right.
      * apply elem_of_app in Hr as [Hr|Hr].
        -- right. left. apply elem_of_app. by left.
        -- apply list_elem_of_singleton in Hr as ->. left.
           apply elem_of_union. left. by apply elem_of_singleton.
      * by right; right.
  - destruct Hseed as [Hs|Hs]; [left; apply elem_of_union; by right|].
    apply elem_of_app in Hs as [Hs|Hs].
    + right. apply elem_of_app. by left.
    + apply list_elem_of_singleton in Hs. left. apply elem_of_union. left.
      by apply elem_of_singleton.
Qed.

(** The loop, run from a state of the invariant, ends in the buffer that
    has the fill color on the region of the seed and the original
    elsewhere. *)
Lemma floodLoop_region fuel :
  forall img stack visited out,
    flood_invariant W Ht img0 seed fillColor img stack visited ->
    floodLoop fuel W Ht (getPixelColor img0 seed.1 seed.2) fillColor img stack visited = Some out ->
    bitmap_ok W Ht out /\
    forall p, 0 <= p.1 < W -> 0 <= p.2 < Ht ->
      (region img0 W Ht seed p -> getPixelColor out p.1 p.2 = clampColor fillColor) /\
      (~ region img0 W Ht seed p -> getPixelColor out p.1 p.2 = getPixelColor img0 p.1 p.2).
Proof.
  assert (Hdone : forall img visited, flood_invariant W Ht img0 seed fillColor img [] visited ->
    bitmap_ok W Ht img /\
    forall p, 0 <= p.1 < W -> 0 <= p.2 < Ht ->
      (region img0 W Ht seed p -> getPixelColor img p.1 p.2 = clampColor fillColor) /\
      (~ region img0 W Ht seed p -> getPixelColor img p.1 p.2 = getPixelColor img0 p.1 p.2)).
  { intros img visited (Hok & Hvis & Hunv & Hst & Hcl & Hseed). split; [done|].
    assert (Hall : forall p, region img0 W Ht seed p -> p ∈ visited).
    { intros p Hp. induction Hp as [|p q Hp IH Hn Hqx Hqy Hqc].
      - destruct Hseed as [Hs|Hs]; [done|]. by apply elem_of_nil in Hs.
      - destruct (Hcl p q IH Hn) as [Hr|[Hr|Hr]]; [done| |].
        + by apply elem_of_nil in Hr.
        + exfalso. by apply Hr. }
    intros p Hpx Hpy. split.
    - intros Hp. by apply (Hvis p (Hall p Hp)).
    - intros Hp. apply Hunv; try done. intros Hv. apply Hp. by apply (Hvis p Hv). }
  induction fuel as [|fuel IH]; intros img stack visited out Hinv Hrun.
  - simpl in Hrun. destruct (pop stack) as [[[x y] stack']|] eqn:Hpop; [done|].
    injection Hrun as <-. apply (Hdone img visited).
    unfold pop in Hpop. destruct (last stack) eqn:E; [done|].
    apply last_None in E. by subst.
  - simpl in Hrun. destruct (pop stack) as [[[x y] stack']|] eqn:Hpop.
    + apply pop_snoc in Hpop.
      case_bool_decide as Hv.
      { apply (IH img stack' visited out); [|done].
        apply (flood_invariant_skip img stack stack' visited (x, y)); try done. by left. }
      destruct ((x <? 0) || (W <=? x) || (y <? 0) || (Ht <=? y)) eqn:Hout.
      { apply (IH img stack' visited out); [|done].
        apply (flood_invariant_skip img stack stack' visited (x, y)); try done. right.
        simpl. intros (Hx & Hy & _). revert Hout. case_compare; simpl; (done || lia). }
      assert (0 <= x < W /\ 0 <= y < Ht) as [Hx Hy].
      { revert Hout. case_compare; simpl; (done || lia). }
      destruct (colorsMatch (getPixelColor img x y) (getPixelColor img0 seed.1 seed.2) 0) eqn:Hm; simpl in Hrun.
      * apply colorsMatch_exact in Hm.
        eapply IH; [|exact Hrun].
        by apply (flood_invariant_fill img stack stack' visited x y).
      * apply (IH img stack' visited out); [|done].
        apply (flood_invariant_skip img stack stack' visited (x, y)); try done. right.
        simpl. intros (_ & _ & Hc).
        destruct Hinv as (_ & _ & Hunv & _).
        pose proof (Hunv (x, y) Hx Hy Hv) as Hsame. simpl in Hsame.
        rewrite <- Hsame in Hc. apply colorsMatch_exact in Hc. congruence.
    + injection Hrun as <-. apply (Hdone img visited).
      unfold pop in Hpop. destruct (last stack) eqn:E; [done|].
      apply last_None in E. by subst.
Qed.

End FloodInvariant.


(** ** Colors from the picker *)

Lemma hexDigit_range c v : hexDigit c = Some v -> 0 <= v <= 15.
Proof.
  unfold hexDigit. set (n := Z.of_N (N_of_ascii c)).
  repeat case_match; intros [= <-]; lia.
Qed.

Lemma parseHex6_bytes hex r g b :
  parseHex6 hex = Some (r, g, b) -> byte_ok r /\ byte_ok g /\ byte_ok b.
Proof.
  unfold parseHex6.
  set (body := match hex with String "#"%char rest => rest | _ => hex end).
  assert (Hall : Forall (λ o, forall v, o = Some v -> 0 <= v <= 15)
                   (hexDigit <$> String.list_ascii_of_string body)).
  { apply Forall_fmap, Forall_forall. intros c _ v. apply hexDigit_range. }
  destruct (hexDigit <$> String.list_ascii_of_string body)
    as [|[r1|] [|[r0|] [|[g1|] [|[g0|] [|[b1|] [|[b0|] [|? ?]]]]]]]; try done.
  intros [= <- <- <-].
  repeat (apply Forall_cons in Hall as [? Hall]).
  unfold byte_ok.
  repeat match goal with
         | Hd : forall v, Some ?d = Some v -> _ |- _ => specialize (Hd d eq_refl)
         end.
  lia.
Qed.

Lemma opacity_alpha_table :
  forallb (λ o, let a := Math_round ((Z2F o / 100) * 255)%float in (0 <=? a) && (a <=? 255))
    (seqZ 0 101) = true.
Proof. vm_compute. reflexivity. Qed.

Lemma hexToRgba_ok hex opacity :
  0 <= opacity <= 100 -> color_ok (hexToRgba hex opacity).
Proof.
  intros Ho. pose proof opacity_alpha_table as Ht.
  rewrite forallb_forall in Ht. specialize (Ht opacity).
  assert (Ha : byte_ok (Math_round (Z2F opacity / 100 * 255)%float)).
  { unfold byte_ok. cbv zeta in Ht.
    assert (In opacity (seqZ 0 101)) as Hin by (apply list_elem_of_In, elem_of_seqZ; lia).
    apply Ht in Hin. apply andb_true_iff in Hin as [H1 H2]. lia. }
  unfold hexToRgba. destruct (parseHex6 hex) as [[[r g] b]|] eqn:E.
  - apply parseHex6_bytes in E as (? & ? & ?).
    unfold color_ok, byte_ok in *. simpl. lia.
  - unfold color_ok, byte_ok in *. simpl. lia.
Qed.

(** ** Undo after an edit *)

Section UndoEdit.
Context `{Compositing}.

Lemma edit_sized s s' cv' :
  layers_sized s -> only_active_canvas_differs s s' ->
  canvasWidth s' = canvasWidth s -> canvasHeight s' = canvasHeight s ->
  activeCtx s' = Some cv' -> bitmap_ok (canvasWidth s) (canvasHeight s) cv' ->
  layers_sized s'.
Proof.
  intros Hs (Hact & Hlen & Hother & _) Hw Hh Hcv Hok.
  unfold layers_sized. rewrite Hw, Hh. apply Forall_lookup. intros i l Hl.
  destruct (decide (i = Z.to_nat (activeLayerIndex s))) as [->|Hne].
  - destruct (activeCtx_lookup s' cv' Hcv) as (_ & l' & Hl' & <-).
    rewrite Hact in Hl'. by simplify_eq.
  - destruct (lookup_lt_is_Some_2 (layers s) i) as [l0 Hl0].
    { rewrite <- Hlen. by apply lookup_lt_is_Some_1. }
    rewrite (Hother i l0 Hne Hl0) in Hl. simplify_eq.
    by apply (Forall_lookup_1 _ _ _ _ Hs Hl0).
Qed.

(** [undo] on a state whose last snapshot was taken of [s] gives the
    layers of [s] back. *)
Lemma undo_restores_snapshot s s' :
  layers s <> [] ->
  layers_sized s -> NoDup (Layer.id <$> layers s) ->
  layers_sized s' ->
  canvasWidth s' = canvasWidth s -> canvasHeight s' = canvasHeight s ->
  Forall2 same_layer (layers s') (layers s) ->
  last (undoStack s') = Some (currentState s) ->
  layers (undo s') = layers s /\ activeLayerIndex (undo s') = activeLayerIndex s.
Proof.
  intros Hne Hsized Hnd Hsized' Hw Hh Hsame Hlast.
  assert (Hne' : length (layers s') <> 0%nat).
  { rewrite (Forall2_length _ _ _ Hsame). by destruct (layers s). }
  destruct (undo_steps s' _ Hlast Hne') as (Hl & Ha & _).
  split; [|done]. rewrite Hl. simpl.
  unfold layers_sized in Hsized'. rewrite Hw, Hh in Hsized'.
  apply (restore_snapshot (canvasWidth s) (canvasHeight s) [] (layers s) (layers s'));
    done.
Qed.

End UndoEdit.


(** ** Fill engine: the two recoloring tools *)


Section FillTools.
Context `{Compositing}.



End FillTools.


Section UndoTools.
Context `{Compositing}.

Lemma undo_after_saveState s :
  layers s <> [] -> layers_sized s -> NoDup (Layer.id <$> layers s) ->
  layers (undo (saveState s)) = layers s /\
  activeLayerIndex (undo (saveState s)) = activeLayerIndex s.
Proof.
  intros Hne Hsized Hnd.
  destruct (saveState_frame s) as (Hl & Ha & Hw & Hh & _).
  destruct (saveState_pushes s Hne) as [Hundo _].
  apply undo_restores_snapshot; try done.
  - unfold layers_sized. by rewrite Hl, Hw, Hh.
  - rewrite Hl. apply same_layer_all_refl.
  - rewrite Hundo. apply last_snoc.
Qed.

Lemma undo_after_edit s cv cv' :
  activeCtx s = Some cv -> layers_sized s -> NoDup (Layer.id <$> layers s) ->
  bitmap_ok (canvasWidth s) (canvasHeight s) cv' ->
  let s' := compositeAndRender (set_activeCanvas (saveState s) cv') in
  layers (undo s') = layers s /\ activeLayerIndex (undo s') = activeLayerIndex s.
Proof.
  intros Hcv Hsized Hnd Hok s'.
  destruct (edit_active s cv cv' Hcv) as (Hact & Hframe & Hundo & _ & Hw & Hh).
  fold s' in Hact, Hframe, Hundo, Hw, Hh.
  apply undo_restores_snapshot; try done.
  - by apply (activeCtx_layers s cv).
  - by apply (edit_sized s s' cv').
  - by destruct Hframe as (_ & _ & _ & Hsame).
  - rewrite Hundo. apply last_snoc.
Qed.

Lemma activeCtx_ok s cv :
  activeCtx s = Some cv -> layers_sized s ->
  bitmap_ok (canvasWidth s) (canvasHeight s) cv.
Proof.
  intros Hcv Hsized. destruct (activeCtx_lookup s cv Hcv) as (_ & l & Hl & <-).
  by apply (Forall_lookup_1 _ _ _ _ Hsized Hl).
Qed.

(** X3: one undo takes back a fill, a color replacement or a clearing of
    the layer: with layers of the document's size and distinct layer ids,
    after [floodFill] or [replaceColor] at a seed on the canvas, or after
    [clearCanvas], [undo] gives back every layer, pixel for pixel, and the
    active layer index, whether or not the tool changed a pixel. *)
Theorem undo_reverts_fill_replace_clear (s : EditorState) (cv : ImageData.t)
    (startX startY : Z) :
  activeCtx s = Some cv ->
  layers_sized s ->
  NoDup (Layer.id <$> layers s) ->
  0 <= startX < canvasWidth s -> 0 <= startY < canvasHeight s ->
  (forall fuel s', floodFill fuel s startX startY = Some s' ->
     layers (undo s') = layers s /\ activeLayerIndex (undo s') = activeLayerIndex s) /\
  (layers (undo (replaceColor s startX startY)) = layers s /\
   activeLayerIndex (undo (replaceColor s startX startY)) = activeLayerIndex s) /\
  (layers (undo (clearCanvas s)) = layers s /\
   activeLayerIndex (undo (clearCanvas s)) = activeLayerIndex s).
Proof.
  intros Hcv Hsized Hnd Hx Hy.
  pose proof (activeCtx_ok s cv Hcv Hsized) as Hok.
  pose proof (activeCtx_layers s cv Hcv) as Hne.
  set (W := canvasWidth s) in *. set (Ht := canvasHeight s) in *.
  assert (Hin : (startX <? 0) || (W <=? startX) || (startY <? 0) || (Ht <=? startY) = false)
    by (case_compare; simpl; (done || lia)).
  split; [|split].
  - intros fuel s'. unfold floodFill. rewrite Hcv. fold W Ht. rewrite Hin.
    rewrite (getImageData_whole W Ht cv Hok).
    destruct (colorsMatch _ _ 0); [intros [= <-]; by apply undo_after_saveState|].
    destruct (floodLoop fuel W Ht _ _ cv [(startX, startY)] ∅) as [filled|] eqn:Hrun;
      [|done].
    intros [= <-].
    destruct (floodLoop_region W Ht cv (startX, startY)
                (hexToRgba (paintColor s) (paintOpacity s)) ltac:(done) fuel
                cv [(startX, startY)] ∅ filled) as [Hfilled _];
      [by apply flood_invariant_start|exact Hrun|].
    rewrite (putImageData_whole W Ht cv filled) by done.
    by apply (undo_after_edit s cv).
  - unfold replaceColor. rewrite Hcv. fold W Ht. rewrite Hin.
    rewrite (getImageData_whole W Ht cv Hok).
    destruct (colorsMatch _ _ 0); [by apply undo_after_saveState|].
    apply (undo_after_edit s cv); try done.
    apply putImageData_ok. done.
  - unfold clearCanvas. rewrite Hcv.
    apply (undo_after_edit s cv); try done. by apply clearRect_ok.
Qed.

End UndoTools.


(** ** History: size and what a snapshot does not hold *)

Lemma length_restoreLayer ls st : length (restoreLayer ls st) = length ls.
Proof.
  unfold restoreLayer. destruct (find_index _ ls); [|done]. by rewrite length_alter.
Qed.

Lemma length_restore_all entries ls :
  length (fold_left restoreLayer entries ls) = length ls.
Proof.
  revert ls. induction entries as [|e entries IH]; intros ls; [done|].
  simpl. by rewrite IH, length_restoreLayer.
Qed.

Lemma length_slice_init {A} (l : list A) : length (slice_init l) = (length l - 1)%nat.
Proof. unfold slice_init. rewrite length_take. lia. Qed.

Section HistorySize.
Context `{Compositing}.

(** X4: the history never outgrows its limit: a snapshot pushed by
    [saveState] leaves at most [MAX_UNDO_STEPS] entries on the undo stack
    and none on the redo stack, and [undo] and [redo] move one entry from
    one stack to the other, so that the two stacks together never hold more
    than [MAX_UNDO_STEPS] snapshots. *)
Theorem history_stays_bounded (s : EditorState) :
  history_bounded s ->
  history_bounded (saveState s) /\ history_bounded (undo s) /\ history_bounded (redo s) /\
  (length (undoStack (undo s)) + length (redoStack (undo s)) =
     length (undoStack s) + length (redoStack s))%nat /\
  (length (undoStack (redo s)) + length (redoStack (redo s)) =
     length (undoStack s) + length (redoStack s))%nat.
Proof.
  unfold history_bounded, MAX_UNDO_STEPS. intros Hb.
  assert (Hsave : Z.of_nat (length (undoStack (saveState s)) +
                            length (redoStack (saveState s))) <= 50).
  { unfold saveState. case_bool_decide; [done|]. simpl.
    rewrite length_app. unfold slice_from. rewrite length_drop. unfold relativeStart.
    unfold MAX_UNDO_STEPS. simpl. case_compare; lia. }
  assert (Hundo : (length (undoStack (undo s)) + length (redoStack (undo s)) =
                   length (undoStack s) + length (redoStack s))%nat).
  { destruct (last (undoStack s)) as [previousState|] eqn:Hlast.
    - destruct (decide (length (layers s) = 0%nat)) as [E|Hne].
      + unfold undo. rewrite Hlast. by rewrite bool_decide_true.
      + destruct (undo_steps s previousState Hlast Hne) as (_ & _ & -> & -> & _).
        rewrite length_app, length_slice_init. simpl.
        apply last_Some in Hlast as [l' ->]. rewrite length_app. simpl. lia.
    - unfold undo. by rewrite Hlast. }
  assert (Hredo : (length (undoStack (redo s)) + length (redoStack (redo s)) =
                   length (undoStack s) + length (redoStack s))%nat).
  { destruct (last (redoStack s)) as [nextState|] eqn:Hlast.
    - destruct (decide (length (layers s) = 0%nat)) as [E|Hne].
      + unfold redo. rewrite Hlast. by rewrite bool_decide_true.
      + destruct (redo_steps s nextState Hlast Hne) as (_ & _ & -> & ->).
        rewrite length_app, length_slice_init. simpl.
        apply last_Some in Hlast as [l' ->]. rewrite length_app. simpl. lia.
    - unfold redo. by rewrite Hlast. }
  split; [done|]. split; [lia|]. split; [lia|]. split; lia.
Qed.

(** X5: a snapshot holds pixels, not the layer stack: when the topmost
    layer is active and is removed after a snapshot was taken, [undo] brings
    back neither the layer nor a valid selection of one. It restores the
    active index of the snapshot, which now lies past the end of the layer
    list, so that no layer is active. *)
Theorem undo_after_removeLayer_has_no_active_layer (s : EditorState) :
  (2 <= length (layers s))%nat ->
  activeLayerIndex s = Z.of_nat (length (layers s)) - 1 ->
  let s' := undo (removeLayer (saveState s) (activeLayerIndex s)) in
  length (layers s') = (length (layers s) - 1)%nat /\
  activeLayerIndex s' = Z.of_nat (length (layers s')) /\
  activeCtx s' = None.
Proof.
  intros Hlen Hact s'.
  assert (Hne : layers s <> []) by (destruct (layers s); simpl in *; [lia|done]).
  destruct (saveState_frame s) as (Hl & Ha & _).
  destruct (saveState_pushes s Hne) as [Hundo _].
  set (s1 := saveState s) in *.
  assert (Hrl : length (layers (removeLayer s1 (activeLayerIndex s))) =
                (length (layers s) - 1)%nat).
  { assert (Hn1 : (1 < length (layers s1))%nat) by (rewrite Hl; lia).
    assert (Hi1 : 0 <= activeLayerIndex s < Z.of_nat (length (layers s1)))
      by (rewrite Hl; lia).
    destruct (removeLayer_spec s1 (activeLayerIndex s) Hn1 Hi1) as [Hr _].
    rewrite Hr, Hl. rewrite length_app, length_take, length_drop. lia. }
  assert (Hhist : undoStack (removeLayer s1 (activeLayerIndex s)) = undoStack s1).
  { unfold removeLayer. destruct (Z.of_nat (length (layers s1)) <=? 1); [done|].
    cbv zeta.
    match goal with
    | |- undoStack (compositeAndRender ?t) = _ =>
        destruct (compositeAndRender_history t) as [-> _]
    end.
    by repeat case_match. }
  set (s2 := removeLayer s1 (activeLayerIndex s)) in *.
  assert (Hlast : last (undoStack s2) = Some (currentState s)).
  { rewrite Hhist, Hundo. apply last_snoc. }
  destruct (undo_steps s2 _ Hlast ltac:(lia)) as (Hls & Has & _).
  fold s' in Hls, Has.
  assert (Hlen' : length (layers s') = (length (layers s) - 1)%nat).
  { by rewrite Hls, length_restore_all. }
  split; [done|]. split; [rewrite Has; simpl; lia|].
  unfold activeCtx, at_index. rewrite Has. simpl.
  case_compare; [|done].
  rewrite lookup_ge_None_2; [done|lia].
Qed.

End HistorySize.


(** ** Compositor: what the picture depends on *)

Lemma clearRect_blank W Ht d1 d2 :
  bitmap_ok W Ht d1 -> bitmap_ok W Ht d2 -> clearRect d1 W Ht = clearRect d2 W Ht.
Proof.
  intros H1 H2. apply (bitmap_ext W Ht); try by apply clearRect_ok.
  intros x y Hx Hy. by rewrite !(clearRect_pixel W Ht).
Qed.

Lemma getPixelColor_blank W Ht n x y :
  getPixelColor (ImageData.mk W Ht (replicate n 0)) x y = transparentBlack.
Proof.
  assert (Hb : forall i, byteAt (replicate n 0) i = 0).
  { intros i. unfold byteAt, at_index. destruct (0 <=? i); [|done].
    destruct (replicate n 0 !! Z.to_nat i) eqn:E; [|done].
    apply lookup_replicate in E as [-> _]. done. }
  unfold getPixelColor. simpl. by rewrite !Hb.
Qed.

Section Picture.
Context `{Compositing}.

Lemma composite_loop_ok W Ht ls acc :
  bitmap_ok W Ht acc ->
  bitmap_ok W Ht
    (fold_left (λ acc layer, if Layer.visible layer
                             then drawImage acc (Layer.canvas layer) else acc) ls acc).
Proof.
  revert acc. induction ls as [|l ls IH]; intros acc Hacc; [done|].
  simpl. apply IH. destruct (Layer.visible l); [by apply drawImage_ok|done].
Qed.

Lemma drawImage_blank W Ht acc n :
  bitmap_ok W Ht acc -> Z.of_nat n = 4 * W * Ht ->
  drawImage acc (ImageData.mk W Ht (replicate n 0)) = acc.
Proof.
  intros Hacc Hn. apply (bitmap_ext W Ht); [by apply drawImage_ok|done|].
  intros x y Hx Hy. rewrite (drawImage_pixel W Ht); try done.
  - by rewrite getPixelColor_blank.
  - destruct Hacc as (_ & _ & ? & ? & _). unfold bitmap_ok. simpl.
    by rewrite length_replicate.
Qed.

(** X6: the picture is a function of the layers alone: whatever the
    display canvas held before, [compositeAndRender] leaves the same picture
    on it, so that rendering twice is rendering once. *)
Theorem compositeAndRender_forgets_display (s : EditorState) (d1 d2 : ImageData.t) :
  bitmap_ok (canvasWidth s) (canvasHeight s) d1 ->
  bitmap_ok (canvasWidth s) (canvasHeight s) d2 ->
  compositeAndRender (set_ctx s (Some d1)) = compositeAndRender (set_ctx s (Some d2)) /\
  compositeAndRender (compositeAndRender (set_ctx s (Some d1))) =
    compositeAndRender (set_ctx s (Some d1)).
Proof.
  intros H1 H2.
  assert (Hany : forall d d', bitmap_ok (canvasWidth s) (canvasHeight s) d ->
            bitmap_ok (canvasWidth s) (canvasHeight s) d' ->
            compositeAndRender (set_ctx s (Some d)) = compositeAndRender (set_ctx s (Some d'))).
  { intros d d' Hd Hd'. unfold compositeAndRender. simpl.
    by rewrite (clearRect_blank _ _ d d'). }
  split; [by apply Hany|].
  unfold compositeAndRender at 2 3. simpl.
  set (shown := fold_left _ (layers s) _).
  assert (Hshown : bitmap_ok (canvasWidth s) (canvasHeight s) shown).
  { apply composite_loop_ok. by apply clearRect_ok. }
  change (set_ctx (set_ctx s (Some d1)) (Some shown)) with (set_ctx s (Some shown)).
  rewrite (Hany shown d1) by done.
  unfold compositeAndRender. simpl. done.
Qed.

(** X7: a new layer does not change the picture: [addLayer] inserts a
    fully transparent layer, and the picture it renders is the one the
    layers showed without it. *)
Theorem addLayer_keeps_picture (s : EditorState) (display : ImageData.t)
    (newId : string) :
  ctx s = Some display ->
  bitmap_ok (canvasWidth s) (canvasHeight s) display ->
  ctx (addLayer s newId) = ctx (compositeAndRender s).
Proof.
  intros Hctx Hdisp. unfold addLayer, compositeAndRender. simpl. rewrite Hctx. simpl.
  f_equal. unfold splice_insert.
  set (k := relativeStart _ _).
  set (f := λ acc layer, if Layer.visible layer
                         then drawImage acc (Layer.canvas layer) else acc).
  set (cleared := clearRect display (canvasWidth s) (canvasHeight s)).
  rewrite <- (take_drop k (layers s)) at 3.
  rewrite !fold_left_app. simpl. f_equal.
  assert (Hacc : bitmap_ok (canvasWidth s) (canvasHeight s)
                   (fold_left f (take k (layers s)) cleared)).
  { apply composite_loop_ok. by apply clearRect_ok. }
  unfold f at 1. unfold createLayer. simpl.
  apply (drawImage_blank (canvasWidth s) (canvasHeight s)); [done|].
  destruct Hdisp as (_ & _ & ? & ? & _). rewrite Z2Nat.id; nia.
Qed.

End Picture.


(** ** Selection engine *)

Section SelectionLemmas.
Context `{Compositing}.

Lemma activeCtx_saveState s : activeCtx (saveState s) = activeCtx s.
Proof.
  destruct (saveState_frame s) as (Hl & Ha & _). unfold activeCtx. by rewrite Hl, Ha.
Qed.

Lemma activeCtx_compositeAndRender s : activeCtx (compositeAndRender s) = activeCtx s.
Proof.
  unfold activeCtx.
  by rewrite compositeAndRender_layers, compositeAndRender_activeLayerIndex.
Qed.

Lemma activeCtx_set_activeCanvas s cv cv' :
  activeCtx s = Some cv -> activeCtx (set_activeCanvas s cv') = Some cv'.
Proof.
  intros Hcv. destruct (activeCtx_lookup s cv Hcv) as (Hidx & l & Hl & _).
  unfold activeCtx, at_index, set_activeCanvas. simpl.
  destruct (Z.leb_spec 0 (activeLayerIndex s)); [|lia].
  by rewrite list_lookup_alter_eq, Hl.
Qed.

Lemma activeCtx_set_floatingSelection s v :
  activeCtx (set_floatingSelection s v) = activeCtx s.
Proof. done. Qed.

Lemma activeCtx_set_lassoImageData s v :
  activeCtx (set_lassoImageData s v) = activeCtx s.
Proof. done. Qed.

Lemma activeCtx_set_lassoMask s v : activeCtx (set_lassoMask s v) = activeCtx s.
Proof. done. Qed.

Lemma activeCtx_set_lassoBounds s v : activeCtx (set_lassoBounds s v) = activeCtx s.
Proof. done. Qed.

Lemma activeCtx_clearLassoSelection s : activeCtx (clearLassoSelection s) = activeCtx s.
Proof. done. Qed.

(** The selection rectangle spans its two corners, whichever was set
    first. *)
Lemma getSelectionRect_spans u x y :
  inRect (getSelectionRect u) x y <->
  Z.min (selectionStartX u) (selectionEndX u) <= x
    <= Z.max (selectionStartX u) (selectionEndX u) /\
  Z.min (selectionStartY u) (selectionEndY u) <= y
    <= Z.max (selectionStartY u) (selectionEndY u).
Proof. unfold inRect, getSelectionRect. simpl. lia. Qed.

Lemma isInsideSelection_marked s u x y :
  floatingSelection s = None -> hasSelection u = true ->
  isInsideSelection s u x y = true <-> inRect (getSelectionRect u) x y.
Proof.
  intros Hf Hs. unfold isInsideSelection, inRect. rewrite Hf, Hs. simpl.
  rewrite !andb_true_iff, !Z.leb_le, !Z.ltb_lt. lia.
Qed.

End SelectionLemmas.

Section SelectionGestures.
Context `{Compositing}.

(** X8: a dragged selection stays on the canvas: when the button goes down
    on a canvas pixel with nothing selected, then however far the pointer
    travels before the button goes up, the selection rectangle lies on the
    canvas, contains the pixel where the drag began and spans from there to
    the last pointer position clamped to the canvas; the layers are not
    touched; and a click without any movement selects nothing. *)
Theorem dragSelect_stays_on_canvas (s : EditorState) (u : ToolState) (x0 y0 : Z)
    (moves : list (Z * Z)) :
  floatingSelection s = None ->
  hasSelection u = false ->
  isMovingSelection u = false ->
  0 <= x0 < canvasWidth s -> 0 <= y0 < canvasHeight s ->
  let '(s', u') := dragSelect s u x0 y0 moves in
  let rect := getSelectionRect u' in
  let '(xn, yn) := default (x0, y0) (last moves) in
  s' = s /\
  0 <= Rect.x rect /\ Rect.x rect + Rect.width rect <= canvasWidth s /\
  0 <= Rect.y rect /\ Rect.y rect + Rect.height rect <= canvasHeight s /\
  inRect rect x0 y0 /\
  inRect rect (Z.max 0 (Z.min (canvasWidth s - 1) xn))
              (Z.max 0 (Z.min (canvasHeight s - 1) yn)) /\
  isSelecting u' = false /\
  (hasSelection u' = true <-> 1 < Rect.width rect \/ 1 < Rect.height rect) /\
  (moves = [] -> hasSelection u' = false).
Proof.
  intros Hf Hs Hm Hx Hy. unfold dragSelect.
  assert (Hdown : handleMouseDown_select s u x0 y0 =
            (s, set_hasSelection (set_selection (set_isSelecting u true) x0 y0 x0 y0) false)).
  { unfold handleMouseDown_select. rewrite Hf, Hs. simpl.
    unfold commitFloatingSelection. rewrite Hf. by destruct (activeCtx s). }
  rewrite Hdown.
  set (clampX := λ x, Z.max 0 (Z.min (canvasWidth s - 1) x)).
  set (clampY := λ y, Z.max 0 (Z.min (canvasHeight s - 1) y)).
  assert (Hloop : forall u0,
    isSelecting u0 = true -> isMovingSelection u0 = false ->
    fold_left (λ su p, handleMouseMove_select su.1 su.2 p.1 p.2) moves (s, u0) =
      (s, match last moves with
          | Some (xn, yn) => set_selectionEnd u0 (clampX xn) (clampY yn)
          | None => u0
          end)).
  { induction moves as [|[x y] moves IH]; intros u0 Hsel Hmov; [done|].
    simpl. unfold handleMouseMove_select at 2. simpl. rewrite Hmov, Hsel.
    rewrite IH by done. f_equal.
    destruct moves as [|[x' y'] moves']; [done|].
    rewrite last_cons_cons.
    destruct (last (_ :: moves')) as [[? ?]|] eqn:E; [done|].
    by apply last_None in E. }
  rewrite Hloop by done.
  assert (Hup : forall ex ey, 0 <= ex < canvasWidth s -> 0 <= ey < canvasHeight s ->
    let u' := handleMouseUp_select
                (set_selectionEnd
                   (set_hasSelection
                      (set_selection (set_isSelecting u true) x0 y0 x0 y0) false) ex ey) in
    let rect := getSelectionRect u' in
    0 <= Rect.x rect /\ Rect.x rect + Rect.width rect <= canvasWidth s /\
    0 <= Rect.y rect /\ Rect.y rect + Rect.height rect <= canvasHeight s /\
    inRect rect x0 y0 /\ inRect rect ex ey /\
    isSelecting u' = false /\
    (hasSelection u' = true <-> 1 < Rect.width rect \/ 1 < Rect.height rect) /\
    (ex = x0 -> ey = y0 -> hasSelection u' = false)).
  { intros ex ey Hex Hey. unfold handleMouseUp_select, getSelectionRect, inRect. simpl.
    rewrite Hm. simpl.
    destruct ((1 <? Z.abs (ex - x0) + 1) || (1 <? Z.abs (ey - y0) + 1)) eqn:Hbig; simpl.
    - apply orb_true_iff in Hbig. rewrite !Z.ltb_lt in Hbig.
      split_and!; try lia; try done; try (intros -> ->; lia).
    - apply orb_false_iff in Hbig. rewrite !Z.ltb_ge in Hbig.
      split_and!; try lia; try done; try (split; [done|lia]). }
  destruct (last moves) as [[xn yn]|] eqn:Hlast.
  - destruct (Hup (clampX xn) (clampY yn)) as (? & ? & ? & ? & ? & ? & ? & ? & _);
      [unfold clampX; lia|unfold clampY; lia|].
    simpl. split_and!; try done. intros ->. done.
  - simpl.
    destruct (Hup x0 y0 Hx Hy) as (? & ? & ? & ? & ? & ? & ? & ? & Hclick).
    assert (Hsame : set_selectionEnd
              (set_hasSelection (set_selection (set_isSelecting u true) x0 y0 x0 y0) false)
              x0 y0 =
            set_hasSelection (set_selection (set_isSelecting u true) x0 y0 x0 y0) false)
      by done.
    rewrite Hsame in *.
    split_and!; try done; try (unfold inRect in *; lia). intros _. by apply Hclick.
Qed.

End SelectionGestures.


Section SelectionEdits.
Context `{Compositing}.

(** X9: cutting a marked rectangle is copying it and deleting it: on an
    active layer of the document's size with a rectangle marked and nothing
    floating, [cutSelection] leaves the document [deleteSelection] leaves
    and the clipboard [copySelection] fills; the clipboard holds the
    pixels of the rectangle as they were (transparent where the rectangle
    leaves the canvas), the layer is transparent inside the rectangle and
    unchanged outside, the other layers are untouched, and the mark is
    gone. *)
Theorem cutSelection_copies_then_clears (s : EditorState) (u : ToolState)
    (cv : ImageData.t) :
  activeCtx s = Some cv ->
  bitmap_ok (canvasWidth s) (canvasHeight s) cv ->
  floatingSelection s = None ->
  hasSelection u = true ->
  let rect := getSelectionRect u in
  let '(s', u') := cutSelection s u in
  s' = (deleteSelection s u).1 /\
  clipboard u' = clipboard (copySelection s u) /\
  hasSelection u' = false /\
  only_active_canvas_differs s s' /\
  exists cv' clip,
    activeCtx s' = Some cv' /\ clipboard u' = Some clip /\
    ImageData.width clip = Rect.width rect /\ ImageData.height clip = Rect.height rect /\
    (forall i j, 0 <= i < Rect.width rect -> 0 <= j < Rect.height rect ->
       getPixelColor clip i j =
         if decide (0 <= Rect.x rect + i < canvasWidth s /\
                    0 <= Rect.y rect + j < canvasHeight s)
         then getPixelColor cv (Rect.x rect + i) (Rect.y rect + j)
         else transparentBlack) /\
    (forall x y, 0 <= x < canvasWidth s -> 0 <= y < canvasHeight s ->
       getPixelColor cv' x y =
         if decide (inRect rect x y) then transparentBlack else getPixelColor cv x y).
Proof.
  intros Hcv Hok Hf Hs rect.
  unfold cutSelection, deleteSelection, copySelection. rewrite Hcv, Hf, Hs. simpl.
  fold rect.
  set (cleared := clearRectAt cv (Rect.x rect) (Rect.y rect) (Rect.width rect)
                    (Rect.height rect)).
  destruct (edit_active s cv cleared Hcv) as (Hact & Hframe & _).
  split_and!; try done.
  exists cleared, (getImageData cv (Rect.x rect) (Rect.y rect) (Rect.width rect)
                     (Rect.height rect)).
  split_and!; try done.
  - intros i j Hi Hj. rewrite getImageData_pixel by done.
    destruct Hok as (-> & -> & _). done.
  - intros x y Hx Hy. unfold cleared.
    by rewrite (clearRectAt_pixel (canvasWidth s) (canvasHeight s)).
Qed.

(** X10: a paste lands in the top-left corner: after [copySelection] of a
    marked rectangle, [pasteSelection] floats a copy of the rectangle's
    pixels at the origin of the canvas, wherever the rectangle was; the
    layers are not changed and the mark is dropped. *)
Theorem paste_floats_copy_at_origin (s : EditorState) (u : ToolState)
    (cv : ImageData.t) :
  activeCtx s = Some cv ->
  floatingSelection s = None ->
  hasSelection u = true ->
  let rect := getSelectionRect u in
  let '(s', u') := pasteSelection s (copySelection s u) in
  layers s' = layers s /\ undoStack s' = undoStack s /\
  hasSelection u' = false /\
  exists img,
    floatingSelection s' = Some (Floating.mk img 0 0) /\
    clipboard u' = Some img /\
    ImageData.width img = Rect.width rect /\ ImageData.height img = Rect.height rect /\
    forall i j, 0 <= i < Rect.width rect -> 0 <= j < Rect.height rect ->
      getPixelColor img i j =
        if decide (0 <= Rect.x rect + i < ImageData.width cv /\
                   0 <= Rect.y rect + j < ImageData.height cv)
        then getPixelColor cv (Rect.x rect + i) (Rect.y rect + j)
        else transparentBlack.
Proof.
  intros Hcv Hf Hs rect.
  unfold pasteSelection, copySelection. rewrite Hcv, Hf, Hs. simpl. fold rect.
  unfold commitFloatingSelection. rewrite Hcv, Hf. simpl.
  split_and!; try done.
  eexists. split; [reflexivity|]. unfold cloneImageData. simpl.
  split_and!; try done.
  intros i j Hi Hj.
  exact (getImageData_pixel cv (Rect.x rect) (Rect.y rect) (Rect.width rect)
           (Rect.height rect) i j Hi Hj).
Qed.

(** X11: moving a marked rectangle: the button goes down at [(x, y)]
    inside the mark, the pointer moves to [(x', y')], and the floating
    selection is committed. The rectangle's pixels are lifted out of the
    layer, leaving it transparent there, and are then written over the
    layer at the rectangle displaced by [(x' - x, y' - y)]: every pixel of
    the displaced rectangle is replaced, also by the transparent pixels of
    the lifted image, and what falls outside the canvas is dropped. Without
    a displacement the layer is as it was. *)
Theorem move_selection_overwrites_target (s : EditorState) (u : ToolState)
    (cv : ImageData.t) (x y x' y' : Z) :
  activeCtx s = Some cv ->
  bitmap_ok (canvasWidth s) (canvasHeight s) cv ->
  floatingSelection s = None ->
  hasSelection u = true ->
  inRect (getSelectionRect u) x y ->
  let rect := getSelectionRect u in
  let '(s1, u1) := handleMouseDown_select s u x y in
  let '(s2, u2) := handleMouseMove_select s1 u1 x' y' in
  let s3 := commitFloatingSelection s2 in
  let moved := Rect.mk (Rect.x rect + (x' - x)) (Rect.y rect + (y' - y))
                 (Rect.width rect) (Rect.height rect) in
  floatingSelection s2 =
    Some (Floating.mk (getImageData cv (Rect.x rect) (Rect.y rect)
                         (Rect.width rect) (Rect.height rect))
            (Rect.x moved) (Rect.y moved)) /\
  floatingSelection s3 = None /\
  exists cv3,
    activeCtx s3 = Some cv3 /\
    (forall px py, 0 <= px < canvasWidth s -> 0 <= py < canvasHeight s ->
       getPixelColor cv3 px py =
         if decide (inRect moved px py) then
           if decide (0 <= px - (x' - x) < canvasWidth s /\
                      0 <= py - (y' - y) < canvasHeight s)
           then getPixelColor cv (px - (x' - x)) (py - (y' - y))
           else transparentBlack
         else if decide (inRect rect px py) then transparentBlack
         else getPixelColor cv px py) /\
    (x' = x -> y' = y -> cv3 = cv).
Proof.
  intros Hcv Hok Hf Hs Hin rect.
  assert (Hinside : isInsideSelection s u x y = true)
    by (by apply isInsideSelection_marked).
  unfold handleMouseDown_select. rewrite Hf, Hs, Hinside, Hcv. cbn [andb].
  fold rect in Hin |- *. clearbody rect.
  set (R := getImageData cv (Rect.x rect) (Rect.y rect) (Rect.width rect)
              (Rect.height rect)).
  set (cleared := clearRectAt cv (Rect.x rect) (Rect.y rect) (Rect.width rect)
                    (Rect.height rect)).
  set (s1 := compositeAndRender _).
  assert (Hf1 : floatingSelection s1 = Some (Floating.mk R (Rect.x rect) (Rect.y rect))).
  { unfold s1.
    match goal with
    | |- floatingSelection (compositeAndRender ?t) = _ =>
        destruct (compositeAndRender_lasso t) as (_ & _ & _ & _ & ->)
    end. done. }
  assert (Hcv1 : activeCtx s1 = Some cleared).
  { unfold s1. rewrite activeCtx_compositeAndRender, activeCtx_set_floatingSelection.
    apply (activeCtx_set_activeCanvas _ cv). by rewrite activeCtx_saveState. }
  assert (Hsz1 : canvasWidth s1 = canvasWidth s /\ canvasHeight s1 = canvasHeight s).
  { unfold s1.
    match goal with
    | |- canvasWidth (compositeAndRender ?t) = _ /\ _ =>
        destruct (compositeAndRender_size t) as [-> ->]
    end. simpl. by destruct (saveState_frame s) as (_ & _ & -> & -> & _). }
  unfold handleMouseMove_select. simpl. rewrite Hf1. simpl.
  set (fx := x' - (x - Rect.x rect)). set (fy := y' - (y - Rect.y rect)).
  set (s2 := set_floatingSelection s1 _).
  assert (Hcv2 : activeCtx s2 = Some cleared)
    by (unfold s2; by rewrite activeCtx_set_floatingSelection).
  split; [unfold fx, fy; do 2 f_equal; lia|].
  unfold commitFloatingSelection. rewrite Hcv2. simpl.
  set (written := putImageData cleared R fx fy).
  match goal with
  | |- floatingSelection (compositeAndRender ?t) = _ /\ _ =>
      destruct (compositeAndRender_lasso t) as (_ & _ & _ & _ & ->)
  end.
  split; [done|]. exists written.
  assert (Hcleared : bitmap_ok (canvasWidth s) (canvasHeight s) cleared)
    by (by apply clearRectAt_ok).
  assert (Hpix : forall px py, 0 <= px < canvasWidth s -> 0 <= py < canvasHeight s ->
    getPixelColor written px py =
      if decide (inRect (Rect.mk (Rect.x rect + (x' - x)) (Rect.y rect + (y' - y))
                           (Rect.width rect) (Rect.height rect)) px py) then
        if decide (0 <= px - (x' - x) < canvasWidth s /\
                   0 <= py - (y' - y) < canvasHeight s)
        then getPixelColor cv (px - (x' - x)) (py - (y' - y))
        else transparentBlack
      else if decide (inRect rect px py) then transparentBlack
      else getPixelColor cv px py).
  { intros px py Hpx Hpy. unfold written.
    rewrite (putImageData_pixel (canvasWidth s) (canvasHeight s)) by done.
    unfold inRect. simpl. unfold fx, fy.
    pose proof Hok as (Hw & Hh & _).
    case_decide as Hd1; case_decide as Hd2; try lia.
    - unfold R. rewrite getImageData_pixel by lia. rewrite Hw, Hh.
      replace (Rect.x rect + (px - (x' - (x - Rect.x rect)))) with (px - (x' - x)) by lia.
      replace (Rect.y rect + (py - (y' - (y - Rect.y rect)))) with (py - (y' - y)) by lia.
      done.
    - unfold cleared.
      by rewrite (clearRectAt_pixel (canvasWidth s) (canvasHeight s)). }
  split_and!.
  - rewrite activeCtx_compositeAndRender, activeCtx_set_floatingSelection.
    apply (activeCtx_set_activeCanvas _ cleared). by rewrite activeCtx_saveState.
  - exact Hpix.
  - intros -> ->. apply (bitmap_ext (canvasWidth s) (canvasHeight s)); try done.
    + by apply putImageData_ok.
    + intros px py Hpx Hpy. rewrite Hpix by done. unfold inRect. simpl.
      rewrite !Z.sub_diag, !Z.add_0_r, !Z.sub_0_r.
      repeat case_decide; try done; lia.
Qed.

End SelectionEdits.


(** ** Lasso engine: what is erased and what is carried *)

Lemma maskAt_tabulate W Ht (f : Z -> Z -> bool) x y :
  maskAt (tabulate (Z.to_nat Ht) (λ y, tabulate (Z.to_nat W) (λ x, f x y))) x y =
    if decide (0 <= x < W /\ 0 <= y < Ht) then f x y else false.
Proof.
  unfold maskAt. rewrite at_index_tabulate. case_decide as Hy.
  - rewrite at_index_tabulate. case_decide as Hx; simpl.
    + rewrite decide_True by lia. done.
    + rewrite decide_False by lia. done.
  - rewrite decide_False by lia. done.
Qed.

Lemma lassoBox_fold points bb :
  let acc := fold_left
    (λ bb point,
       Bounds.mk (Z.min (Bounds.minX bb) (Point.x point))
                 (Z.min (Bounds.minY bb) (Point.y point))
                 (Z.max (Bounds.maxX bb) (Point.x point))
                 (Z.max (Bounds.maxY bb) (Point.y point)))
    points bb in
  Bounds.minX acc <= Bounds.minX bb /\ Bounds.minY acc <= Bounds.minY bb /\
  Bounds.maxX bb <= Bounds.maxX acc /\ Bounds.maxY bb <= Bounds.maxY acc /\
  (points <> [] ->
   Bounds.minX acc <= Bounds.maxX acc /\ Bounds.minY acc <= Bounds.maxY acc).
Proof.
  revert bb. induction points as [|p points IH]; intros bb; simpl; [by split_and!|].
  specialize (IH (Bounds.mk (Z.min (Bounds.minX bb) (Point.x p))
                            (Z.min (Bounds.minY bb) (Point.y p))
                            (Z.max (Bounds.maxX bb) (Point.x p))
                            (Z.max (Bounds.maxY bb) (Point.y p)))).
  simpl in IH. destruct IH as (H1 & H2 & H3 & H4 & _). split_and!; try lia.
Qed.

(** The clamped bounding box lies on the canvas and is not inside out. *)
Lemma lassoBox_on_canvas W Ht points :
  points <> [] -> 1 <= W -> 1 <= Ht ->
  let bb := lassoBox W Ht points in
  0 <= Bounds.minX bb /\ Bounds.maxX bb <= W - 1 /\
  0 <= Bounds.minY bb /\ Bounds.maxY bb <= Ht - 1 /\
  0 <= Bounds.maxX bb - Bounds.minX bb + 1 /\
  0 <= Bounds.maxY bb - Bounds.minY bb + 1.
Proof.
  intros Hne HW HH. unfold lassoBox.
  pose proof (lassoBox_fold points (Bounds.mk W Ht 0 0)) as Hf. cbv zeta in Hf.
  destruct Hf as (H1 & H2 & H3 & H4 & H5). specialize (H5 Hne). simpl in *. lia.
Qed.

Lemma clearMasked_pixel W Ht mask bb img :
  bitmap_ok W Ht img ->
  0 <= Bounds.minX bb -> Bounds.maxX bb <= W - 1 ->
  bitmap_ok W Ht (clearMasked W mask bb img) /\
  forall x y, 0 <= x < W -> 0 <= y < Ht ->
    getPixelColor (clearMasked W mask bb img) x y =
      if decide (inBounds bb x y /\ maskAt mask x y = true)
      then transparentBlack else getPixelColor img x y.
Proof.
  intros Hok Hlo Hhi. unfold clearMasked.
  set (xs := seqZ (Bounds.minX bb) (Bounds.maxX bb - Bounds.minX bb + 1)).
  set (ys := seqZ (Bounds.minY bb) (Bounds.maxY bb - Bounds.minY bb + 1)).
  rewrite (fold_grid (λ img x y,
    if maskAt mask x y then
      let idx := (y * W + x) * 4 in
      ImageData.mk (ImageData.width img) (ImageData.height img)
        (storeByte (storeByte (storeByte (storeByte
           (ImageData.data img) idx 0) (idx + 1) 0) (idx + 2) 0) (idx + 3) 0)
    else img)).
  cbv beta.
  destruct (fold_pixels (λ p : Z * Z, p)
    (λ img p, if maskAt mask p.1 p.2 then
      let idx := (p.2 * W + p.1) * 4 in
      ImageData.mk (ImageData.width img) (ImageData.height img)
        (storeByte (storeByte (storeByte (storeByte
           (ImageData.data img) idx 0) (idx + 1) 0) (idx + 2) 0) (idx + 3) 0)
    else img)
    (λ p c, if maskAt mask p.1 p.2 then transparentBlack else c)
    W Ht (grid xs ys)) with img as [Hok' Hpix]; try done.
  - rewrite list_fmap_id. apply NoDup_grid; apply NoDup_seqZ.
  - intros im [px py] Hp Him. apply elem_of_grid in Hp as [Hpx Hpy].
    apply elem_of_seqZ in Hpx, Hpy. simpl.
    destruct (maskAt mask px py) eqn:Hm.
    + assert (Hset : ImageData.mk (ImageData.width im) (ImageData.height im)
        (storeByte (storeByte (storeByte (storeByte
           (ImageData.data im) ((py * W + px) * 4) 0) ((py * W + px) * 4 + 1) 0)
           ((py * W + px) * 4 + 2) 0) ((py * W + px) * 4 + 3) 0)
        = setPixelColor im px py transparentBlack).
      { unfold setPixelColor. destruct Him as (-> & _). done. }
      rewrite Hset. split; [by apply setPixelColor_ok|]. intros x y Hx Hy.
      case_decide as E.
      * injection E as -> ->. simpl. rewrite ?Hm.
        rewrite getPixelColor_setPixelColor_clamp by (by apply (pixel_stored_ok W Ht)).
        done.
      * apply (getPixelColor_setPixelColor_ne W Ht); (done || lia).
    + split; [done|]. intros x y Hx Hy. case_decide as E; [|done].
      injection E as -> ->. simpl. by rewrite ?Hm.
  - split; [done|]. intros x y Hx Hy. destruct (Hpix x y Hx Hy) as [Hin Hout].
    unfold inBounds. case_decide as Hd.
    + destruct Hd as [[Hbx Hby] Hm].
      assert (Hg : (x, y) ∈ grid xs ys)
        by (apply elem_of_grid; split; apply elem_of_seqZ; lia).
      etransitivity; [exact (Hin (x, y) Hg eq_refl)|]. simpl. by rewrite Hm.
    + destruct (decide ((x, y) ∈ grid xs ys)) as [Hg|Hg].
      * etransitivity; [exact (Hin (x, y) Hg eq_refl)|]. simpl.
        destruct (maskAt mask x y) eqn:Hm; [|done]. exfalso. apply Hd.
        apply elem_of_grid in Hg as [Hgx Hgy]. apply elem_of_seqZ in Hgx, Hgy.
        split; [lia|done].
      * apply Hout. by rewrite list_fmap_id.
Qed.

Section LassoLemmas.
Context `{Compositing}.

(** What [extractLassoSelection] copies. *)
Lemma extractLassoSelection_pixel s cv mask bb :
  activeCtx s = Some cv -> lassoMask s = Some mask -> lassoBounds s = Some bb ->
  0 <= Bounds.maxX bb - Bounds.minX bb + 1 ->
  0 <= Bounds.maxY bb - Bounds.minY bb + 1 ->
  exists extracted,
    extractLassoSelection s = set_lassoImageData s (Some extracted) /\
    bitmap_ok (Bounds.maxX bb - Bounds.minX bb + 1) (Bounds.maxY bb - Bounds.minY bb + 1)
      extracted /\
    forall i j, 0 <= i < Bounds.maxX bb - Bounds.minX bb + 1 ->
                0 <= j < Bounds.maxY bb - Bounds.minY bb + 1 ->
      getPixelColor extracted i j =
        if maskAt mask (Bounds.minX bb + i) (Bounds.minY bb + j)
        then clampColor
               (if decide (0 <= Bounds.minX bb + i < ImageData.width cv /\
                           0 <= Bounds.minY bb + j < ImageData.height cv)
                then getPixelColor cv (Bounds.minX bb + i) (Bounds.minY bb + j)
                else transparentBlack)
        else transparentBlack.
Proof.
  intros Hcv Hmask Hbb Hw Hh. unfold extractLassoSelection. rewrite Hcv, Hmask, Hbb.
  set (width := Bounds.maxX bb - Bounds.minX bb + 1) in *.
  set (height := Bounds.maxY bb - Bounds.minY bb + 1) in *.
  set (sourceData := getImageData cv (Bounds.minX bb) (Bounds.minY bb) width height).
  set (newData := ImageData.mk width height (replicate (Z.to_nat (4 * width * height)) 0)).
  eexists. split; [reflexivity|].
  assert (Hnew : bitmap_ok width height newData).
  { unfold bitmap_ok, newData. simpl. rewrite length_replicate. split_and!; try done. nia. }
  rewrite (fold_grid (λ img x y,
    if maskAt mask (Bounds.minX bb + x) (Bounds.minY bb + y) then
      let srcIdx := (y * width + x) * 4 in
      let src := ImageData.data sourceData in
      ImageData.mk (ImageData.width img) (ImageData.height img)
        (storeByte (storeByte (storeByte (storeByte (ImageData.data img)
           srcIdx (byteAt src srcIdx))
           (srcIdx + 1) (byteAt src (srcIdx + 1)))
           (srcIdx + 2) (byteAt src (srcIdx + 2)))
           (srcIdx + 3) (byteAt src (srcIdx + 3)))
    else img)).
  cbv beta.
  destruct (fold_pixels (λ p : Z * Z, p)
    (λ img p,
      if maskAt mask (Bounds.minX bb + p.1) (Bounds.minY bb + p.2) then
        let srcIdx := (p.2 * width + p.1) * 4 in
        let src := ImageData.data sourceData in
        ImageData.mk (ImageData.width img) (ImageData.height img)
          (storeByte (storeByte (storeByte (storeByte (ImageData.data img)
             srcIdx (byteAt src srcIdx))
             (srcIdx + 1) (byteAt src (srcIdx + 1)))
             (srcIdx + 2) (byteAt src (srcIdx + 2)))
             (srcIdx + 3) (byteAt src (srcIdx + 3)))
      else img)
    (λ p c, if maskAt mask (Bounds.minX bb + p.1) (Bounds.minY bb + p.2)
            then clampColor (getPixelColor sourceData p.1 p.2) else c)
    width height (grid (seqZ 0 width) (seqZ 0 height))) with newData as [Hok' Hpix];
    try done.
  - rewrite list_fmap_id. apply NoDup_grid; apply NoDup_seqZ.
  - intros im [px py] Hp Him. apply elem_of_grid in Hp as [Hpx Hpy].
    apply elem_of_seqZ in Hpx, Hpy. simpl.
    destruct (maskAt mask (Bounds.minX bb + px) (Bounds.minY bb + py)) eqn:Hm.
    + match goal with
      | |- bitmap_ok _ _ ?t /\ _ =>
          assert (Hset : t = setPixelColor im px py (getPixelColor sourceData px py))
      end.
      { unfold setPixelColor, getPixelColor. destruct Him as (-> & _). done. }
      rewrite Hset. split; [by apply setPixelColor_ok|]. intros x y Hx Hy.
      case_decide as E.
      * injection E as -> ->. simpl. rewrite ?Hm.
        by rewrite getPixelColor_setPixelColor_clamp
          by (by apply (pixel_stored_ok width height)).
      * apply (getPixelColor_setPixelColor_ne width height); (done || lia).
    + split; [done|]. intros x y Hx Hy. case_decide as E; [|done].
      injection E as -> ->. simpl. by rewrite ?Hm.
  - split; [done|]. intros i j Hi Hj. destruct (Hpix i j Hi Hj) as [Hin _].
    assert (Hg : (i, j) ∈ grid (seqZ 0 width) (seqZ 0 height))
      by (apply elem_of_grid; split; apply elem_of_seqZ; lia).
    etransitivity; [exact (Hin (i, j) Hg eq_refl)|]. simpl.
    destruct (maskAt mask _ _); [|apply getPixelColor_blank].
    unfold sourceData. by rewrite getImageData_pixel by done.
Qed.

Lemma getPixelColor_bytes img x y : bytes_ok img -> color_ok (getPixelColor img x y).
Proof.
  intros Hb.
  assert (Hk : forall i, byte_ok (byteAt (ImageData.data img) i)).
  { intros i. unfold byteAt, at_index. destruct (0 <=? i); [|by unfold byte_ok].
    destruct (ImageData.data img !! Z.to_nat i) as [v|] eqn:E; [|by unfold byte_ok].
    by apply (Forall_lookup_1 _ _ _ _ Hb E). }
  unfold getPixelColor, color_ok. simpl. by split_and!.
Qed.

End LassoLemmas.


Section LassoGestures.
Context `{Compositing}.

Lemma only_active_canvas_differs_ext s s' s'' :
  layers s'' = layers s' -> activeLayerIndex s'' = activeLayerIndex s' ->
  only_active_canvas_differs s s' -> only_active_canvas_differs s s''.
Proof. unfold only_active_canvas_differs. by intros -> ->. Qed.

(** The state the release of the button leaves after a stroke of three
    points or more. *)
Lemma lasso_finalized s0 cv :
  3 <= Z.of_nat (length (lassoPoints s0)) ->
  activeCtx s0 = Some cv ->
  1 <= canvasWidth s0 -> 1 <= canvasHeight s0 ->
  let bb := lassoBox (canvasWidth s0) (canvasHeight s0) (lassoPoints s0) in
  exists mask extracted,
    extractLassoSelection (createLassoMask s0) =
      set_lassoImageData (set_lassoMask (set_lassoBounds s0 (Some bb)) (Some mask))
        (Some extracted) /\
    (forall x y, maskAt mask x y = true <-> lassoed s0 x y) /\
    (0 <= Bounds.minX bb /\ Bounds.maxX bb <= canvasWidth s0 - 1 /\
     0 <= Bounds.minY bb /\ Bounds.maxY bb <= canvasHeight s0 - 1 /\
     0 <= Bounds.maxX bb - Bounds.minX bb + 1 /\
     0 <= Bounds.maxY bb - Bounds.minY bb + 1).
Proof.
  intros Hn Hcv HW HH bb.
  assert (Hne : lassoPoints s0 <> []) by (destruct (lassoPoints s0); simpl in *; [lia|done]).
  pose proof (lassoBox_on_canvas (canvasWidth s0) (canvasHeight s0) (lassoPoints s0)
                Hne HW HH) as Hbox.
  cbv zeta in Hbox. fold bb in Hbox.
  unfold createLassoMask. destruct (Z.ltb_spec (Z.of_nat (length (lassoPoints s0))) 3); [lia|].
  cbv zeta. fold bb.
  set (mask := tabulate _ _).
  set (s := set_lassoMask _ _).
  destruct (extractLassoSelection_pixel s cv mask bb) as (extracted & Hex & _);
    try done; try lia.
  exists mask, extracted. split; [done|]. split; [|done].
  intros x y. unfold mask. rewrite maskAt_tabulate. unfold lassoed, inBounds. fold bb.
  case_decide as Hin.
  - destruct ((Bounds.minX bb <=? x) && (x <=? Bounds.maxX bb) &&
              (Bounds.minY bb <=? y) && (y <=? Bounds.maxY bb)) eqn:Hb.
    + rewrite !andb_true_iff, !Z.leb_le in Hb. split; [|by intros [_ ?]].
      intros Hp. split; [lia|done].
    + split; [done|]. intros [Hbb _]. exfalso. revert Hb. case_compare; simpl; (done || lia).
  - split; [done|]. intros [Hbb _]. lia.
Qed.

Lemma handleMouseUp_lasso_finalizes s0 u :
  isMovingSelection u = false -> isLassoing u = true ->
  3 <= Z.of_nat (length (lassoPoints s0)) ->
  handleMouseUp_lasso s0 u =
    (extractLassoSelection (createLassoMask s0), set_isLassoing u false).
Proof.
  intros Hm Hl Hn. unfold handleMouseUp_lasso. rewrite Hm, Hl.
  by destruct (Z.leb_spec 3 (Z.of_nat (length (lassoPoints s0)))); [|lia].
Qed.

(** X12: deleting the lasso selection erases what the lasso holds and
    nothing else: after the button is released on a stroke of three points
    or more, on an active layer of the document's size, [deleteLassoSelection] makes a
    pixel of the layer transparent when it lies inside the polygon of the
    points and inside their bounding box clamped to the canvas, and leaves
    every other pixel and every other layer as they were; the lasso,
    points included, is then cleared. *)
Theorem deleteLassoSelection_erases_polygon (s0 : EditorState) (u : ToolState)
    (cv : ImageData.t) :
  isLassoing u = true -> isMovingSelection u = false ->
  3 <= Z.of_nat (length (lassoPoints s0)) ->
  activeCtx s0 = Some cv ->
  bitmap_ok (canvasWidth s0) (canvasHeight s0) cv ->
  1 <= canvasWidth s0 -> 1 <= canvasHeight s0 ->
  let s' := deleteLassoSelection (handleMouseUp_lasso s0 u).1 in
  only_active_canvas_differs s0 s' /\
  lassoPoints s' = [] /\ lassoMask s' = None /\ lassoBounds s' = None /\
  lassoImageData s' = None /\
  exists cv',
    activeCtx s' = Some cv' /\
    forall x y, 0 <= x < canvasWidth s0 -> 0 <= y < canvasHeight s0 ->
      getPixelColor cv' x y =
        if decide (lassoed s0 x y) then transparentBlack else getPixelColor cv x y.
Proof.
  intros Hlas Hmov Hn Hcv Hok HW HH.
  rewrite (handleMouseUp_lasso_finalizes s0 u Hmov Hlas Hn). cbn [fst].
  destruct (lasso_finalized s0 cv Hn Hcv HW HH) as (mask & extracted & -> & Hmask & Hbox).
  set (bb := lassoBox (canvasWidth s0) (canvasHeight s0) (lassoPoints s0)) in *.
  set (s := set_lassoImageData _ _).
  assert (Hcvs : activeCtx s = Some cv) by done.
  unfold deleteLassoSelection. rewrite Hcvs. simpl.
  rewrite (getImageData_whole _ _ cv Hok).
  destruct (clearMasked_pixel (canvasWidth s0) (canvasHeight s0) mask bb cv Hok)
    as [Hcleared Hpix]; [lia..|].
  set (cleared := clearMasked (canvasWidth s0) mask bb cv) in *.
  rewrite (putImageData_whole _ _ cv cleared Hok Hcleared).
  match goal with
  | |- _ /\ lassoPoints (compositeAndRender ?t) = _ /\ _ =>
      destruct (compositeAndRender_lasso t) as (-> & -> & -> & -> & _)
  end.
  split_and!; try done.
  - destruct (edit_active s0 cv cleared Hcv) as (_ & Hframe & _).
    eapply only_active_canvas_differs_ext; [| |exact Hframe].
    + rewrite !compositeAndRender_layers. simpl.
      destruct (saveState_frame s) as (-> & -> & _).
      destruct (saveState_frame s0) as (-> & -> & _). done.
    + rewrite !compositeAndRender_activeLayerIndex. simpl.
      destruct (saveState_frame s) as (_ & -> & _).
      destruct (saveState_frame s0) as (_ & -> & _). done.
  - exists cleared. split.
    + rewrite activeCtx_compositeAndRender, activeCtx_clearLassoSelection.
      apply (activeCtx_set_activeCanvas _ cv). by rewrite activeCtx_saveState.
    + intros x y Hx Hy. rewrite Hpix by done.
      destruct (decide (lassoed s0 x y)) as [Hl|Hl].
      * rewrite decide_True; [done|]. split; [apply Hl|by apply Hmask].
      * rewrite decide_False; [done|]. intros [_ Hm]. by apply Hl, Hmask.
Qed.

End LassoGestures.


Section LassoMove.
Context `{Compositing}.

(** X13: moving a lasso selection carries its bounding box along: after
    the button is released on a stroke of three points or more, on an active
    layer of the document's size, the button goes down at [(x, y)] inside the lasso, the pointer moves to
    [(x', y')], and the floating selection is committed. The lassoed pixels
    are lifted out of the layer and written back displaced by
    [(x' - x, y' - y)], but the write covers the whole displaced bounding
    box: a pixel of that box that no lassoed pixel lands on becomes
    transparent. Committed where it was lifted, the selection therefore
    erases the pixels of the bounding box that lie outside the polygon. *)
Theorem move_lasso_overwrites_bounding_box (s0 : EditorState) (u0 : ToolState)
    (cv : ImageData.t) (x y x' y' : Z) :
  isLassoing u0 = true -> isMovingSelection u0 = false ->
  3 <= Z.of_nat (length (lassoPoints s0)) ->
  activeCtx s0 = Some cv ->
  bitmap_ok (canvasWidth s0) (canvasHeight s0) cv ->
  bytes_ok cv ->
  1 <= canvasWidth s0 -> 1 <= canvasHeight s0 ->
  floatingSelection s0 = None ->
  lassoed s0 x y ->
  let bb := lassoBox (canvasWidth s0) (canvasHeight s0) (lassoPoints s0) in
  let '(s, u) := handleMouseUp_lasso s0 u0 in
  let '(s1, u1) := handleMouseDown_lasso s u x y in
  let s2 := handleMouseMove_lasso s1 u1 x' y' in
  let s3 := commitFloatingSelection s2 in
  floatingSelection s3 = None /\
  exists cv3,
    activeCtx s3 = Some cv3 /\
    (forall px py, 0 <= px < canvasWidth s0 -> 0 <= py < canvasHeight s0 ->
       getPixelColor cv3 px py =
         if decide (inBounds bb (px - (x' - x)) (py - (y' - y))) then
           if decide (lassoed s0 (px - (x' - x)) (py - (y' - y)))
           then getPixelColor cv (px - (x' - x)) (py - (y' - y))
           else transparentBlack
         else if decide (lassoed s0 px py) then transparentBlack
         else getPixelColor cv px py) /\
    (x' = x -> y' = y ->
     forall px py, inBounds bb px py -> ~ lassoed s0 px py ->
       getPixelColor cv3 px py = transparentBlack).
Proof.
  intros Hlas Hmov Hn Hcv Hok Hbytes HW HH Hf Hxy bb.
  rewrite (handleMouseUp_lasso_finalizes s0 u0 Hmov Hlas Hn).
  set (u := set_isLassoing u0 false).
  destruct (lasso_finalized s0 cv Hn Hcv HW HH) as (mask & extracted & Hfin & Hmask & Hbox).
  fold bb in Hfin, Hbox. rewrite Hfin.
  set (s := set_lassoImageData _ _).
  assert (Hcvs : activeCtx s = Some cv) by done.
  assert (Hinside : isInsideLassoSelection s x y = true).
  { unfold isInsideLassoSelection. simpl. rewrite Hf. by apply Hmask. }
  destruct (extractLassoSelection_pixel s cv mask bb) as (ex & Hex & Hexok & Hexpix);
    try done; try lia.
  unfold handleMouseDown_lasso. simpl. rewrite Hf, Hinside. rewrite Hex.
  set (se := set_lassoImageData s (Some ex)).
  assert (Hcve : activeCtx se = Some cv)
    by (unfold se; by rewrite activeCtx_set_lassoImageData).
  unfold moveLassoToFloating. rewrite Hcve. simpl.
  rewrite (getImageData_whole _ _ cv Hok).
  destruct (clearMasked_pixel (canvasWidth s0) (canvasHeight s0) mask bb cv Hok)
    as [Hcleared Hclpix]; [lia..|].
  set (cleared := clearMasked (canvasWidth s0) mask bb cv) in *.
  rewrite (putImageData_whole _ _ cv cleared Hok Hcleared).
  set (data := ImageData.mk (ImageData.width ex) (ImageData.height ex) (ImageData.data ex)).
  assert (Hdata : data = ex) by (by destruct ex).
  set (s1 := compositeAndRender _).
  assert (Hf1 : floatingSelection s1 =
                Some (Floating.mk data (Bounds.minX bb) (Bounds.minY bb))).
  { unfold s1.
    match goal with
    | |- floatingSelection (compositeAndRender ?t) = _ =>
        destruct (compositeAndRender_lasso t) as (_ & _ & _ & _ & ->)
    end. done. }
  assert (Hcv1 : activeCtx s1 = Some cleared).
  { unfold s1. rewrite activeCtx_compositeAndRender, activeCtx_set_lassoBounds,
      activeCtx_set_lassoImageData, activeCtx_set_lassoMask,
      activeCtx_set_floatingSelection.
    apply (activeCtx_set_activeCanvas _ cv). by rewrite activeCtx_saveState. }
  rewrite Hf1. simpl.
  unfold handleMouseMove_lasso. simpl. rewrite Hf1. simpl.
  set (fx := x' - (x - Bounds.minX bb)). set (fy := y' - (y - Bounds.minY bb)).
  set (s2 := set_floatingSelection s1 _).
  assert (Hcv2 : activeCtx s2 = Some cleared)
    by (unfold s2; by rewrite activeCtx_set_floatingSelection).
  unfold commitFloatingSelection. rewrite Hcv2. simpl.
  set (written := putImageData cleared data fx fy).
  match goal with
  | |- floatingSelection (compositeAndRender ?t) = _ /\ _ =>
      destruct (compositeAndRender_lasso t) as (_ & _ & _ & _ & ->)
  end.
  split; [done|]. exists written.
  assert (Hpix : forall px py, 0 <= px < canvasWidth s0 -> 0 <= py < canvasHeight s0 ->
    getPixelColor written px py =
      if decide (inBounds bb (px - (x' - x)) (py - (y' - y))) then
        if decide (lassoed s0 (px - (x' - x)) (py - (y' - y)))
        then getPixelColor cv (px - (x' - x)) (py - (y' - y))
        else transparentBlack
      else if decide (lassoed s0 px py) then transparentBlack
      else getPixelColor cv px py).
  { intros px py Hpx Hpy. unfold written.
    rewrite (putImageData_pixel (canvasWidth s0) (canvasHeight s0)) by done.
    rewrite Hdata. destruct Hexok as (Hew & Heh & _). rewrite Hew, Heh.
    pose proof Hok as (Hw & Hh & _).
    unfold inBounds, fx, fy.
    case_decide as Hd1; case_decide as Hd2; try lia.
    - rewrite Hexpix by lia.
      replace (Bounds.minX bb + (px - (x' - (x - Bounds.minX bb))))
        with (px - (x' - x)) by lia.
      replace (Bounds.minY bb + (py - (y' - (y - Bounds.minY bb))))
        with (py - (y' - y)) by lia.
      destruct (maskAt mask (px - (x' - x)) (py - (y' - y))) eqn:Hm.
      + destruct (decide (lassoed s0 (px - (x' - x)) (py - (y' - y)))) as [_|Hl];
          [|exfalso; by apply Hl, Hmask].
        rewrite decide_True by (rewrite Hw, Hh; lia).
        apply clampColor_ok, getPixelColor_bytes. done.
      + rewrite decide_False; [done|]. intros Hl. apply Hmask in Hl. congruence.
    - rewrite Hclpix by done.
      destruct (decide (lassoed s0 px py)) as [Hl|Hl].
      + rewrite decide_True; [done|]. split; [apply Hl|by apply Hmask].
      + rewrite decide_False; [done|]. intros [_ Hm]. by apply Hl, Hmask. }
  split_and!.
  - rewrite activeCtx_compositeAndRender, activeCtx_set_floatingSelection.
    apply (activeCtx_set_activeCanvas _ cleared). by rewrite activeCtx_saveState.
  - exact Hpix.
  - intros -> -> px py Hin Hout. unfold inBounds in Hin.
    rewrite Hpix by lia. rewrite !Z.sub_diag, !Z.sub_0_r.
    rewrite decide_True by done. by rewrite decide_False.
Qed.

(** X14: the lasso stroke records the pointer without stutter: when the
    button goes down at [(x0, y0)] outside any selection and the pointer
    passes through [moves], the recorded points are [(x0, y0)] followed by
    the positions passed, a position being skipped exactly when it repeats
    the point recorded last; so no two consecutive points of the stroke are
    equal, while a position visited again later is recorded again. *)
Theorem dragLasso_records_squeezed_path (s : EditorState) (u : ToolState) (x0 y0 : Z)
    (moves : list (Z * Z)) :
  floatingSelection s = None ->
  lassoMask s = None ->
  let '(s', u') := dragLasso s u x0 y0 moves in
  lassoPoints s' =
    (λ p, Point.mk p.1 p.2) <$> ((x0, y0) :: squeeze (x0, y0) moves) /\
  layers s' = layers s /\
  lassoMask s' = None /\
  isLassoing u' = true.
Proof.
  intros Hf Hm. unfold dragLasso, handleMouseDown_lasso. rewrite Hf, Hm.
  unfold commitFloatingSelection. rewrite Hf.
  assert (Hstart : (match activeCtx s with Some _ | _ => s end) = s)
    by (by destruct (activeCtx s)).
  rewrite Hstart. clear Hstart.
  set (u1 := set_isLassoing u true).
  set (s1 := set_lassoPoints (clearLassoSelection s) [Point.mk x0 y0]).
  assert (Hstep : forall st lx ly mx my,
    floatingSelection st = None -> last (lassoPoints st) = Some (Point.mk lx ly) ->
    handleMouseMove_lasso st u1 mx my =
      if bool_decide ((mx, my) = (lx, ly)) then st
      else set_lassoPoints st (lassoPoints st ++ [Point.mk mx my])).
  { intros st lx ly mx my Hfs Hlast. unfold handleMouseMove_lasso. rewrite Hfs, Hlast.
    assert (Hnone : (if isMovingSelection u1 then None else None) = @None Floating.t)
      by (by destruct (isMovingSelection u1)).
    rewrite Hnone. simpl. case_bool_decide as Heq.
    - injection Heq as -> ->. by rewrite !Z.eqb_refl.
    - destruct (negb (lx =? mx) || negb (ly =? my)) eqn:Hdiff; [done|].
      exfalso. apply Heq. apply orb_false_iff in Hdiff as [Hx Hy].
      apply negb_false_iff, Z.eqb_eq in Hx, Hy. by subst. }
  assert (Hgen : forall st pre last_p,
    floatingSelection st = None -> lassoMask st = None -> layers st = layers s ->
    lassoPoints st = (λ p, Point.mk p.1 p.2) <$> (pre ++ [last_p]) ->
    let st' := fold_left (λ s' p, handleMouseMove_lasso s' u1 p.1 p.2) moves st in
    lassoPoints st' = (λ p, Point.mk p.1 p.2) <$> (pre ++ last_p :: squeeze last_p moves) /\
    layers st' = layers s /\ lassoMask st' = None).
  { clear s1. induction moves as [|[mx my] moves IH];
      intros st pre [lx ly] Hfs Hms Hls Hps.
    - simpl. by rewrite Hps.
    - assert (Hlast : last (lassoPoints st) = Some (Point.mk lx ly)).
      { rewrite Hps, fmap_app. simpl. apply last_snoc. }
      cbn [fold_left squeeze fst snd]. rewrite (Hstep st lx ly mx my Hfs Hlast).
      case_bool_decide as Heq; [by apply IH|].
      rewrite (cons_middle (lx, ly) pre), app_assoc.
      apply (IH (set_lassoPoints st (lassoPoints st ++ [Point.mk mx my]))
               (pre ++ [(lx, ly)]) (mx, my)); try done.
      simpl. by rewrite Hps, !fmap_app. }
  destruct (Hgen s1 [] (x0, y0)) as (Hp & Hl & Hmk); try done.
Qed.

End LassoMove.


(** ** Line rasterizer: the pixels of a line *)

Lemma nearestStep_climbs long short i :
  0 < long -> 0 <= short <= long ->
  0 <= nearestStep long short (i + 1) - nearestStep long short i <= 1.
Proof.
  intros Hl Hs.
  pose proof (nearestStep_bounds long short i Hl).
  pose proof (nearestStep_bounds long short (i + 1) Hl).
  nia.
Qed.

Lemma nearestLine_lookup x1 y1 x2 y2 (k : nat) p :
  nearestLine x1 y1 x2 y2 !! k = Some p ->
  let dx := Z.abs (x2 - x1) in
  let dy := Z.abs (y2 - y1) in
  let sx := if x1 <? x2 then 1 else -1 in
  let sy := if y1 <? y2 then 1 else -1 in
  let i := Z.of_nat k in
  0 <= i <= Z.max dx dy /\
  p = if dy <=? dx then (x1 + sx * i, y1 + sy * nearestStep dx dy i)
      else (x1 + sx * nearestStep dy dx i, y1 + sy * i).
Proof.
  unfold nearestLine. cbv zeta. rewrite list_lookup_fmap.
  destruct (seqZ 0 _ !! k) as [i|] eqn:E; [|done].
  apply lookup_seqZ in E as [-> Hk]. rewrite Z.add_0_l. intros [= <-].
  split; [lia|done].
Qed.

(** A pixel of the closed form, as steps from the first end point. *)
Lemma nearestLine_point x1 y1 x2 y2 (k : nat) p :
  nearestLine x1 y1 x2 y2 !! k = Some p ->
  let dx := Z.abs (x2 - x1) in
  let dy := Z.abs (y2 - y1) in
  let sx := if x1 <? x2 then 1 else -1 in
  let sy := if y1 <? y2 then 1 else -1 in
  exists a b, p = (x1 + sx * a, y1 + sy * b) /\ 0 <= a <= dx /\ 0 <= b <= dy /\
    (if dy <=? dx then a = Z.of_nat k /\ b = nearestStep dx dy a
     else b = Z.of_nat k /\ a = nearestStep dy dx b).
Proof.
  intros Hp dx dy sx sy. apply nearestLine_lookup in Hp. cbv zeta in Hp.
  fold dx dy sx sy in Hp. destruct Hp as [Hk ->].
  assert (Hdx : 0 <= dx) by (unfold dx; lia).
  assert (Hdy : 0 <= dy) by (unfold dy; lia).
  destruct (Z.leb_spec dy dx).
  - eexists _, _. split; [done|].
    destruct (decide (dx = 0)) as [E|Hne].
    + assert (Z.of_nat k = 0) as -> by lia. unfold nearestStep.
      rewrite E. simpl. rewrite Z.div_0_r. lia.
    + pose proof (nearestStep_bounds dx dy (Z.of_nat k) ltac:(lia)). split_and!; try lia; nia.
  - eexists _, _. split; [done|].
    pose proof (nearestStep_bounds dy dx (Z.of_nat k) ltac:(lia)). split_and!; try lia; nia.
Qed.

Lemma nearestLine_NoDup x1 y1 x2 y2 : NoDup (nearestLine x1 y1 x2 y2).
Proof.
  apply NoDup_alt. intros i j p Hi Hj.
  destruct (nearestLine_point _ _ _ _ i p Hi) as (a & b & -> & _ & _ & Hab).
  destruct (nearestLine_point _ _ _ _ j _ Hj) as (a' & b' & Heq & _ & _ & Hab').
  injection Heq as Hxe Hye.
  assert (Hsx1 : (if x1 <? x2 then 1 else -1) = 1 \/ (if x1 <? x2 then 1 else -1) = -1)
    by (case_compare; lia).
  assert (Hsy1 : (if y1 <? y2 then 1 else -1) = 1 \/ (if y1 <? y2 then 1 else -1) = -1)
    by (case_compare; lia).
  destruct (Z.abs (y2 - y1) <=? Z.abs (x2 - x1)); destruct Hab as [-> ->], Hab' as [-> ->]; nia.
Qed.

(** X15: the line tool's stepping loop ends, and it visits the line in
    closed form: within [dx + dy + 1] turns the loop of [drawLinePixels]
    reaches the end point, having visited, in order, one pixel for each
    step along the longer axis of the line, at the position of the ideal
    line rounded to the nearest pixel on the other axis. *)
Theorem drawLinePixels_visits_nearest_pixels (x1 y1 x2 y2 : Z) (fuel : nat) :
  (lineFuel x1 y1 x2 y2 <= fuel)%nat ->
  lineSteps fuel x1 y1 x2 y2 = Some (nearestLine x1 y1 x2 y2) /\
  Z.of_nat (length (nearestLine x1 y1 x2 y2)) =
    Z.max (Z.abs (x2 - x1)) (Z.abs (y2 - y1)) + 1.
Proof.
  intros Hfuel. split; [by apply lineSteps_nearestLine|].
  unfold nearestLine. cbv zeta. rewrite length_fmap, length_seqZ. lia.
Qed.

(** X16: a line is a chain of touching pixels from end to end: the pixels
    [drawLinePixels] visits start at the first end point and finish at the
    second; each one touches the next by a side or a corner; every one lies
    in the rectangle the end points span; and none is visited twice, so
    that a line drawn at partial opacity blends each of its pixels once. *)
Theorem drawLinePixels_is_connected_path (x1 y1 x2 y2 : Z) :
  exists pts,
    lineSteps (lineFuel x1 y1 x2 y2) x1 y1 x2 y2 = Some pts /\
    head pts = Some (x1, y1) /\ last pts = Some (x2, y2) /\
    NoDup pts /\
    (forall k p q, pts !! k = Some p -> pts !! S k = Some q -> adjacent8 p q) /\
    (forall p, p ∈ pts ->
       Z.min x1 x2 <= p.1 <= Z.max x1 x2 /\ Z.min y1 y2 <= p.2 <= Z.max y1 y2).
Proof.
  exists (nearestLine x1 y1 x2 y2).
  split; [by apply lineSteps_nearestLine|].
  set (dx := Z.abs (x2 - x1)). set (dy := Z.abs (y2 - y1)).
  set (sx := if x1 <? x2 then 1 else -1). set (sy := if y1 <? y2 then 1 else -1).
  assert (Hsx : sx * dx = x2 - x1) by (unfold sx, dx; case_compare; lia).
  assert (Hsy : sy * dy = y2 - y1) by (unfold sy, dy; case_compare; lia).
  assert (Hsx1 : sx = 1 \/ sx = -1) by (unfold sx; case_compare; lia).
  assert (Hsy1 : sy = 1 \/ sy = -1) by (unfold sy; case_compare; lia).
  assert (Hdx : 0 <= dx) by (unfold dx; lia).
  assert (Hdy : 0 <= dy) by (unfold dy; lia).
  assert (Hpoint : forall k p, nearestLine x1 y1 x2 y2 !! k = Some p ->
    exists a b, p = (x1 + sx * a, y1 + sy * b) /\ 0 <= a <= dx /\ 0 <= b <= dy /\
      (if dy <=? dx then a = Z.of_nat k /\ b = nearestStep dx dy a
       else b = Z.of_nat k /\ a = nearestStep dy dx b))
    by (intros k p Hp; by apply nearestLine_point).
  split_and!.
  - unfold nearestLine. cbv zeta. fold dx dy sx sy.
    rewrite seqZ_cons by lia. simpl.
    unfold nearestStep. destruct (Z.leb_spec dy dx).
    + destruct (decide (dx = 0)) as [->|]; [by rewrite !Z.mul_0_r, !Z.add_0_r|].
      rewrite Z.div_small by lia. by rewrite !Z.mul_0_r, !Z.add_0_r.
    + rewrite Z.div_small by lia. by rewrite !Z.mul_0_r, !Z.add_0_r.
  - unfold nearestLine. cbv zeta. fold dx dy sx sy.
    rewrite fmap_last.
    assert (Hl : last (seqZ 0 (Z.max dx dy + 1)) = Some (Z.max dx dy)).
    { rewrite last_lookup, length_seqZ.
      replace (Nat.pred (Z.to_nat (Z.max dx dy + 1))) with (Z.to_nat (Z.max dx dy)) by lia.
      rewrite lookup_seqZ_lt by lia. f_equal. lia. }
    rewrite Hl. simpl. destruct (Z.leb_spec dy dx).
    + rewrite Z.max_l by lia.
      destruct (decide (dx = 0)) as [E|Hne].
      * assert (E' : dy = 0) by lia. rewrite E in Hsx. rewrite E' in Hsy.
        unfold nearestStep. rewrite E. rewrite Z.div_0_r. do 2 f_equal; lia.
      * rewrite (nearestStep_unique dx dy dx dy) by lia. do 2 f_equal; lia.
    + rewrite Z.max_r by lia.
      rewrite (nearestStep_unique dy dx dy dx) by lia. do 2 f_equal; lia.
  - apply nearestLine_NoDup.
  - intros k p q Hp Hq.
    destruct (Hpoint k p Hp) as (a & b & -> & Ha & Hb & Hab).
    destruct (Hpoint (S k) q Hq) as (a' & b' & -> & Ha' & Hb' & Hab').
    unfold adjacent8. simpl.
    destruct (Z.leb_spec dy dx).
    + destruct Hab as [-> ->], Hab' as [-> ->].
      assert (0 < dx) by lia.
      pose proof (nearestStep_climbs dx dy (Z.of_nat k) ltac:(lia) ltac:(lia)) as Hc.
      replace (Z.of_nat (S k)) with (Z.of_nat k + 1) by lia.
      split; [intros [= E1 E2]; nia|]. split; nia.
    + destruct Hab as [-> ->], Hab' as [-> ->].
      pose proof (nearestStep_climbs dy dx (Z.of_nat k) ltac:(lia) ltac:(lia)) as Hc.
      replace (Z.of_nat (S k)) with (Z.of_nat k + 1) by lia.
      split; [intros [= E1 E2]; nia|]. split; nia.
  - intros p Hp. apply list_elem_of_lookup in Hp as [k Hk].
    destruct (Hpoint k p Hk) as (a & b & -> & Ha & Hb & _). simpl.
    destruct Hsx1 as [E1|E1], Hsy1 as [E2|E2]; rewrite E1, E2 in *; lia.
Qed.

(** X17: a line hugs the ideal line: every pixel [(x, y)] that
    [drawLinePixels] visits is within half a pixel of the straight line
    through the end points, measured along the shorter axis of the line:
    [2 * |(x - x1) * (y2 - y1) - (y - y1) * (x2 - x1)|] is at most
    the length of the longer axis. *)
Theorem drawLinePixels_hugs_ideal_line (x1 y1 x2 y2 : Z) :
  exists pts,
    lineSteps (lineFuel x1 y1 x2 y2) x1 y1 x2 y2 = Some pts /\
    forall p, p ∈ pts ->
      2 * Z.abs ((p.1 - x1) * (y2 - y1) - (p.2 - y1) * (x2 - x1))
        <= Z.max (Z.abs (x2 - x1)) (Z.abs (y2 - y1)).
Proof.
  exists (nearestLine x1 y1 x2 y2).
  split; [by apply lineSteps_nearestLine|].
  intros p Hp. apply list_elem_of_lookup in Hp as [k Hk].
  apply nearestLine_lookup in Hk. cbv zeta in Hk.
  set (dx := Z.abs (x2 - x1)) in *. set (dy := Z.abs (y2 - y1)) in *.
  set (sx := if x1 <? x2 then 1 else -1) in *.
  set (sy := if y1 <? y2 then 1 else -1) in *.
  assert (Hsx : sx * dx = x2 - x1) by (unfold sx, dx; case_compare; lia).
  assert (Hsy : sy * dy = y2 - y1) by (unfold sy, dy; case_compare; lia).
  assert (Hsx1 : sx * sx = 1) by (unfold sx; case_compare; lia).
  assert (Hsy1 : sy * sy = 1) by (unfold sy; case_compare; lia).
  assert (Hss : sx * sy = 1 \/ sx * sy = -1) by (unfold sx, sy; case_compare; lia).
  destruct Hk as [Hk ->]. rewrite <- Hsx, <- Hsy.
  destruct (Z.leb_spec dy dx); simpl.
  - rewrite Z.max_l by lia.
    destruct (decide (dx = 0)) as [E|Hne].
    + assert (dy = 0) as -> by (unfold dy in *; lia). rewrite E. lia.
    + pose proof (nearestStep_bounds dx dy (Z.of_nat k) ltac:(lia)) as Hb.
      set (m := nearestStep dx dy (Z.of_nat k)) in *.
      replace ((x1 + sx * Z.of_nat k - x1) * (sy * dy) - (y1 + sy * m - y1) * (sx * dx))
        with (sx * sy * (Z.of_nat k * dy - m * dx)) by lia.
      destruct Hss as [-> | ->]; lia.
  - rewrite Z.max_r by lia.
    pose proof (nearestStep_bounds dy dx (Z.of_nat k) ltac:(lia)) as Hb.
    set (m := nearestStep dy dx (Z.of_nat k)) in *.
    replace ((x1 + sx * m - x1) * (sy * dy) - (y1 + sy * Z.of_nat k - y1) * (sx * dx))
      with (- (sx * sy) * (Z.of_nat k * dx - m * dy)) by lia.
    destruct Hss as [-> | ->]; lia.
Qed.


(** ** Translucent paint *)







Section PaintTheorems.
Context `{Compositing}.


End PaintTheorems.



(** ** Colors, layer panel and selection shortcuts *)

Lemma opacity_alpha_ends :
  forallb (λ o, let a := Math_round ((Z2F o / 100) * 255)%float in
                Bool.eqb (a =? 0) (o =? 0) && Bool.eqb (a =? 255) (o =? 100))
    (seqZ 0 101) = true.
Proof. vm_compute. reflexivity. Qed.

(** X20: the paint color is always a color of bytes: for an opacity of 0
    to 100 percent, [hexToRgba] returns channels in 0..255 whatever the
    string (black when it is not six hexadecimal digits); its alpha does not
    depend on the string, is 0 only at opacity 0 and 255 only at opacity
    100, so that every opacity in between paints a translucent color. *)
Theorem hexToRgba_is_a_color (hex : string) (opacity : Z) :
  0 <= opacity <= 100 ->
  color_ok (hexToRgba hex opacity) /\
  Color.a (hexToRgba hex opacity) = Color.a (hexToRgba "" opacity) /\
  (parseHex6 hex = None ->
     Color.r (hexToRgba hex opacity) = 0 /\ Color.g (hexToRgba hex opacity) = 0 /\
     Color.b (hexToRgba hex opacity) = 0) /\
  (Color.a (hexToRgba hex opacity) = 0 <-> opacity = 0) /\
  (Color.a (hexToRgba hex opacity) = 255 <-> opacity = 100).
Proof.
  intros Ho. split; [by apply hexToRgba_ok|].
  assert (Ha : Color.a (hexToRgba hex opacity) = Math_round ((Z2F opacity / 100) * 255)%float).
  { unfold hexToRgba. by destruct (parseHex6 hex) as [[[? ?] ?]|]. }
  split; [by rewrite Ha|]. split.
  { intros Hp. unfold hexToRgba. by rewrite Hp. }
  rewrite Ha. pose proof opacity_alpha_ends as Ht. rewrite forallb_forall in Ht.
  specialize (Ht opacity ltac:(apply list_elem_of_In, elem_of_seqZ; lia)).
  cbv zeta in Ht. apply andb_true_iff in Ht as [H0 H255].
  apply Bool.eqb_prop in H0, H255. split.
  - rewrite <- !Z.eqb_eq. by rewrite H0.
  - rewrite <- !Z.eqb_eq. by rewrite H255.
Qed.

Section PanelAndShortcuts.
Context `{Compositing}.

Lemma toggleLayerVisibility_layers s index l :
  at_index (layers s) index = Some l ->
  layers (toggleLayerVisibility s index) =
    alter (λ l, Layer.mk (Layer.id l) (Layer.name l) (Layer.canvas l)
                  (negb (Layer.visible l))) (Z.to_nat index) (layers s).
Proof.
  intros E. unfold toggleLayerVisibility. rewrite E.
  by rewrite compositeAndRender_layers.
Qed.

(** X21: the layer panel keeps the stack valid: choosing a layer, hiding
    or showing one, and dropping a dragged layer on another keep at least
    one layer and an active index inside the list; [setActiveLayer] ignores
    an index outside the list; hiding or showing a layer changes neither
    its pixels nor the order, and doing it twice gives the layers back. *)
Theorem layer_panel_keeps_stack_valid (s : EditorState) (index : Z)
    (dragged : option Z) :
  stack_invariant s ->
  stack_invariant (setActiveLayer s index) /\
  (activeLayerIndex (setActiveLayer s index) =
     if decide (0 <= index < Z.of_nat (length (layers s))) then index
     else activeLayerIndex s) /\
  stack_invariant (toggleLayerVisibility s index) /\
  Forall2 (λ a b, Layer.id a = Layer.id b /\ Layer.canvas a = Layer.canvas b)
    (layers (toggleLayerVisibility s index)) (layers s) /\
  layers (toggleLayerVisibility (toggleLayerVisibility s index) index) = layers s /\
  stack_invariant (handleLayerDrop s dragged index).
Proof.
  intros [Hlen Hact]. split_and!.
  - unfold setActiveLayer. case_compare; simpl; (done || by split).
  - unfold setActiveLayer. case_decide; case_compare; simpl; (done || lia).
  - unfold toggleLayerVisibility. destruct (at_index (layers s) index); [|done].
    unfold stack_invariant.
    rewrite compositeAndRender_layers, compositeAndRender_activeLayerIndex. simpl.
    by rewrite length_alter.
  - unfold toggleLayerVisibility. destruct (at_index (layers s) index) eqn:E.
    + rewrite compositeAndRender_layers. simpl.
      apply Forall2_same_length_lookup_2; [by rewrite length_alter|].
      intros i a b Ha Hb.
      destruct (decide (i = Z.to_nat index)) as [->|Hne].
      * rewrite list_lookup_alter_eq, Hb in Ha. by simplify_eq/=.
      * rewrite list_lookup_alter_ne in Ha by done. by simplify_eq.
    + apply Forall_Forall2_diag, Forall_forall. done.
  - destruct (at_index (layers s) index) as [l|] eqn:E.
    + rewrite (toggleLayerVisibility_layers _ index (Layer.mk (Layer.id l) (Layer.name l) (Layer.canvas l)
                  (negb (Layer.visible l)))).
      * rewrite (toggleLayerVisibility_layers s index l E).
        apply list_eq. intros i.
        destruct (decide (i = Z.to_nat index)) as [->|Hne].
        -- rewrite !list_lookup_alter_eq.
           destruct (layers s !! Z.to_nat index) as [[? ? ? v]|]; [|done].
           simpl. by rewrite negb_involutive.
        -- by rewrite !list_lookup_alter_ne.
      * rewrite (toggleLayerVisibility_layers s index l E).
        unfold at_index in *. destruct (0 <=? index); [|done].
        rewrite list_lookup_alter_eq, E. done.
    + assert (Hsame : toggleLayerVisibility s index = s)
        by (unfold toggleLayerVisibility; by rewrite E).
      by rewrite !Hsame.
  - unfold handleLayerDrop. destruct dragged as [d|]; [|done].
    destruct (negb (d =? index)); [|done].
    unfold stack_invariant. rewrite moveLayer_length. split; [done|].
    by apply moveLayer_activeLayerIndex_valid.
Qed.

End PanelAndShortcuts.


Section Shortcuts.
Context `{Compositing}.

(** X22: Select All followed by Delete is Clear: with nothing floating,
    deleting after [selectAll] leaves exactly the document [clearCanvas]
    leaves, one history entry included, and every pixel of the active layer
    is then transparent. *)
Theorem selectAll_then_delete_is_clearCanvas (s : EditorState) (u : ToolState)
    (cv : ImageData.t) :
  activeCtx s = Some cv ->
  bitmap_ok (canvasWidth s) (canvasHeight s) cv ->
  1 <= canvasWidth s -> 1 <= canvasHeight s ->
  floatingSelection s = None ->
  (deleteSelection s (selectAll s u)).1 = clearCanvas s /\
  hasSelection (deleteSelection s (selectAll s u)).2 = false /\
  exists cv',
    activeCtx (clearCanvas s) = Some cv' /\
    forall x y, 0 <= x < canvasWidth s -> 0 <= y < canvasHeight s ->
      getPixelColor cv' x y = transparentBlack.
Proof.
  intros Hcv Hok HW HH Hf.
  unfold deleteSelection, clearCanvas, selectAll. rewrite Hcv, Hf. simpl.
  rewrite !Z.min_l, !Z.sub_0_r by lia.
  replace (Z.abs (canvasWidth s - 1) + 1) with (canvasWidth s) by lia.
  replace (Z.abs (canvasHeight s - 1) + 1) with (canvasHeight s) by lia.
  assert (Hsame : clearRectAt cv 0 0 (canvasWidth s) (canvasHeight s) =
                  clearRect cv (canvasWidth s) (canvasHeight s)).
  { apply (bitmap_ext (canvasWidth s) (canvasHeight s)).
    - by apply clearRectAt_ok.
    - by apply clearRect_ok.
    - intros x y Hx Hy.
      rewrite (clearRectAt_pixel (canvasWidth s) (canvasHeight s)) by done.
      rewrite (clearRect_pixel (canvasWidth s) (canvasHeight s)) by done.
      rewrite decide_True; [done|lia]. }
  rewrite Hsame. split_and!; try done.
  exists (clearRect cv (canvasWidth s) (canvasHeight s)). split.
  - rewrite activeCtx_compositeAndRender.
    apply (activeCtx_set_activeCanvas _ cv). by rewrite activeCtx_saveState.
  - intros x y Hx Hy. by apply (clearRect_pixel (canvasWidth s) (canvasHeight s)).
Qed.

(** X23: picking a marked rectangle up does not change what the
    clipboard shortcuts do to it: once the rectangle has been lifted into a
    floating selection by a press inside it, Copy and Cut put on the
    clipboard the pixels they would have copied from the mark, and Cut and
    Delete leave the layers they would have left, the rectangle
    transparent; the floating selection is then gone. *)
Theorem shortcuts_after_lifting_a_selection (s : EditorState) (u : ToolState)
    (cv : ImageData.t) (x y : Z) :
  activeCtx s = Some cv ->
  floatingSelection s = None ->
  hasSelection u = true ->
  inRect (getSelectionRect u) x y ->
  let '(s1, u1) := handleMouseDown_select s u x y in
  isInsideSelection s1 u1 x y = true /\
  clipboard (copySelection s1 u1) = clipboard (copySelection s u) /\
  clipboard (cutSelection s1 u1).2 = clipboard (cutSelection s u).2 /\
  layers (cutSelection s1 u1).1 = layers (cutSelection s u).1 /\
  layers (deleteSelection s1 u1).1 = layers (deleteSelection s u).1 /\
  floatingSelection (cutSelection s1 u1).1 = None /\
  floatingSelection (deleteSelection s1 u1).1 = None /\
  undoStack (deleteSelection s1 u1).1 = undoStack (deleteSelection s u).1.
Proof.
  intros Hcv Hf Hs Hin.
  assert (Hinside : isInsideSelection s u x y = true)
    by (by apply isInsideSelection_marked).
  unfold handleMouseDown_select. rewrite Hf, Hs, Hinside, Hcv. cbn [andb].
  set (rect := getSelectionRect u) in *.
  set (R := getImageData cv (Rect.x rect) (Rect.y rect) (Rect.width rect)
              (Rect.height rect)).
  set (cleared := clearRectAt cv (Rect.x rect) (Rect.y rect) (Rect.width rect)
                    (Rect.height rect)).
  set (s1 := compositeAndRender _).
  set (u1 := set_moving _ _ _ _).
  assert (Hf1 : floatingSelection s1 = Some (Floating.mk R (Rect.x rect) (Rect.y rect))).
  { unfold s1.
    match goal with
    | |- floatingSelection (compositeAndRender ?t) = _ =>
        destruct (compositeAndRender_lasso t) as (_ & _ & _ & _ & ->)
    end. done. }
  assert (Hcv1 : activeCtx s1 = Some cleared).
  { unfold s1. rewrite activeCtx_compositeAndRender, activeCtx_set_floatingSelection.
    apply (activeCtx_set_activeCanvas _ cv). by rewrite activeCtx_saveState. }
  assert (Hl1 : layers s1 = layers (compositeAndRender
                  (set_activeCanvas (saveState s) cleared))).
  { unfold s1. by rewrite !compositeAndRender_layers. }
  assert (Hu1 : undoStack s1 = undoStack (compositeAndRender
                  (set_activeCanvas (saveState s) cleared))).
  { unfold s1.
    match goal with
    | |- undoStack (compositeAndRender ?t) = undoStack (compositeAndRender ?t') =>
        destruct (compositeAndRender_history t) as [-> _];
        destruct (compositeAndRender_history t') as [-> _]
    end. done. }
  unfold copySelection, cutSelection, deleteSelection, isInsideSelection.
  rewrite Hcv1, Hf1, Hcv, Hf, Hs. cbn [negb fst snd Floating.x Floating.y
    Floating.imageData]. fold rect.
  split_and!.
  - unfold inRect, rect in Hin. simpl in Hin. unfold R. simpl.
    rewrite !andb_true_iff, !Z.leb_le, !Z.ltb_lt. lia.
  - done.
  - done.
  - by rewrite compositeAndRender_layers.
  - done.
  - match goal with
    | |- floatingSelection (compositeAndRender ?t) = _ =>
        destruct (compositeAndRender_lasso t) as (_ & _ & _ & _ & ->)
    end. done.
  - done.
  - done.
Qed.


End Shortcuts.


Section LassoClipboard.
Context `{Compositing}.


End LassoClipboard.


(** ** Concrete runs of these parts *)

Lemma sketch_canvas_ok : bitmap_ok 3 3 sketch_canvas.
Proof. unfold bitmap_ok. simpl. lia. Qed.

Lemma sketch_canvas_bytes : bytes_ok sketch_canvas.
Proof. unfold bytes_ok, byte_ok. simpl. repeat constructor; lia. Qed.



Lemma sketch_sized opacity : layers_sized (sketch opacity).
Proof. unfold layers_sized. simpl. repeat constructor; simpl; lia. Qed.

Lemma sketch_ids opacity : NoDup (Layer.id <$> layers (sketch opacity)).
Proof. simpl. apply NoDup_singleton. Qed.

(** Clearing the sketch and undoing gives the sketch back. *)
Lemma undo_reverts_fill_replace_clear_witness :
  activeCtx (sketch 100) = Some sketch_canvas /\
  layers_sized (sketch 100) /\
  NoDup (Layer.id <$> layers (sketch 100)) /\
  layers (@undo straightAlpha (@clearCanvas straightAlpha (sketch 100)))
    = layers (sketch 100) /\
  layers (@undo straightAlpha (@replaceColor straightAlpha (sketch 100) 0 0))
    = layers (sketch 100).
Proof.
  assert (Hcv : activeCtx (sketch 100) = Some sketch_canvas) by reflexivity.
  split; [exact Hcv|]. split; [apply sketch_sized|]. split; [apply sketch_ids|].
  destruct (@undo_reverts_fill_replace_clear straightAlpha (sketch 100) sketch_canvas 0 0
              Hcv (sketch_sized 100) (sketch_ids 100) ltac:(simpl; lia) ltac:(simpl; lia))
    as (_ & [Hr _] & [Hc _]).
  split; [exact Hc|exact Hr].
Defined.

(** An empty history stays within the limit through a snapshot. *)
Lemma history_stays_bounded_witness :
  history_bounded (sketch 100) /\
  history_bounded (@saveState (sketch 100)) /\
  history_bounded (@undo straightAlpha (sketch 100)).
Proof.
  assert (Hb : history_bounded (sketch 100))
    by (unfold history_bounded, MAX_UNDO_STEPS; simpl; lia).
  destruct (@history_stays_bounded straightAlpha (sketch 100) Hb) as (Hs & Hu & _).
  split; [exact Hb|]. split; [exact Hs|exact Hu].
Defined.

(** The two-layer document with its upper layer active: a snapshot, the
    removal of that layer and an undo leave one layer and no active one. *)
Lemma undo_after_removeLayer_has_no_active_layer_witness :
  (2 <= length (layers red_under_clear))%nat /\
  activeLayerIndex red_under_clear = Z.of_nat (length (layers red_under_clear)) - 1 /\
  activeCtx (@undo straightAlpha
               (@removeLayer straightAlpha (saveState red_under_clear) 1)) = None.
Proof.
  assert (Hlen : (2 <= length (layers red_under_clear))%nat) by (simpl; lia).
  assert (Hact : activeLayerIndex red_under_clear =
                 Z.of_nat (length (layers red_under_clear)) - 1) by reflexivity.
  split; [exact Hlen|]. split; [exact Hact|].
  destruct (@undo_after_removeLayer_has_no_active_layer straightAlpha red_under_clear
              Hlen Hact) as (_ & _ & Hnone).
  exact Hnone.
Defined.


Lemma blank_display_ok : bitmap_ok 3 3 (ImageData.mk 3 3 (replicate 36 0)).
Proof. unfold bitmap_ok. simpl. lia. Qed.

(** Rendering the sketch over a blank display and over a copy of the
    sketch leaves the same picture. *)
Lemma compositeAndRender_forgets_display_witness :
  bitmap_ok 3 3 (ImageData.mk 3 3 (replicate 36 0)) /\
  bitmap_ok 3 3 sketch_canvas /\
  @compositeAndRender straightAlpha
    (set_ctx (sketch 100) (Some (ImageData.mk 3 3 (replicate 36 0)))) =
  @compositeAndRender straightAlpha (set_ctx (sketch 100) (Some sketch_canvas)).
Proof.
  split; [exact blank_display_ok|]. split; [exact sketch_canvas_ok|].
  exact (proj1 (@compositeAndRender_forgets_display straightAlpha (sketch 100)
                  (ImageData.mk 3 3 (replicate 36 0)) sketch_canvas
                  blank_display_ok sketch_canvas_ok)).
Defined.

(** A second layer added to the sketch shows the same picture. *)
Lemma addLayer_keeps_picture_witness :
  ctx (sketch 100) = Some (ImageData.mk 3 3 (replicate 36 0)) /\
  ctx (@addLayer straightAlpha (sketch 100) "layer-2") =
    ctx (@compositeAndRender straightAlpha (sketch 100)).
Proof.
  split; [reflexivity|].
  exact (@addLayer_keeps_picture straightAlpha (sketch 100)
           (ImageData.mk 3 3 (replicate 36 0)) "layer-2" eq_refl blank_display_ok).
Defined.

(** A drag on the sketch from the middle pixel to far beyond the bottom
    right corner marks the four pixels from the middle to that corner. *)
Lemma dragSelect_stays_on_canvas_witness :
  floatingSelection (sketch 100) = None /\
  hasSelection idle = false /\
  isMovingSelection idle = false /\
  getSelectionRect (@dragSelect straightAlpha (sketch 100) idle 1 1 [(2, 1); (40, 50)]).2
    = Rect.mk 1 1 2 2 /\
  hasSelection (@dragSelect straightAlpha (sketch 100) idle 1 1 [(2, 1); (40, 50)]).2
    = true.
Proof.
  split; [reflexivity|]. split; [reflexivity|]. split; [reflexivity|].
  assert (Hrect : getSelectionRect
            (@dragSelect straightAlpha (sketch 100) idle 1 1 [(2, 1); (40, 50)]).2
          = Rect.mk 1 1 2 2) by (vm_compute; reflexivity).
  split; [exact Hrect|].
  pose proof (@dragSelect_stays_on_canvas straightAlpha (sketch 100) idle 1 1
                [(2, 1); (40, 50)] eq_refl eq_refl eq_refl
                ltac:(simpl; lia) ltac:(simpl; lia)) as Hdrag.
  destruct (@dragSelect straightAlpha (sketch 100) idle 1 1 [(2, 1); (40, 50)])
    as [s' u'] eqn:E.
  cbn [snd] in *. cbv zeta in Hdrag. cbn [last default] in Hdrag.
  destruct Hdrag as (_ & _ & _ & _ & _ & _ & _ & _ & Hhas & _).
  apply Hhas. rewrite Hrect. simpl. lia.
Defined.

(** Cutting the marked top-left pixels of the sketch: the clipboard holds
    the red corner pixel, the layer is transparent there. *)
Lemma cutSelection_copies_then_clears_witness :
  activeCtx (sketch 100) = Some sketch_canvas /\
  floatingSelection (sketch 100) = None /\
  hasSelection marked = true /\
  exists cv' clip,
    activeCtx (@cutSelection straightAlpha (sketch 100) marked).1 = Some cv' /\
    clipboard (@cutSelection straightAlpha (sketch 100) marked).2 = Some clip /\
    getPixelColor clip 0 0 = Color.mk 255 0 0 255 /\
    getPixelColor cv' 0 0 = transparentBlack /\
    getPixelColor cv' 2 2 = Color.mk 255 0 0 255.
Proof.
  split; [reflexivity|]. split; [reflexivity|]. split; [reflexivity|].
  pose proof (@cutSelection_copies_then_clears straightAlpha (sketch 100) marked
                sketch_canvas eq_refl sketch_canvas_ok eq_refl eq_refl) as Hcut.
  cbv zeta in Hcut.
  destruct (@cutSelection straightAlpha (sketch 100) marked) as [s' u'] eqn:E.
  destruct Hcut as (_ & _ & _ & _ & cv' & clip & Hact & Hclip & _ & _ & Hcp & Hlp).
  exists cv', clip. split; [exact Hact|]. split; [exact Hclip|]. split_and!.
  - rewrite (Hcp 0 0); [reflexivity|simpl; lia|simpl; lia].
  - rewrite (Hlp 0 0); [reflexivity|simpl; lia|simpl; lia].
  - rewrite (Hlp 2 2); [reflexivity|simpl; lia|simpl; lia].
Defined.

(** Copy and paste of the marked pixels of the sketch: the copy floats at
    the origin. *)
Lemma paste_floats_copy_at_origin_witness :
  activeCtx (sketch 100) = Some sketch_canvas /\
  floatingSelection (sketch 100) = None /\
  hasSelection marked = true /\
  exists img,
    floatingSelection
      (@pasteSelection straightAlpha (sketch 100) (copySelection (sketch 100) marked)).1
      = Some (Floating.mk img 0 0) /\
    getPixelColor img 1 1 = Color.mk 0 0 255 255.
Proof.
  split; [reflexivity|]. split; [reflexivity|]. split; [reflexivity|].
  pose proof (@paste_floats_copy_at_origin straightAlpha (sketch 100) marked
                sketch_canvas eq_refl eq_refl eq_refl) as Hp.
  cbv zeta in Hp.
  destruct (@pasteSelection straightAlpha (sketch 100) (copySelection (sketch 100) marked))
    as [s' u'] eqn:E.
  destruct Hp as (_ & _ & _ & img & Hf & _ & _ & _ & Hpix).
  exists img. split; [exact Hf|].
  rewrite (Hpix 1 1); [reflexivity|simpl; lia|simpl; lia].
Defined.

(** The marked pixels of the sketch moved one pixel right and down: the
    red corner pixel lands on the middle pixel and leaves a hole. *)
Lemma move_selection_overwrites_target_witness :
  activeCtx (sketch 100) = Some sketch_canvas /\
  floatingSelection (sketch 100) = None /\
  hasSelection marked = true /\
  inRect (getSelectionRect marked) 0 0 /\
  exists cv3,
    activeCtx
      (@commitFloatingSelection straightAlpha
         (@handleMouseMove_select
            (@handleMouseDown_select straightAlpha (sketch 100) marked 0 0).1
            (@handleMouseDown_select straightAlpha (sketch 100) marked 0 0).2 1 1).1)
      = Some cv3 /\
    getPixelColor cv3 1 1 = Color.mk 255 0 0 255 /\
    getPixelColor cv3 0 0 = transparentBlack.
Proof.
  assert (Hin : inRect (getSelectionRect marked) 0 0) by (unfold inRect; simpl; lia).
  split; [reflexivity|]. split; [reflexivity|]. split; [reflexivity|]. split; [exact Hin|].
  pose proof (@move_selection_overwrites_target straightAlpha (sketch 100) marked
                sketch_canvas 0 0 1 1 eq_refl sketch_canvas_ok eq_refl eq_refl Hin) as Hmv.
  cbv zeta in Hmv.
  destruct (@handleMouseDown_select straightAlpha (sketch 100) marked 0 0) as [s1 u1] eqn:E1.
  cbn [fst snd].
  destruct (handleMouseMove_select s1 u1 1 1) as [s2 u2] eqn:E2.
  destruct Hmv as (_ & _ & cv3 & Hact & Hpix & _).
  exists cv3. split; [exact Hact|]. split.
  - rewrite (Hpix 1 1); [reflexivity|simpl; lia|simpl; lia].
  - rewrite (Hpix 0 0); [reflexivity|simpl; lia|simpl; lia].
Defined.


Lemma lasso_canvas_ok :
  bitmap_ok 2 2 (ImageData.mk 2 2 (concat (replicate 4 [10; 20; 30; 255]))).
Proof. unfold bitmap_ok. simpl. lia. Qed.

Lemma lasso_canvas_bytes :
  bytes_ok (ImageData.mk 2 2 (concat (replicate 4 [10; 20; 30; 255]))).
Proof. unfold bytes_ok, byte_ok. simpl. repeat constructor; lia. Qed.

Lemma lasso_document_points : 3 <= Z.of_nat (length (lassoPoints lasso_document)).
Proof. simpl. lia. Qed.

Lemma lasso_document_origin : lassoed lasso_document 0 0.
Proof. split; [unfold inBounds; simpl; lia|vm_compute; reflexivity]. Qed.

(** The triangle drawn on the 2 by 2 document and deleted: the pixel at
    the origin, which the triangle holds, is erased. *)
Lemma deleteLassoSelection_erases_polygon_witness :
  isLassoing lassoing = true /\ isMovingSelection lassoing = false /\
  3 <= Z.of_nat (length (lassoPoints lasso_document)) /\
  lassoed lasso_document 0 0 /\
  exists cv',
    activeCtx (@deleteLassoSelection straightAlpha
                 (handleMouseUp_lasso lasso_document lassoing).1)
      = Some cv' /\
    getPixelColor cv' 0 0 = transparentBlack.
Proof.
  split; [reflexivity|]. split; [reflexivity|].
  split; [exact lasso_document_points|]. split; [exact lasso_document_origin|].
  destruct (@deleteLassoSelection_erases_polygon straightAlpha lasso_document lassoing
              _ eq_refl eq_refl lasso_document_points eq_refl lasso_canvas_ok
              ltac:(simpl; lia) ltac:(simpl; lia))
    as (_ & _ & _ & _ & _ & cv' & Hact & Hpix).
  exists cv'. split; [exact Hact|].
  rewrite (Hpix 0 0); [|simpl; lia|simpl; lia].
  rewrite decide_True; [reflexivity|exact lasso_document_origin].
Defined.

(** The same triangle picked up at the origin and put down where it was:
    the pixel at [(1, 1)], inside the bounding box but outside the
    triangle, is erased. *)
Lemma move_lasso_overwrites_bounding_box_witness :
  isLassoing lassoing = true /\ isMovingSelection lassoing = false /\
  3 <= Z.of_nat (length (lassoPoints lasso_document)) /\
  floatingSelection lasso_document = None /\
  lassoed lasso_document 0 0 /\
  inBounds (lassoBox 2 2 (lassoPoints lasso_document)) 1 1 /\
  ~ lassoed lasso_document 1 1 /\
  exists cv3,
    activeCtx
      (@commitFloatingSelection straightAlpha
         (@handleMouseMove_lasso
            (@handleMouseDown_lasso straightAlpha
               (handleMouseUp_lasso lasso_document lassoing).1
               (handleMouseUp_lasso lasso_document lassoing).2 0 0).1
            (@handleMouseDown_lasso straightAlpha
               (handleMouseUp_lasso lasso_document lassoing).1
               (handleMouseUp_lasso lasso_document lassoing).2 0 0).2
            0 0))
      = Some cv3 /\
    getPixelColor cv3 1 1 = transparentBlack /\
    getPixelColor cv3 0 0 = Color.mk 10 20 30 255.
Proof.
  assert (Hbox : inBounds (lassoBox 2 2 (lassoPoints lasso_document)) 1 1)
    by (unfold inBounds; simpl; lia).
  assert (Hout : ~ lassoed lasso_document 1 1).
  { intros [_ Hp]. vm_compute in Hp. discriminate. }
  split; [reflexivity|]. split; [reflexivity|].
  split; [exact lasso_document_points|]. split; [reflexivity|].
  split; [exact lasso_document_origin|]. split; [exact Hbox|]. split; [exact Hout|].
  pose proof (@move_lasso_overwrites_bounding_box straightAlpha lasso_document lassoing
                _ 0 0 0 0 eq_refl eq_refl lasso_document_points eq_refl lasso_canvas_ok
                lasso_canvas_bytes ltac:(simpl; lia) ltac:(simpl; lia) eq_refl
                lasso_document_origin) as Hmv.
  cbv zeta in Hmv.
  destruct (handleMouseUp_lasso lasso_document lassoing) as [s u] eqn:E0.
  cbn [fst snd].
  destruct (@handleMouseDown_lasso straightAlpha s u 0 0) as [s1 u1] eqn:E1.
  cbn [fst snd].
  destruct Hmv as (_ & cv3 & Hact & Hpix & Hsame).
  exists cv3. split; [exact Hact|]. split.
  - apply (Hsame eq_refl eq_refl 1 1 Hbox Hout).
  - rewrite (Hpix 0 0); [|simpl; lia|simpl; lia].
    change (0 - (0 - 0)) with 0.
    rewrite decide_True by (unfold inBounds; simpl; lia).
    rewrite decide_True by exact lasso_document_origin. reflexivity.
Defined.

(** A lasso stroke on the sketch whose pointer rests for two events and
    later comes back to its first position. *)
Lemma dragLasso_records_squeezed_path_witness :
  floatingSelection (sketch 100) = None /\
  lassoMask (sketch 100) = None /\
  lassoPoints
    (@dragLasso straightAlpha (sketch 100) idle 0 0 [(0, 0); (1, 0); (1, 0); (0, 0)]).1
    = [Point.mk 0 0; Point.mk 1 0; Point.mk 0 0].
Proof.
  split; [reflexivity|]. split; [reflexivity|].
  pose proof (@dragLasso_records_squeezed_path straightAlpha (sketch 100) idle 0 0
                [(0, 0); (1, 0); (1, 0); (0, 0)] eq_refl eq_refl) as Hd.
  destruct (@dragLasso straightAlpha (sketch 100) idle 0 0
              [(0, 0); (1, 0); (1, 0); (0, 0)]) as [s' u'] eqn:E.
  destruct Hd as (Hp & _). cbn [fst]. rewrite Hp. reflexivity.
Defined.



(** The line from [(0, 0)] to [(5, 2)]: six pixels, found within eight
    turns. *)
Lemma drawLinePixels_visits_nearest_pixels_witness :
  (lineFuel 0 0 5 2 <= 8)%nat /\
  lineSteps 8 0 0 5 2 = Some [(0, 0); (1, 0); (2, 1); (3, 1); (4, 2); (5, 2)].
Proof.
  assert (Hfuel : (lineFuel 0 0 5 2 <= 8)%nat) by (vm_compute; lia).
  split; [exact Hfuel|].
  rewrite (proj1 (drawLinePixels_visits_nearest_pixels 0 0 5 2 8 Hfuel)).
  reflexivity.
Defined.



(** Green at 50 percent: alpha 128. *)
Lemma hexToRgba_is_a_color_witness :
  0 <= 50 <= 100 /\
  color_ok (hexToRgba "#00ff00" 50) /\
  hexToRgba "#00ff00" 50 = Color.mk 0 255 0 128.
Proof.
  assert (Ho : 0 <= 50 <= 100) by lia.
  split; [exact Ho|]. split.
  - exact (proj1 (hexToRgba_is_a_color "#00ff00" 50 Ho)).
  - vm_compute. reflexivity.
Defined.

(** The layer panel on the two-layer document. *)
Lemma layer_panel_keeps_stack_valid_witness :
  stack_invariant red_under_clear /\
  stack_invariant (setActiveLayer red_under_clear 7) /\
  stack_invariant (@toggleLayerVisibility straightAlpha red_under_clear 0) /\
  stack_invariant (@handleLayerDrop straightAlpha red_under_clear (Some 1) 0).
Proof.
  assert (Hinv : stack_invariant red_under_clear) by (unfold stack_invariant; simpl; lia).
  destruct (@layer_panel_keeps_stack_valid straightAlpha red_under_clear 7 None Hinv)
    as (Hset & _).
  destruct (@layer_panel_keeps_stack_valid straightAlpha red_under_clear 0 (Some 1) Hinv)
    as (_ & _ & Htog & _ & _ & Hdrop).
  split; [exact Hinv|]. split; [exact Hset|]. split; [exact Htog|exact Hdrop].
Defined.

(** Select All and Delete on the sketch. *)
Lemma selectAll_then_delete_is_clearCanvas_witness :
  activeCtx (sketch 100) = Some sketch_canvas /\
  floatingSelection (sketch 100) = None /\
  (@deleteSelection straightAlpha (sketch 100) (selectAll (sketch 100) idle)).1
    = @clearCanvas straightAlpha (sketch 100).
Proof.
  split; [reflexivity|]. split; [reflexivity|].
  exact (proj1 (@selectAll_then_delete_is_clearCanvas straightAlpha (sketch 100) idle
                  sketch_canvas eq_refl sketch_canvas_ok ltac:(simpl; lia)
                  ltac:(simpl; lia) eq_refl)).
Defined.

(** The marked pixels of the sketch picked up, then deleted. *)
Lemma shortcuts_after_lifting_a_selection_witness :
  activeCtx (sketch 100) = Some sketch_canvas /\
  floatingSelection (sketch 100) = None /\
  hasSelection marked = true /\
  inRect (getSelectionRect marked) 0 0 /\
  layers (@deleteSelection straightAlpha
            (@handleMouseDown_select straightAlpha (sketch 100) marked 0 0).1
            (@handleMouseDown_select straightAlpha (sketch 100) marked 0 0).2).1
    = layers (@deleteSelection straightAlpha (sketch 100) marked).1.
Proof.
  assert (Hin : inRect (getSelectionRect marked) 0 0) by (unfold inRect; simpl; lia).
  split; [reflexivity|]. split; [reflexivity|]. split; [reflexivity|]. split; [exact Hin|].
  pose proof (@shortcuts_after_lifting_a_selection straightAlpha (sketch 100) marked
                sketch_canvas 0 0 eq_refl eq_refl eq_refl Hin) as Hs.
  destruct (@handleMouseDown_select straightAlpha (sketch 100) marked 0 0) as [s1 u1] eqn:E.
  cbn [fst snd]. destruct Hs as (_ & _ & _ & _ & Hd & _). exact Hd.
Defined.


(** ** Canvas size *)

Lemma find_snapshot (W Ht : Z) (ls : list Layer.t) (i : nat) (l : Layer.t) :
  NoDup (Layer.id <$> ls) -> ls !! i = Some l ->
  List.find (λ d, String.eqb (LayerState.id d) (Layer.id l))
    ((λ layer, LayerState.mk (Layer.id layer)
        (getImageData (Layer.canvas layer) 0 0 W Ht)) <$> ls)
  = Some (LayerState.mk (Layer.id l) (getImageData (Layer.canvas l) 0 0 W Ht)).
Proof.
  revert i. induction ls as [|l0 ls IH]; intros i Hnd Hl; [done|].
  rewrite fmap_cons in Hnd. apply NoDup_cons in Hnd as [Hl0 Hnd]. simpl.
  destruct i as [|i]; simpl in Hl.
  - injection Hl as ->. by rewrite String.eqb_refl.
  - destruct (String.eqb_spec (Layer.id l0) (Layer.id l)) as [E|_].
    + exfalso. apply Hl0. rewrite E. apply list_elem_of_fmap. exists l.
      split; [done|]. by apply list_elem_of_lookup_2 in Hl.
    + by apply (IH i).
Qed.

Section ResizeTheorems.
Context `{Compositing}.

(** X25: resizing keeps the top-left part of the picture and forgets the
    history: with layers of the document's size and distinct ids, and both
    sizes positive (the browser refuses to read an empty area), after
    [applyCanvasSize] and its animation frame every layer keeps its id, name,
    visibility and place in the stack and has the new size; a pixel of it is
    the layer's old pixel where the old canvas had one and transparent in
    the area gained, what lay outside the new size being cut off; and both
    history stacks are empty, so that nothing done before can be undone. *)
Theorem applyCanvasSize_keeps_top_left (s : EditorState) (width height : Z) :
  layers_sized s ->
  NoDup (Layer.id <$> layers s) ->
  0 < canvasWidth s -> 0 < canvasHeight s ->
  0 < width -> 0 < height ->
  let '(s1, layerImageData) := applyCanvasSize s width height in
  let s2 := applyCanvasSize_frame layerImageData width height s1 in
  canvasWidth s2 = width /\ canvasHeight s2 = height /\
  layers_sized s2 /\
  activeLayerIndex s2 = activeLayerIndex s /\
  undoStack s2 = [] /\ redoStack s2 = [] /\
  undo s2 = s2 /\
  Forall2 same_layer (layers s2) (layers s) /\
  forall i l l', layers s !! i = Some l -> layers s2 !! i = Some l' ->
    forall x y, 0 <= x < width -> 0 <= y < height ->
      getPixelColor (Layer.canvas l') x y =
        if decide (x < canvasWidth s /\ y < canvasHeight s)
        then getPixelColor (Layer.canvas l) x y else transparentBlack.
Proof.
  intros Hsized Hnd _ _ Hw Hh. unfold applyCanvasSize, applyCanvasSize_frame.
  set (saved := (λ layer, LayerState.mk (Layer.id layer)
                   (getImageData (Layer.canvas layer) 0 0 (canvasWidth s) (canvasHeight s)))
                <$> layers s).
  set (blank := ImageData.mk width height (replicate (Z.to_nat (4 * width * height)) 0)).
  set (resize := λ layer : Layer.t,
         Layer.mk (Layer.id layer) (Layer.name layer)
           match List.find (λ d, String.eqb (LayerState.id d) (Layer.id layer)) saved with
           | Some savedData => putImageData blank (LayerState.imageData savedData) 0 0
           | None => blank
           end (Layer.visible layer)).
  set (s1 := mkState _ _ _ _ _ _ _ _ _ _ _ _ _ _).
  cbv zeta.
  change (set_layers s1 _) with (set_layers s1 (resize <$> layers s)).
  set (s2 := compositeAndRender _).
  assert (Hblank : bitmap_ok width height blank).
  { unfold bitmap_ok, blank. simpl. rewrite length_replicate. split_and!; try done; nia. }
  assert (Hlayers : layers s2 = resize <$> layers s).
  { unfold s2. by rewrite compositeAndRender_layers. }
  assert (Hcanvas : forall i l, layers s !! i = Some l ->
    Layer.canvas (resize l) = putImageData blank (Layer.canvas l) 0 0).
  { intros i l Hl. unfold resize, saved. simpl.
    rewrite (find_snapshot _ _ _ i l Hnd Hl). simpl.
    rewrite (getImageData_whole (canvasWidth s) (canvasHeight s)); [done|].
    by apply (Forall_lookup_1 _ _ _ _ Hsized Hl). }
  assert (Hsize : canvasWidth s2 = width /\ canvasHeight s2 = height).
  { unfold s2.
    match goal with
    | |- canvasWidth (compositeAndRender ?t) = _ /\ _ =>
        destruct (compositeAndRender_size t) as [-> ->]
    end. done. }
  assert (Hhist : undoStack s2 = [] /\ redoStack s2 = []).
  { unfold s2.
    match goal with
    | |- undoStack (compositeAndRender ?t) = _ /\ _ =>
        destruct (compositeAndRender_history t) as [-> ->]
    end. done. }
  destruct Hsize as [Hw2 Hh2]. destruct Hhist as [Hu Hr].
  split_and!; try done.
  - unfold layers_sized. rewrite Hw2, Hh2, Hlayers. apply Forall_lookup.
    intros i l' Hl'. rewrite list_lookup_fmap in Hl'.
    destruct (layers s !! i) as [l|] eqn:Hl; [|done]. injection Hl' as <-.
    rewrite (Hcanvas i l Hl). by apply putImageData_ok.
  - unfold s2. by rewrite compositeAndRender_activeLayerIndex.
  - unfold undo. by rewrite Hu.
  - rewrite Hlayers. apply Forall2_fmap_l, Forall_Forall2_diag, Forall_forall.
    intros l _. done.
  - intros i l l' Hl Hl' x y Hx Hy. rewrite Hlayers, list_lookup_fmap, Hl in Hl'.
    injection Hl' as <-. rewrite (Hcanvas i l Hl).
    rewrite (putImageData_pixel width height) by done.
    pose proof (Forall_lookup_1 _ _ _ _ Hsized Hl) as (Hcw & Hch & _).
    rewrite Hcw, Hch, !Z.sub_0_r.
    assert (Hblk : getPixelColor blank x y = transparentBlack).
    { apply getPixelColor_blank; lia. }
    repeat case_decide; try done; lia.
Qed.

End ResizeTheorems.


(** The sketch resized to 2 by 4: the top-left pixels stay, the new row is
    transparent. *)
Lemma applyCanvasSize_keeps_top_left_witness :
  layers_sized (sketch 100) /\
  NoDup (Layer.id <$> layers (sketch 100)) /\
  exists l',
    layers (@applyCanvasSize_frame straightAlpha (applyCanvasSize (sketch 100) 2 4).2 2 4
              (applyCanvasSize (sketch 100) 2 4).1) !! 0%nat = Some l' /\
    getPixelColor (Layer.canvas l') 1 1 = Color.mk 0 0 255 255 /\
    getPixelColor (Layer.canvas l') 1 3 = transparentBlack.
Proof.
  split; [apply sketch_sized|]. split; [apply sketch_ids|].
  pose proof (@applyCanvasSize_keeps_top_left straightAlpha (sketch 100) 2 4
                (sketch_sized 100) (sketch_ids 100) ltac:(simpl; lia) ltac:(simpl; lia)
                ltac:(lia) ltac:(lia)) as Hr.
  destruct (applyCanvasSize (sketch 100) 2 4) as [s1 saved] eqn:E. cbn [fst snd].
  cbv zeta in Hr. destruct Hr as (_ & _ & _ & _ & _ & _ & _ & Hsame & Hpix).
  destruct (layers (@applyCanvasSize_frame straightAlpha saved 2 4 s1) !! 0%nat)
    as [l'|] eqn:Hl'.
  - exists l'. split; [reflexivity|]. split.
    + rewrite (Hpix 0%nat _ l' eq_refl Hl' 1 1); [reflexivity|lia|lia].
    + rewrite (Hpix 0%nat _ l' eq_refl Hl' 1 3); [reflexivity|lia|lia].
  - apply Forall2_length in Hsame. apply lookup_ge_None in Hl'.
    simpl in Hsame. lia.
Defined.

